(** * Moodle-Evaluation-Parser: extraction pipeline and template engine

    A shallow embedding of
      - [src/utils/file_utils.py]        (the CDATA sanitizer),
      - [src/parsers/xml_parser.py]      (course grouping, type extractors),
      - [src/template_engine/*.py]       (presets, validator, migration,
                                          expression evaluator, renderer),
    followed by the properties of the specification that concern them.

    Conventions.
      - A Python [str] is a sequence of Unicode code points: [str := list N].
        Literals are written [u "..."], the UTF-8 decoding of the Rocq
        string between the quotes.
      - A Python value of type [Any] is a [value]; a [dict] is an
        association list in insertion order with string keys.
      - Code that can raise returns a [result]; [Raise e] is the exception.
      - Builtins whose full definition is outside the repository
        ([float()] and [int()] on a string, [str.lower()], [repr] of
        floats and containers, [ET.fromstring]) are Variables of a
        Section.
      - The file system is the [file_state] of the one path that the
        parser opens. *)

From Stdlib Require Import ZArith NArith List String Ascii Lia.
From Stdlib Require Import Floats.SpecFloat.
From stdpp Require Import base list gmap sorting lexico.

Local Open Scope Z_scope.
Local Open Scope list_scope.

(* ================================================================== *)
(** ** Python strings *)

Definition char := N.
Definition str := list char.

Definition cont (c : ascii) : N := N.land (N_of_ascii c) 63.

(** UTF-8 decoding of a Rocq string literal. *)
Fixpoint u (s : string) : str :=
  match s with
  | EmptyString => []
  | String a r =>
      let n := N_of_ascii a in
      if (n <? 128)%N then n :: u r
      else if (n <? 224)%N then
        match r with
        | String b r1 => (N.land n 31 * 64 + cont b)%N :: u r1
        | _ => [n]
        end
      else if (n <? 240)%N then
        match r with
        | String b (String c r2) =>
            (N.land n 15 * 4096 + cont b * 64 + cont c)%N :: u r2
        | _ => [n]
        end
      else
        match r with
        | String b (String c (String d r3)) =>
            (N.land n 7 * 262144 + cont b * 4096 + cont c * 64 + cont d)%N
              :: u r3
        | _ => [n]
        end
  end.

(** A one-character literal. *)
Definition ch (s : string) : char := hd 0%N (u s).

(** The line feed. *)
Definition newline : str := [10%N].

(** The double quote. *)
Definition dquote : char := 34%N.

Definition str_eqb (a b : str) : bool := bool_decide (a = b).

(** [str.isspace] on one code point, which is also the class [\s] of [re]
    on a [str] pattern. *)
Definition isspace (c : char) : bool :=
  ((9 <=? c) && (c <=? 13) || (28 <=? c) && (c <=? 32)
   || (c =? 133) || (c =? 160) || (c =? 5760)
   || (8192 <=? c) && (c <=? 8202)
   || (c =? 8232) || (c =? 8233) || (c =? 8239) || (c =? 8287)
   || (c =? 12288))%N.

Fixpoint lstrip (s : str) : str :=
  match s with
  | c :: r => if isspace c then lstrip r else s
  | [] => []
  end.

Definition rstrip (s : str) : str := rev (lstrip (rev s)).

(** [s.strip()] *)
Definition strip (s : str) : str := rstrip (lstrip s).

(** The longest prefix of [s] whose characters satisfy [p]. *)
Fixpoint take_while (p : char -> bool) (s : str) : str :=
  match s with
  | c :: r => if p c then c :: take_while p r else []
  | [] => []
  end.

(** [s.startswith(p)] *)
Fixpoint startswith (p s : str) : bool :=
  match p, s with
  | [], _ => true
  | a :: p', b :: s' => (a =? b)%N && startswith p' s'
  | _ :: _, [] => false
  end.

(** [sep.join(parts)] *)
Fixpoint join (sep : str) (parts : list str) : str :=
  match parts with
  | [] => []
  | [p] => p
  | p :: rest => p ++ sep ++ join sep rest
  end.

(** [s.split(c)] for a one-character separator. *)
Fixpoint split_char (c : char) (s : str) : list str :=
  match s with
  | [] => [[]]
  | x :: r =>
      if (x =? c)%N then [] :: split_char c r
      else match split_char c r with
           | h :: t => (x :: h) :: t
           | [] => [[x]]
           end
  end.

(** [s.split(c, 1)] when [c] occurs in [s]: the text before the first
    occurrence and the text after it. *)
Fixpoint split_first (c : char) (s : str) : str * str :=
  match s with
  | [] => ([], [])
  | x :: r =>
      if (x =? c)%N then ([], r)
      else let '(a, b) := split_first c r in (x :: a, b)
  end.

(** [s.replace(c, rep)] for a one-character [c]. *)
Definition replace_char (c : char) (rep : str) (s : str) : str :=
  flat_map (fun x => if (x =? c)%N then rep else [x]) s.

(** Decimal digits of a natural number, as [str(n)] prints them. *)
Fixpoint digits_fuel (fuel : nat) (n : N) (acc : str) : str :=
  match fuel with
  | O => acc
  | S f =>
      let acc' := (48 + n mod 10)%N :: acc in
      if (n <? 10)%N then acc' else digits_fuel f (n / 10)%N acc'
  end.

Definition str_of_N (n : N) : str := digits_fuel (S (N.to_nat (N.log2 n))) n [].

(** [str(z)] for an [int]. *)
Definition str_of_Z (z : Z) : str :=
  match z with
  | Z0 => u "0"
  | Zpos p => str_of_N (Npos p)
  | Zneg p => u "-" ++ str_of_N (Npos p)
  end.

(** [a < b] on [str]: lexicographic on code points, a proper prefix first. *)
Fixpoint str_ltb (a b : str) : bool :=
  match a, b with
  | [], _ :: _ => true
  | x :: a', y :: b' => (x <? y)%N || ((x =? y)%N && str_ltb a' b')
  | _, [] => false
  end.

Definition str_lt (a b : str) : Prop := str_ltb a b = true.
Definition str_le (a b : str) : Prop := str_ltb b a = false.

Global Instance str_le_dec a b : Decision (str_le a b).
Proof. unfold str_le. apply _. Defined.

(* ================================================================== *)
(** ** Exceptions *)

Inductive exn :=
  | TypeError | ValueError | OverflowError | AttributeError
  | KeyError | IndexError | FileNotFoundError | RecursionError
  | OSError | UnicodeDecodeError.

Inductive result (A : Type) :=
  | Ok (a : A)
  | Raise (e : exn).
Arguments Ok {A} a.
Arguments Raise {A} e.

Global Instance result_ret : MRet result := fun A a => Ok a.
Global Instance result_bind : MBind result := fun A B f m =>
  match m with
  | Ok a => f a
  | Raise e => Raise e
  end.

(** A [for] loop over [l] whose body updates the local state [s] and may
    raise. *)
Fixpoint for_loop {S A : Type} (body : S -> A -> result S)
    (l : list A) (s : S) : result S :=
  match l with
  | [] => Ok s
  | x :: r => s' ← body s x; for_loop body r s'
  end.

(* ================================================================== *)
(** ** Python floats

    A [float] is a [spec_float]; the operations below are exact on the
    value [(-1)^s * m * 2^e], whatever the representation. *)

Definition signed (s : bool) (m : positive) : Z :=
  if s then Zneg m else Zpos m.

(** [f == z] for an integer [z]. *)
Definition float_eq_Z (f : spec_float) (z : Z) : bool :=
  match f with
  | S754_zero _ => z =? 0
  | S754_finite s m e =>
      if 0 <=? e then signed s m * 2 ^ e =? z
      else signed s m =? z * 2 ^ (- e)
  | _ => false
  end.

(** [f > 0] *)
Definition float_pos (f : spec_float) : bool :=
  match f with
  | S754_finite false _ _ | S754_infinity false => true
  | _ => false
  end.

(** [int(f)]: truncation toward zero. *)
Definition int_of_float (f : spec_float) : result Z :=
  match f with
  | S754_zero _ => Ok 0
  | S754_nan => Raise ValueError
  | S754_infinity _ => Raise OverflowError
  | S754_finite s m e =>
      if 0 <=? e then Ok (signed s m * 2 ^ e)
      else Ok (Z.quot (signed s m) (2 ^ (- e)))
  end.

(* ================================================================== *)
(** ** Regular-expression substitution

    [re.sub(pattern, repl, s)] scans [s] from the left; where the pattern
    matches, the match is replaced and the scan resumes after it, otherwise
    one character is copied.  [match_at s] is the match of the pattern
    anchored at the head of [s]: the replacement text and what follows the
    match.  None of the patterns of this program matches the empty string. *)

Section ReSub.
Variable match_at : str -> option (str * str).

Fixpoint re_sub_fuel (fuel : nat) (s : str) : str :=
    match fuel with
    | O => s
    | S f =>
        match match_at s with
        | Some (repl, rest) => repl ++ re_sub_fuel f rest
        | None =>
            match s with
            | [] => []
            | c :: r => c :: re_sub_fuel f r
            end
        end
    end.

Definition re_sub (s : str) : str := re_sub_fuel (S (length s)) s.

  (** Does the pattern match somewhere in [s]? *)
Fixpoint re_search (s : str) : bool :=
    match match_at s with
    | Some _ => true
    | None => match s with [] => false | _ :: r => re_search r end
    end.
End ReSub.

(** First occurrence of [needle] in [s]: the text before it and after it. *)
Fixpoint find_sub (needle s : str) : option (str * str) :=
  if startswith needle s then Some ([], drop (length needle) s)
  else match s with
       | [] => None
       | c :: r =>
           match find_sub needle r with
           | Some (a, b) => Some (c :: a, b)
           | None => None
           end
       end.

(* ================================================================== *)
(** ** src/utils/file_utils.py *)

(** [escape_xml_text] *)
Definition escape_xml_text (text : str) : str :=
  match text with
  | [] => text
  | _ =>
      let text := replace_char (ch "&") (u "&amp;") text in
      let text := replace_char (ch "<") (u "&lt;") text in
      let text := replace_char (ch ">") (u "&gt;") text in
      let text := replace_char dquote (u "&quot;") text in
      let text := replace_char (ch "'") (u "&apos;") text in
      text
  end.

(** Case folding of [re.IGNORECASE] for the characters of the tag patterns:
    the ASCII letters, and the four non-ASCII letters that match [i], [s]
    and [k]. *)
Definition ci_fold (c : char) : char :=
  (if (65 <=? c) && (c <=? 90) then c + 32
   else if (c =? 304) || (c =? 305) then 105
   else if c =? 383 then 115
   else if c =? 8490 then 107
   else c)%N.

Fixpoint startswith_ci (p s : str) : bool :=
  match p, s with
  | [], _ => true
  | a :: p', b :: s' => (ci_fold a =? ci_fold b)%N && startswith_ci p' s'
  | _ :: _, [] => false
  end.

(** The three shapes of the patterns of [html_tags]:
    [<name[^>]*>], [<name[^>]*/?>] and [</name>]. *)
Inductive tag_pattern :=
  | TagOpen (name : str)
  | TagOpenSlash (name : str)
  | TagClose (name : str).

(** [<name[^>]*>] anchored at the head of [s]: the greedy class stops at
    the first [>]; without one there is no match. *)
Definition open_tag_match (name s : str) : option (str * str) :=
  if startswith_ci (ch "<" :: name) s then
    match find_sub [ch ">"] (drop (S (length name)) s) with
    | Some (_, rest) => Some ([], rest)
    | None => None
    end
  else None.

(** [tag_match p s]: the match of [p] at the head of [s], replaced by the
    empty string.  In [<name[^>]*/?>] the class may take the slash, so the
    match ends at the first [>] as for [<name[^>]*>]. *)
Definition tag_match (p : tag_pattern) (s : str) : option (str * str) :=
  match p with
  | TagOpen name => open_tag_match name s
  | TagOpenSlash name => open_tag_match name s
  | TagClose name =>
      let pat := u "</" ++ name ++ u ">" in
      if startswith_ci pat s then Some ([], drop (length pat) s) else None
  end.

Definition html_tags : list tag_pattern :=
  [ TagOpen (u "p"); TagClose (u "p");
    TagOpenSlash (u "br");
    TagOpen (u "div"); TagClose (u "div");
    TagOpen (u "span"); TagClose (u "span");
    TagOpen (u "strong"); TagClose (u "strong");
    TagOpen (u "b"); TagClose (u "b");
    TagOpen (u "em"); TagClose (u "em");
    TagOpen (u "i"); TagClose (u "i");
    TagOpen (u "u"); TagClose (u "u");
    TagOpen (u "ul"); TagClose (u "ul");
    TagOpen (u "ol"); TagClose (u "ol");
    TagOpen (u "li"); TagClose (u "li");
    TagOpen (u "table"); TagClose (u "table");
    TagOpen (u "tr"); TagClose (u "tr");
    TagOpen (u "td"); TagClose (u "td");
    TagOpen (u "th"); TagClose (u "th") ].

(** [re.sub(r'\s+', ' ', content)]; [in_ws] tells that the previous
    character belonged to the run being replaced. *)
Fixpoint collapse_ws_aux (in_ws : bool) (s : str) : str :=
  match s with
  | [] => []
  | c :: r =>
      if isspace c then
        if in_ws then collapse_ws_aux true r
        else ch " " :: collapse_ws_aux true r
      else c :: collapse_ws_aux false r
  end.

Definition collapse_ws (s : str) : str := collapse_ws_aux false s.

(** [replace_cdata], on the text of group 1. *)
Definition replace_cdata (content : str) : str :=
  let content :=
    fold_left (fun acc p => re_sub (tag_match p) acc) html_tags content in
  let content := collapse_ws content in
  let content := strip content in
  escape_xml_text content.

(** [<!\[CDATA\[(.*?)\]\]>] with [re.DOTALL], anchored at the head of
    [s]: the lazy group ends at the first [[]]>]. *)
Definition cdata_match (s : str) : option (str * str) :=
  if startswith (u "<![CDATA[") s then
    match find_sub (u "]]>") (drop 9 s) with
    | Some (content, rest) => Some (replace_cdata content, rest)
    | None => None
    end
  else None.

(** [clean_xml_file] *)
Definition clean_xml_file (xml_content : str) : str :=
  match xml_content with
  | [] => xml_content
  | _ => re_sub cdata_match xml_content
  end.

(* ================================================================== *)
(** ** Dictionaries

    A [dict] with string keys, in insertion order. *)

Fixpoint dict_get {V : Type} (k : str) (d : list (str * V)) : option V :=
  match d with
  | [] => None
  | (k', v) :: r => if str_eqb k' k then Some v else dict_get k r
  end.

(** [d[k] = v]: an existing key keeps its position. *)
Fixpoint dict_set {V : Type} (k : str) (v : V) (d : list (str * V))
    : list (str * V) :=
  match d with
  | [] => [(k, v)]
  | (k', v') :: r =>
      if str_eqb k' k then (k, v) :: r else (k', v') :: dict_set k v r
  end.

(** [k in d] *)
Definition dict_mem {V : Type} (k : str) (d : list (str * V)) : bool :=
  match dict_get k d with Some _ => true | None => false end.

(* ================================================================== *)
(** ** xml.etree.ElementTree *)

Module ET.

#[warnings="-register-all"]
Inductive element :=
    | Element (tag : str) (attrib : list (str * str)) (text : option str)
              (children : list element).

Definition tag (e : element) : str :=
    match e with Element t _ _ _ => t end.
Definition attrib (e : element) : list (str * str) :=
    match e with Element _ a _ _ => a end.
Definition text (e : element) : option str :=
    match e with Element _ _ t _ => t end.
Definition children (e : element) : list element :=
    match e with Element _ _ _ c => c end.

  (** [e.get(key, default)] *)
Definition get (e : element) (key default : str) : str :=
    match dict_get key (attrib e) with
    | Some v => v
    | None => default
    end.

  (** [e.iter()]: [e] and its descendants in document order. *)
Fixpoint iter (e : element) : list element :=
    match e with
    | Element _ _ _ cs => e :: flat_map iter cs
    end.

  (** The descendants of [e], without [e]. *)
Definition descendants (e : element) : list element :=
    flat_map iter (children e).

Definition has_tag (t : str) (e : element) : bool := str_eqb (tag e) t.

  (** [e.findall('.//t')] *)
Definition findall (t : str) (e : element) : list element :=
    List.filter (has_tag t) (descendants e).

  (** [e.find('.//t')] *)
Definition find (t : str) (e : element) : option element :=
    head (findall t e).

  (** [e.find('.//a/b')]: the first child [b] of a descendant [a]. *)
Definition find_path (a b : str) (e : element) : option element :=
    head (flat_map (fun d => List.filter (has_tag b) (children d))
                   (findall a e)).

End ET.

(* ================================================================== *)
(** ** src/models *)

Module Question.
  (** [Question], as [Question.from_dict] builds it from the dictionary of
      [_parse_question_element]: an absent key gives the empty list.  The
      three text fields hold [elem.text], which is [None] for an element
      without text. *)
Record t := mk {
    type : str;
    question_text : option str;
    reference_answer : option str;
    name : option str;
    answers : list str;
    correct_answers : list str;
    matching_items : list (str * str);   (* {'item': .., 'answer': ..} *)
    matching_answers : list str
  }.
End Question.

Module Course.
Record t := mk {
    name : str;
    questions : list Question.t
  }.

  (** [add_question] *)
Definition add_question (c : t) (q : Question.t) : t :=
    mk (name c) (questions c ++ [q]).

  (** [__len__] *)
Definition len (c : t) : nat := length (questions c).
End Course.

(* ================================================================== *)
(** ** src/parsers/xml_parser.py *)

Definition CATEGORY_PREFIX : str :=
  u "$module$/top/По умолчанию для Банк вопросов курса Оценочные материалы".

Definition nonempty (s : str) : bool :=
  match s with [] => false | _ :: _ => true end.

(** [elem.text if elem is not None else ''] *)
Definition text_or_empty (o : option ET.element) : option str :=
  match o with
  | Some e => ET.text e
  | None => Some []
  end.

(** [elem.text if elem is not None and elem.text else ''] *)
Definition text_or_blank (o : option ET.element) : str :=
  match o with
  | Some e => match ET.text e with Some t => t | None => [] end
  | None => []
  end.

(** [_extract_course_name] *)
Definition _extract_course_name (category_element : ET.element)
    : option str :=
  match ET.find_path (u "category") (u "text") category_element with
  | None => None
  | Some category_text_elem =>
      match ET.text category_text_elem with
      | None => None
      | Some txt =>
          let category_path := strip txt in
          if negb (startswith CATEGORY_PREFIX category_path) then None
          else
            let relative_path :=
              strip (drop (length CATEGORY_PREFIX) category_path) in
            if negb (nonempty relative_path)
               || negb (startswith (u "/") relative_path) then None
            else
              let relative_path := drop 1 relative_path in
              if negb (nonempty relative_path) then None
              else
                let parts :=
                  List.filter nonempty
                    (map strip (split_char (ch "/") relative_path)) in
                last parts
      end
  end.

(** The file at [xml_file_path], as [parse_courses] meets it: there is no
    such file ([exists()] is false); [open()] or [read()] raises [e]
    (a [PermissionError] or an [IsADirectoryError], which are [OSError]s,
    or a [UnicodeDecodeError]); or the text [xml_content] is read. *)
Inductive file_state :=
  | Missing
  | Unreadable (e : exn)
  | Content (xml_content : str).

Section Parser.

(** [float(s)] on a string; [None] is [ValueError]. *)
Variable py_float : str -> option spec_float.
(** [s.lower()] *)
Variable py_lower : str -> str.
(** [ET.fromstring(s)]; [None] is [ET.ParseError]. *)
Variable fromstring : str -> option ET.element.

(** [float(answer_elem.get('fraction', '0'))] *)
Definition fraction_of (answer_elem : ET.element) : result spec_float :=
  match py_float (ET.get answer_elem (u "fraction") (u "0")) with
  | Some f => Ok f
  | None => Raise ValueError
  end.

(** Body of the [multichoice] loop; the state is
    [(answers, correct_answers)]. *)
Definition multichoice_body (st : list str * list str)
    (answer_elem : ET.element) : result (list str * list str) :=
  let '(answers, correct_answers) := st in
  let answer_text_elem := ET.find (u "text") answer_elem in
  let answer_text := text_or_blank answer_text_elem in
  if nonempty answer_text then
    fraction ← fraction_of answer_elem;
    let answers := answers ++ [answer_text] in
    if negb (float_eq_Z fraction 0)
    then Ok (answers, correct_answers ++ [answer_text])
    else Ok (answers, correct_answers)
  else Ok st.

(** Body of the [matching] loop; the state is
    [(matching_items, answer_set)]. *)
Definition matching_body (st : list (str * str) * gset str)
    (subquestion_elem : ET.element) : list (str * str) * gset str :=
  let '(matching_items, answer_set) := st in
  let subquestion_text_elem := ET.find (u "text") subquestion_elem in
  let matching_item_text := text_or_blank subquestion_text_elem in
  match ET.find (u "answer") subquestion_elem with
  | Some answer_elem =>
      let answer_text_elem := ET.find (u "text") answer_elem in
      let correct_answer := text_or_blank answer_text_elem in
      if nonempty matching_item_text && nonempty correct_answer then
        (matching_items ++ [(matching_item_text, correct_answer)],
         {[ correct_answer ]} ∪ answer_set)
      else st
  | None => st
  end.

(** [sorted(list(answer_set))] *)
Definition sorted_list (answer_set : gset str) : list str :=
  merge_sort str_le (elements answer_set).

(** Body of the [shortanswer] loop; the state is [correct_answers]. *)
Definition shortanswer_body (correct_answers : list str)
    (answer_elem : ET.element) : result (list str) :=
  fraction ← fraction_of answer_elem;
  if negb (float_eq_Z fraction 0) then
    let answer_text := text_or_blank (ET.find (u "text") answer_elem) in
    if nonempty answer_text then Ok (correct_answers ++ [answer_text])
    else Ok correct_answers
  else Ok correct_answers.

Definition Verno : str := u "Верно".
Definition Neverno : str := u "Неверно".

(** Body of the [truefalse] loop; the state is
    [(answer_dict, correct_answers)]. *)
Definition truefalse_body (st : list (str * bool) * list str)
    (answer_elem : ET.element) : result (list (str * bool) * list str) :=
  let '(answer_dict, correct_answers) := st in
  let raw := text_or_blank (ET.find (u "text") answer_elem) in
  if nonempty raw then
    let answer_text := py_lower (strip raw) in
    fraction ← fraction_of answer_elem;
    let russian_answer :=
      if str_eqb answer_text (u "true") then Verno
      else if str_eqb answer_text (u "false") then Neverno
      else answer_text in
    let answer_dict :=
      dict_set russian_answer (float_eq_Z fraction 100) answer_dict in
    if float_eq_Z fraction 100
    then Ok (answer_dict, correct_answers ++ [russian_answer])
    else Ok (answer_dict, correct_answers)
  else Ok st.

(** The ordering of the [truefalse] answers: [Верно], [Неверно], then the
    other keys in insertion order. *)
Definition truefalse_answers (answer_dict : list (str * bool)) : list str :=
  (if dict_mem Verno answer_dict then [Verno] else [])
  ++ (if dict_mem Neverno answer_dict then [Neverno] else [])
  ++ List.filter
       (fun answer => negb (str_eqb answer Verno || str_eqb answer Neverno))
       (map fst answer_dict).

(** [_parse_question_element], followed by [Question.from_dict]. *)
Definition _parse_question_element (question_element : ET.element)
    : result Question.t :=
  let type := ET.get question_element (u "type") [] in
  let question_text :=
    text_or_empty
      (ET.find_path (u "questiontext") (u "text") question_element) in
  let reference_answer :=
    text_or_empty
      (ET.find_path (u "referenceanswer") (u "text") question_element) in
  let name :=
    text_or_empty (ET.find_path (u "name") (u "text") question_element) in
  let answer_elems := ET.findall (u "answer") question_element in
  if str_eqb type (u "multichoice") then
    '(answers, correct_answers) ←
       for_loop multichoice_body answer_elems ([], []);
    Ok (Question.mk type question_text reference_answer name
          answers correct_answers [] [])
  else if str_eqb type (u "matching") then
    let '(matching_items, answer_set) :=
      fold_left matching_body
        (ET.findall (u "subquestion") question_element) ([], ∅) in
    Ok (Question.mk type question_text reference_answer name
          [] [] matching_items (sorted_list answer_set))
  else if str_eqb type (u "shortanswer") then
    correct_answers ← for_loop shortanswer_body answer_elems [];
    let reference_answer :=
      match correct_answers with
      | first :: _ => Some first
      | [] => Some []
      end in
    Ok (Question.mk type question_text reference_answer name
          [] correct_answers [] [])
  else if str_eqb type (u "truefalse") then
    '(answer_dict, correct_answers) ←
       for_loop truefalse_body answer_elems ([], []);
    Ok (Question.mk type question_text reference_answer name
          (truefalse_answers answer_dict) correct_answers [] [])
  else
    Ok (Question.mk type question_text reference_answer name [] [] [] []).

(** The local state of the loop of [parse_courses]. *)
Record walk := mk_walk {
  courses : list Course.t;
  current_course : option Course.t;
  last_category_name : option str
}.

(** [courses.append(current_course)] when there is a course with at least
    one question. *)
Definition flush (st : walk) : list Course.t :=
  match current_course st with
  | Some c => if (0 <? Course.len c)%nat then courses st ++ [c] else courses st
  | None => courses st
  end.

Definition uncategorized : str := u "Без категории".

(** Body of the [while i < len(all_elements)] loop. *)
Definition walk_body (st : walk) (question_elem : ET.element) : result walk :=
  let question_type := ET.get question_elem (u "type") [] in
  if str_eqb question_type (u "category") then
    match _extract_course_name question_elem with
    | Some (c :: r) =>
        Ok (mk_walk (flush st) None (Some (c :: r)))
    | _ => Ok st
    end
  else
    let st :=
      match last_category_name st, current_course st with
      | Some last, None =>
          mk_walk (courses st) (Some (Course.mk last [])) None
      | _, _ => st
      end in
    match current_course st with
    | Some course =>
        question ← _parse_question_element question_elem;
        Ok (mk_walk (courses st) (Some (Course.add_question course question))
              (last_category_name st))
    | None =>
        let course := Course.mk uncategorized [] in
        question ← _parse_question_element question_elem;
        Ok (mk_walk (courses st) (Some (Course.add_question course question))
              (last_category_name st))
    end.

(** The loop of [parse_courses] over [all_elements] and the final flush. *)
Definition group_elements (all_elements : list ET.element)
    : result (list Course.t) :=
  st ← for_loop walk_body all_elements (mk_walk [] None None);
  Ok (flush st).

(** [parse_courses]; [file] is the file at [xml_file_path].  The check of
    [validate_xml_file] only changes what is printed and the text of the
    error message. *)
Definition parse_courses (file : file_state) : result (list Course.t) :=
  match file with
  | Missing => Raise FileNotFoundError
  | Unreadable e => Raise e
  | Content xml_content =>
      let cleaned_xml := clean_xml_file xml_content in
      match fromstring cleaned_xml with
      | None => Raise ValueError
      | Some root => group_elements (ET.findall (u "question") root)
      end
  end.

(** [parse]: the loop [all_questions.extend(course.questions)]. *)
Definition parse (file : file_state) : result (list Question.t) :=
  courses ← parse_courses file;
  Ok (fold_left (fun all_questions course =>
                   all_questions ++ Course.questions course)
                courses []).

End Parser.

(* ================================================================== *)
(** ** Python values of the template engine *)

#[warnings="-register-all"]
Inductive value :=
  | VNone
  | VBool (b : bool)
  | VInt (z : Z)
  | VFloat (f : spec_float)
  | VStr (s : str)
  | VList (l : list value)
  | VDict (d : list (str * value)).

Definition dict := list (str * value).

(** A string literal as a value. *)
Definition VS (s : string) : value := VStr (u s).

(** [bool(v)] *)
Definition truthy (v : value) : bool :=
  match v with
  | VNone => false
  | VBool b => b
  | VInt z => negb (z =? 0)
  | VFloat (S754_zero _) => false
  | VFloat _ => true
  | VStr s => nonempty s
  | VList l => match l with [] => false | _ => true end
  | VDict d => match d with [] => false | _ => true end
  end.

(** [v or w] *)
Definition py_or (v w : value) : value := if truthy v then v else w.

(** [d.get(k)] *)
Definition get (d : dict) (k : string) : value :=
  match dict_get (u k) d with
  | Some v => v
  | None => VNone
  end.

(** [d.get(k, default)] *)
Definition get_default (d : dict) (k : string) (default : value) : value :=
  match dict_get (u k) d with
  | Some v => v
  | None => default
  end.

(** [d.get(k, '')] for a computed key [k]. *)
Definition get_default_str (d : dict) (k : str) : value :=
  match dict_get k d with
  | Some v => v
  | None => VStr []
  end.

(** [isinstance(v, int)]: [bool] is a subclass of [int]. *)
Definition is_int (v : value) : bool :=
  match v with VInt _ | VBool _ => true | _ => false end.

(** The integer that an [int] (or [bool]) holds. *)
Definition int_value (v : value) : option Z :=
  match v with
  | VInt z => Some z
  | VBool b => Some (if b then 1 else 0)
  | _ => None
  end.

(** [isinstance(v, (int, float))] *)
Definition is_number (v : value) : bool :=
  match v with VInt _ | VBool _ | VFloat _ => true | _ => false end.

(** [v == z] for an integer literal [z]. *)
Definition eq_int (v : value) (z : Z) : bool :=
  match v with
  | VInt n => n =? z
  | VBool b => (if b then 1 else 0) =? z
  | VFloat f => float_eq_Z f z
  | _ => false
  end.

(** [v == s] for a string literal [s]. *)
Definition eq_str (v : value) (s : string) : bool :=
  match v with
  | VStr t => str_eqb t (u s)
  | _ => false
  end.

(** Lists and dictionaries are not hashable. *)
Definition hashable (v : value) : bool :=
  match v with
  | VList _ | VDict _ => false
  | _ => true
  end.

(** [v in {s1, s2, ...}] for a set of string literals: hashing [v] raises
    [TypeError] when [v] is a list or a dictionary. *)
Definition in_literals (v : value) (set : list string) : result bool :=
  if hashable v then Ok (existsb (eq_str v) set) else Raise TypeError.

(** [len(v)] *)
Definition py_len (v : value) : result nat :=
  match v with
  | VStr s => Ok (length s)
  | VList l => Ok (length l)
  | VDict d => Ok (length d)
  | _ => Raise TypeError
  end.

(** The elements that [for x in v] visits. *)
Definition py_iter (v : value) : result (list value) :=
  match v with
  | VList l => Ok l
  | VStr s => Ok (map (fun c => VStr [c]) s)
  | VDict d => Ok (map (fun kv => VStr (fst kv)) d)
  | _ => Raise TypeError
  end.

(** [set(v)]: the elements of [v], all of them hashable. *)
Definition py_set (v : value) : result (list value) :=
  l ← py_iter v;
  if forallb hashable l then Ok l else Raise TypeError.

(** [s in c] for a string [s] and the elements [c] of a set: a string is
    equal to strings only. *)
Definition str_in (s : str) (c : list value) : bool :=
  existsb (fun v => match v with VStr t => str_eqb s t | _ => false end) c.

(* ================================================================== *)
(** ** src/template_engine/presets.py *)

Definition default_styles : value :=
  VDict [ (u "header_color", VS "#C00000"); (u "title_size", VInt 22);
          (u "header_size", VInt 16); (u "body_size", VInt 14);
          (u "answer_size", VInt 12) ].

Definition line_block (pattern : string) : value :=
  VDict [ (u "kind", VS "line"); (u "pattern", VS pattern) ].

Definition spacer_block (mm : Z) : value :=
  VDict [ (u "kind", VS "spacer"); (u "mm", VInt mm) ].

Definition table_block (source : string) (headers cols : list str)
    (col_widths_pct : list Z) : value :=
  VDict [ (u "kind", VS "table"); (u "source", VS source);
          (u "headers", VList (map VStr headers));
          (u "cols", VList (map VStr cols));
          (u "col_widths_pct", VList (map VInt col_widths_pct)) ].

Definition preset (blocks : list value) : dict :=
  [ (u "version", VInt 2); (u "styles", default_styles);
    (u "blocks", VList blocks) ].

(** [preset_table_default] *)
Definition preset_table_default (question_type : str) : dict :=
  if str_eqb question_type (u "matching") then
    preset
      [ line_block "{{task.header}}";
        line_block "{{question.question_text}}";
        spacer_block 2;
        table_block "matching_pairs"
          [u "№"; []; u "Элемент"; u "Правильный ответ"]
          [[]; []; u "{{item.item}}"; u "{{item.answer}}"]
          [10; 25; 35; 30] ]
  else if str_eqb question_type (u "multichoice")
          || str_eqb question_type (u "truefalse") then
    preset
      [ line_block "{{task.header}}";
        line_block "{{question.question_text}}";
        spacer_block 2;
        table_block "answers_all"
          [u "№"; u "Варианты ответа"; u "Правильный ответ"]
          [[]; u "{{item}}"; u "{{item|if_correct}}"]
          [10; 45; 45] ]
  else if str_eqb question_type (u "shortanswer") then
    preset
      [ line_block "{{task.header}}";
        line_block "{{question.question_text}}";
        spacer_block 2;
        table_block "answers_correct"
          [u "№"; []; u "Ответ"]
          [[]; []; u "{{item}}"]
          [10; 10; 80] ]
  else
    preset
      [ line_block "{{task.header}}";
        line_block "{{question.question_text}}";
        spacer_block 2;
        line_block "Эталон: {{question.reference_answer}}" ].

(** [preset_dash_answer] *)
Definition preset_dash_answer (question_type : str) : dict :=
  let answer_expr := u "{{question.reference_answer}}" in
  let answer_expr :=
    if str_eqb question_type (u "multichoice")
       || str_eqb question_type (u "truefalse")
    then u "{{question.correct_join}}" else answer_expr in
  let answer_expr :=
    if str_eqb question_type (u "shortanswer")
    then u "{{question.correct_join}}" else answer_expr in
  let answer_expr :=
    if str_eqb question_type (u "matching")
    then u "{{question.matching_join}}" else answer_expr in
  preset
    [ line_block "{{task.header}}";
      VDict [ (u "kind", VS "line");
              (u "pattern",
               VStr (u "{{question.question_text}} — " ++ answer_expr)) ] ].

Section Template.

(** [repr(v)] of a float, a list or a dictionary. *)
Variable py_repr : value -> str.

(** [str(v)], which is also how an f-string formats [v]. *)
Definition py_str (v : value) : str :=
  match v with
  | VStr s => s
  | VNone => u "None"
  | VBool true => u "True"
  | VBool false => u "False"
  | VInt z => str_of_Z z
  | _ => py_repr v
  end.

(** [int(s)] of a string: the integer that the text denotes, [None] when
    [int] raises [ValueError]. *)
Variable int_of_str : str -> option Z.

(** [int(v)]: a number is truncated toward zero, a string is converted,
    anything else is a [TypeError]. *)
Definition py_int (v : value) : result Z :=
  match v with
  | VInt z => Ok z
  | VBool b => Ok (if b then 1 else 0)
  | VFloat f => int_of_float f
  | VStr s =>
      match int_of_str s with
      | Some z => Ok z
      | None => Raise ValueError
      end
  | VNone | VList _ | VDict _ => Raise TypeError
  end.

(* ================================================================== *)
(** ** src/template_engine/validator.py *)

Definition sources : list string :=
  ["answers_all"; "answers_correct"; "matching_pairs"]%string.

Definition kinds : list string := ["line"; "list"; "table"; "spacer"]%string.

(** [f"blocks[{i}]" + msg] *)
Definition block_error (i : nat) (msg : string) : str :=
  u "blocks[" ++ str_of_Z (Z.of_nat i) ++ u "]" ++ u msg.

(** [not isinstance(b.get("pattern"), str) or not b["pattern"].strip()] *)
Definition pattern_missing (b : dict) : bool :=
  match get b "pattern" with
  | VStr p => negb (nonempty (strip p))
  | _ => true
  end.

(** [isinstance(c, str) and c.strip()] *)
Definition nonblank_str (c : value) : bool :=
  match c with
  | VStr s => nonempty (strip s)
  | _ => false
  end.

(** The checks of a [table] block after its [source]. *)
Definition validate_table (i : nat) (b : dict) (errors : list str)
    : result (list str) :=
  let cols := get b "cols" in
  let errors :=
    match cols with
    | VList (c :: cs) =>
        if negb (forallb nonblank_str (c :: cs))
        then errors ++ [block_error i ".cols must contain non-empty strings"]
        else errors
    | _ => errors ++ [block_error i ".cols must be a non-empty list"]
    end in
  let headers := get b "headers" in
  errors ←
    match headers with
    | VNone => Ok errors
    | VList hs =>
        if truthy cols then
          n ← py_len cols;
          if negb (length hs =? n)%nat
          then Ok (errors ++ [block_error i ".headers must match cols length"])
          else Ok errors
        else Ok errors
    | _ => Ok (errors ++ [block_error i ".headers must match cols length"])
    end;
  let widths := get b "col_widths_pct" in
  match widths with
  | VNone => Ok errors
  | VList ws =>
      if negb (forallb is_int ws)
      then Ok (errors ++ [block_error i ".col_widths_pct must be list[int]"])
      else Ok errors
  | _ => Ok (errors ++ [block_error i ".col_widths_pct must be list[int]"])
  end.

(** Body of [for i, b in enumerate(blocks)]; the state is [errors]. *)
Definition validate_block (errors : list str) (ib : nat * value)
    : result (list str) :=
  let '(i, b) := ib in
  match b with
  | VDict b =>
      let kind := get b "kind" in
      known ← in_literals kind kinds;
      if negb known then
        Ok (errors ++ [block_error i ".kind invalid: " ++ py_str kind])
      else if eq_str kind "line" then
        if pattern_missing b
        then Ok (errors ++ [block_error i ".pattern is required"])
        else Ok errors
      else if eq_str kind "spacer" then
        let mm := get_default b "mm" (VInt 4) in
        match int_value mm with
        | Some n =>
            if (n <? 0) || (50 <? n)
            then Ok (errors ++ [block_error i ".mm must be int 0..50"])
            else Ok errors
        | None => Ok (errors ++ [block_error i ".mm must be int 0..50"])
        end
      else if eq_str kind "list" then
        ok ← in_literals (get b "source") sources;
        let errors :=
          if negb ok then errors ++ [block_error i ".source invalid"]
          else errors in
        if pattern_missing b
        then Ok (errors ++ [block_error i ".pattern is required"])
        else Ok errors
      else if eq_str kind "table" then
        ok ← in_literals (get b "source") sources;
        let errors :=
          if negb ok then errors ++ [block_error i ".source invalid"]
          else errors in
        validate_table i b errors
      else Ok errors
  | _ => Ok (errors ++ [block_error i " must be an object"])
  end.

(** [enumerate(l)] *)
Definition enumerate {A : Type} (l : list A) : list (nat * A) :=
  combine (seq 0 (length l)) l.

(** [validate_template_config_v2] *)
Definition validate_template_config_v2 (cfg : value) : result (list str) :=
  match cfg with
  | VDict cfg =>
      let errors :=
        if negb (eq_int (get cfg "version") 2)
        then [u "config.version must be 2"] else [] in
      let styles := get_default cfg "styles" (VDict []) in
      let errors :=
        match styles with
        | VNone | VDict _ => errors
        | _ => errors ++ [u "config.styles must be an object"]
        end in
      match get cfg "blocks" with
      | VList (b :: bs) =>
          for_loop validate_block (enumerate (b :: bs)) errors
      | _ => Ok (errors ++ [u "config.blocks must be a non-empty list"])
      end
  | _ => Ok [u "config is not an object"]
  end.

(* ================================================================== *)
(** ** src/template_engine/migration.py *)

(** [d if isinstance(d, dict) else {}] *)
Definition dict_or_empty (v : value) : dict :=
  match v with
  | VDict d => d
  | _ => []
  end.

(** Body of the loop over the four size keys; the state is [styles]. *)
Definition migrate_size (v1_styles : dict) (styles : dict) (key : string)
    : result dict :=
  let v := get v1_styles key in
  if is_number v then
    n ← py_int v;
    Ok (dict_set (u key) (VInt n) styles)
  else Ok styles.

(** [[int(x) for x in tc]] *)
Fixpoint ints_of (tc : list value) : result (list Z) :=
  match tc with
  | [] => Ok []
  | x :: r => n ← py_int x; ns ← ints_of r; Ok (n :: ns)
  end.

(** The loop that sets [col_widths_pct] on the first [table] block and
    stops. *)
Fixpoint set_first_table (table_cols : value) (blocks : list value)
    : list value :=
  match blocks with
  | [] => []
  | b :: rest =>
      match b with
      | VDict bd =>
          if eq_str (get bd "kind") "table"
          then VDict (dict_set (u "col_widths_pct") table_cols bd) :: rest
          else b :: set_first_table table_cols rest
      | _ => b :: set_first_table table_cols rest
      end
  end.

(** [migrate_v1_to_v2] *)
Definition migrate_v1_to_v2 (v1 : dict) (question_type : str) : result dict :=
  let v2 := preset_table_default question_type in
  let styles := dict_or_empty (get_default v2 "styles" (VDict [])) in
  let v1_styles := dict_or_empty (get v1 "styles") in
  let styles :=
    match get v1_styles "header_color" with
    | VStr c => dict_set (u "header_color") (VStr c) styles
    | _ => styles
    end in
  styles ←
    for_loop (migrate_size v1_styles)
      ["title_size"; "header_size"; "body_size"; "answer_size"]%string
      styles;
  let v2 := dict_set (u "styles") (VDict styles) v2 in
  let layout := dict_or_empty (get v1 "layout") in
  table_cols ←
    match dict_get question_type layout with
    | Some (VDict l) =>
        match get l "table_cols_pct" with
        | VList tc =>
            if forallb is_number tc then
              ns ← ints_of tc; Ok (Some ns)
            else Ok None
        | _ => Ok None
        end
    | _ => Ok None
    end;
  match table_cols with
  | Some (n :: ns) =>
      match get_default v2 "blocks" (VList []) with
      | VList blocks =>
          Ok (dict_set (u "blocks")
                (VList (set_first_table (VList (map VInt (n :: ns))) blocks))
                v2)
      | _ => Ok v2
      end
  | _ => Ok v2
  end.

(* ================================================================== *)
(** ** src/template_engine/render_html.py *)

(** [html.escape(s, quote=True)] *)
Definition html_escape (s : str) : str :=
  let s := replace_char (ch "&") (u "&amp;") s in
  let s := replace_char (ch "<") (u "&lt;") s in
  let s := replace_char (ch ">") (u "&gt;") s in
  let s := replace_char dquote (u "&quot;") s in
  let s := replace_char (ch "'") (u "&#x27;") s in
  s.

(** [_esc] *)
Definition _esc (v : value) : str :=
  html_escape (match v with VNone => [] | _ => py_str v end).

(** [f"{p.get('item','')}→{p.get('answer','')}"] for the dictionaries of
    [matching_pairs]. *)
Definition pair_arrow (p : value) : list str :=
  match p with
  | VDict p =>
      [ py_str (get_default p "item" (VStr [])) ++ u "→"
        ++ py_str (get_default p "answer" (VStr [])) ]
  | _ => []
  end.

(** [{**question, k: v}] *)
Definition with_key (k : string) (v : value) (d : dict) : dict :=
  dict_set (u k) v d.

(** [_get_question_view] *)
Definition _get_question_view (question : dict) : result dict :=
  correct ← py_iter (py_or (get question "correct_answers") (VList []));
  matching_pairs ←
    py_iter (py_or (get question "matching_items") (VList []));
  Ok (with_key "matching_join"
        (VStr (join (u "; ") (flat_map pair_arrow matching_pairs)))
        (with_key "correct_join"
           (VStr (join (u "; ") (map py_str correct)))
           question)).

(** The context of the evaluator: [ctx["question"]], [ctx["metadata"]]
    and [ctx["task_header"]]. *)
Record context := mk_context {
  ctx_question : dict;
  ctx_metadata : dict;
  ctx_task_header : str
}.

(** [set(ctx["question"].get("correct_answers") or [])] *)
Definition correct_set (ctx : context) : result (list value) :=
  py_set (py_or (get (ctx_question ctx) "correct_answers") (VList [])).

(** [str(d.get(key) or '')] when [key in d], else the empty string. *)
Definition lookup (d : dict) (key : str) : str :=
  match dict_get key d with
  | None => []
  | Some v => py_str (py_or v (VStr []))
  end.

(** The part of [_eval_pipe] after the pipe test: [expr] is stripped and
    has no pipe. *)
Definition eval_base (expr : str) (ctx : context) (item : value) : str :=
  if startswith (u "question.") expr then
    lookup (ctx_question ctx) (drop (length (u "question.")) expr)
  else if startswith (u "metadata.") expr then
    lookup (ctx_metadata ctx) (drop (length (u "metadata.")) expr)
  else if str_eqb expr (u "task.header") then
    py_str (py_or (VStr (ctx_task_header ctx)) (VStr []))
  else if str_eqb expr (u "item") then
    match item with
    | VNone => []
    | _ => py_str item
    end
  else
    match item with
    | VDict d =>
        if startswith (u "item.") expr then
          py_str (py_or (get_default_str d (drop (length (u "item.")) expr))
                        (VStr []))
        else []
    | _ => []
    end.

(** [_eval_pipe]; [fuel] bounds the depth of the recursion. *)
Fixpoint eval_pipe_fuel (fuel : nat) (expr : str) (ctx : context)
    (item : value) : result str :=
  match fuel with
  | O => Raise RecursionError
  | S fuel =>
      let expr := strip expr in
      if existsb (N.eqb (ch "|")) expr then
        let '(base, op) := split_first (ch "|") expr in
        let base := strip base in
        let op := strip op in
        if str_eqb op (u "is_correct") then
          val ← eval_pipe_fuel fuel base ctx item;
          correct ← correct_set ctx;
          Ok (if str_in val correct then u "+" else [])
        else if str_eqb op (u "if_correct") then
          val ← eval_pipe_fuel fuel base ctx item;
          correct ← correct_set ctx;
          Ok (if str_in val correct then val else [])
        else eval_pipe_fuel fuel base ctx item
      else Ok (eval_base expr ctx item)
  end.

Definition _eval_pipe (expr : str) (ctx : context) (item : value)
    : result str :=
  eval_pipe_fuel (S (length expr)) expr ctx item.

(** The group of [_EXPR_RE], for the text [body] between the braces:
    [\s*([^}]+?)\s*] gives the stripped text, and the last character of a
    text made of spaces only. *)
Definition expr_group (body : str) : str :=
  match strip body with
  | [] => match last body with Some c => [c] | None => [] end
  | g => g
  end.

Definition not_rbrace (c : char) : bool := negb (c =? ch "}")%N.

(** [_EXPR_RE], anchored at the head of [s]: the group and what follows
    the match.  The class [[^}]] stops at the first closing brace, which
    has to begin the two closing braces. *)
Definition expr_match (s : str) : option (str * str) :=
  if startswith (u "{{") s then
    let r := drop 2 s in
    let body := take_while not_rbrace r in
    let after := drop (length body) r in
    if nonempty body && startswith (u "}}") after
    then Some (expr_group body, drop 2 after)
    else None
  else None.

(** [_EXPR_RE.sub(repl, s)] for a replacement function that may raise. *)
Fixpoint expr_sub_fuel (repl : str -> result str) (fuel : nat) (s : str)
    : result str :=
  match fuel with
  | O => Ok s
  | S f =>
      match expr_match s with
      | Some (group, rest) =>
          out ← repl group;
          tail ← expr_sub_fuel repl f rest;
          Ok (out ++ tail)
      | None =>
          match s with
          | [] => Ok []
          | c :: r => tail ← expr_sub_fuel repl f r; Ok (c :: tail)
          end
      end
  end.

(** [_render_pattern]; a pattern that is not a string makes [re] raise. *)
Definition _render_pattern (pattern : value) (ctx : context) (item : value)
    : result str :=
  match pattern with
  | VStr p =>
      expr_sub_fuel
        (fun group => v ← _eval_pipe group ctx item; Ok (_esc (VStr v)))
        (S (length p)) p
  | _ => Raise TypeError
  end.

(** The comprehension [f(x) for x in l], for an [f] that may raise. *)
Fixpoint map_result {A B : Type} (f : A -> result B) (l : list A)
    : result (list B) :=
  match l with
  | [] => Ok []
  | x :: r => y ← f x; ys ← map_result f r; Ok (y :: ys)
  end.

(** [v[i]] for a natural number [i]. *)
Definition py_index (v : value) (i : nat) : result value :=
  match v with
  | VList l => match l !! i with Some x => Ok x | None => Raise IndexError end
  | VStr s =>
      match s !! i with Some c => Ok (VStr [c]) | None => Raise IndexError end
  | VDict _ => Raise KeyError
  | _ => Raise TypeError
  end.

(** The items of a [list] or [table] block. *)
Definition items_of (question : dict) (source : value) : value :=
  if eq_str source "answers_all"
  then py_or (get question "answers") (VList [])
  else if eq_str source "answers_correct"
  then py_or (get question "correct_answers") (VList [])
  else if eq_str source "matching_pairs"
  then py_or (get question "matching_items") (VList [])
  else VList [].

(** The [list] branch of the loop. *)
Definition render_list (b : dict) (ctx : context) (question : dict)
    : result str :=
  let source := get b "source" in
  let pattern := get_default b "pattern" (VS "{{item}}") in
  let bullet := truthy (get_default b "bullet" (VBool true)) in
  let items := items_of question source in
  let tag := if bullet then u "ul" else u "ol" in
  xs ← py_iter items;
  lis ← map_result
          (fun x =>
             r ← _render_pattern pattern ctx x;
             Ok (u "<li>" ++ r ++ u "</li>"))
          xs;
  let lis := match concat lis with [] => u "<li></li>" | s => s end in
  Ok (u "<" ++ tag ++ u ">" ++ lis ++ u "</" ++ tag ++ u ">").

(** [width_style]: one style per column. *)
Definition width_style_of (widths : value) (col_count : nat)
    : result (list str) :=
  if truthy widths then
    n ← py_len widths;
    if (n =? col_count)%nat then
      ws ← py_iter widths;
      map_result
        (fun w => k ← py_int w; Ok (u "width:" ++ str_of_Z k ++ u "%"))
        ws
    else Ok (replicate col_count [])
  else Ok (replicate col_count []).

(** [width_style[i]] *)
Definition style_at (width_style : list str) (i : nat) : result str :=
  match width_style !! i with
  | Some s => Ok s
  | None => Raise IndexError
  end.

(** The [table] branch of the loop. *)
Definition render_table (b : dict) (ctx : context) (question : dict)
    : result str :=
  let source := get b "source" in
  let headers := py_or (get b "headers") (VList []) in
  let cols := py_or (get b "cols") (VList []) in
  let widths := py_or (get b "col_widths_pct") (VList []) in
  let items := items_of question source in
  col_count ← py_len cols;
  width_style ← width_style_of widths col_count;
  head_html ←
    (if truthy headers then
       n ← py_len headers;
       if (n =? col_count)%nat then
         ths ← map_result
                 (fun i =>
                    st ← style_at width_style i;
                    h ← py_index headers i;
                    Ok (u "<th style='" ++ _esc (VStr st) ++ u "'>"
                        ++ _esc h ++ u "</th>"))
                 (seq 0 col_count);
         Ok (u "<thead><tr>" ++ concat ths ++ u "</tr></thead>")
       else Ok []
     else Ok []);
  its ← py_iter (py_or items (VList [VNone]));
  rows_html ←
    map_result
      (fun it =>
         tds ← map_result
                 (fun i =>
                    st ← style_at width_style i;
                    c ← py_index cols i;
                    r ← _render_pattern c ctx it;
                    Ok (u "<td style='" ++ _esc (VStr st) ++ u "'>"
                        ++ r ++ u "</td>"))
                 (seq 0 col_count);
         Ok (u "<tr>" ++ concat tds ++ u "</tr>"))
      its;
  Ok (u "<table>" ++ head_html ++ u "<tbody>" ++ concat rows_html
      ++ u "</tbody></table>").

(** Body of [for b in blocks]; the state is [out]. *)
Definition render_block (ctx : context) (question : dict) (out : list str)
    (b : value) : result (list str) :=
  match b with
  | VDict b =>
      let kind := get b "kind" in
      if eq_str kind "line" then
        r ← _render_pattern (get_default b "pattern" (VStr [])) ctx VNone;
        Ok (out ++ [u "<div class='line'>" ++ r ++ u "</div>"])
      else if eq_str kind "spacer" then
        mm ← py_int (get_default b "mm" (VInt 4));
        Ok (out ++ [u "<div style='height:" ++ str_of_Z mm ++ u "mm'></div>"])
      else if eq_str kind "list" then
        r ← render_list b ctx question; Ok (out ++ [r])
      else if eq_str kind "table" then
        r ← render_table b ctx question; Ok (out ++ [r])
      else Ok out
  | _ => Raise AttributeError
  end.

(** [f"- Задание {task_number} (...)"] *)
Definition task_header_of (metadata : dict) (task_number : Z) : str :=
  u "- Задание " ++ str_of_Z task_number ++ u " ("
  ++ py_str (get_default metadata "pk_prefix" (VS "ПК")) ++ u "-"
  ++ py_str (get_default metadata "pk_id" (VStr [])) ++ u " – "
  ++ py_str (get_default metadata "ipk_prefix" (VS "ИПК")) ++ u "-"
  ++ py_str (get_default metadata "ipk_id" (VStr [])) ++ u " "
  ++ py_str (get_default metadata "description" (VStr [])) ++ u ")".

(** The list [out] of [render_question_html] for a configuration that
    passed validation. *)
Definition render_nodes (cfg : value) (question metadata : dict)
    (task_number : Z) : result (list str) :=
  qv ← _get_question_view question;
  let task_header := task_header_of metadata task_number in
  let ctx := mk_context qv metadata task_header in
  match cfg with
  | VDict cfg =>
      blocks ← py_iter (py_or (get cfg "blocks") (VList []));
      for_loop (render_block ctx question) blocks []
  | _ => Raise AttributeError
  end.

(** The single node of a configuration that failed validation. *)
Definition template_error (errors : list str) : str :=
  u "<div class='muted'>Template error: "
  ++ _esc (VStr (join (u "; ") errors)) ++ u "</div>".

(** [render_question_html] *)
Definition render_question_html (cfg : value) (question metadata : dict)
    (task_number : Z) : result str :=
  errors ← validate_template_config_v2 cfg;
  match errors with
  | _ :: _ => Ok (template_error errors)
  | [] =>
      out ← render_nodes cfg question metadata task_number;
      Ok (join newline out)
  end.

End Template.

(* ================================================================== *)
(** ** Instances of the builtins for the examples

    They agree with Python on the inputs of the examples below: decimal
    integer literals for [float()] and [int()], ASCII letters for
    [str.lower()]; no
    example prints a float, a list or a dictionary. *)

Fixpoint digits_value (acc : N) (s : str) : option N :=
  match s with
  | [] => Some acc
  | c :: r =>
      if ((48 <=? c) && (c <=? 57))%N
      then digits_value (acc * 10 + (c - 48))%N r
      else None
  end.

Definition float_of_N (neg : bool) (n : N) : spec_float :=
  match n with
  | N0 => S754_zero neg
  | Npos p => S754_finite neg p 0
  end.

(** [float(s)] for [s] an optional minus sign and decimal digits. *)
Definition float_of_int_literal (s : str) : option spec_float :=
  match s with
  | [] => None
  | c :: r =>
      if (c =? ch "-")%N then
        match r with
        | [] => None
        | _ => fmap (float_of_N true) (digits_value 0 r)
        end
      else fmap (float_of_N false) (digits_value 0 s)
  end.

(** [int(s)] for [s] an optional minus sign and decimal digits. *)
Definition int_of_decimal_literal (s : str) : option Z :=
  match s with
  | [] => None
  | c :: r =>
      if (c =? ch "-")%N then
        match r with
        | [] => None
        | _ => fmap (fun n => (- Z.of_N n)%Z) (digits_value 0 r)
        end
      else fmap Z.of_N (digits_value 0 s)
  end.

(** [s.lower()] on ASCII letters. *)
Definition ascii_lower (s : str) : str :=
  map (fun c => if ((65 <=? c) && (c <=? 90))%N then (c + 32)%N else c) s.

(** A [repr] for examples that print no float, list or dictionary. *)
Definition repr_unused (v : value) : str := [].

(* ================================================================== *)
(** ** Definitions used by the statements *)

(** The sample question and metadata of [tests/test_template_v2.py]. *)
Definition sample_question (question_type : string) : dict :=
  [ (u "type", VS question_type); (u "question_text", VS "Q?");
    (u "reference_answer", VS "A"); (u "correct_answers", VList []);
    (u "answers", VList []) ].

Definition sample_metadata : dict :=
  [ (u "pk_prefix", VS "ПК"); (u "pk_id", VS "1.3");
    (u "ipk_prefix", VS "ИПК"); (u "ipk_id", VS "1.3.3");
    (u "description", VS "desc") ].

(** The error that the validator reports for the fourth block. *)
Definition blank_cols_error : str :=
  u "blocks[3].cols must contain non-empty strings".

(** [d] without the key [k]. *)
Definition dict_del (k : string) (d : dict) : dict :=
  List.filter (fun kv => negb (str_eqb (fst kv) (u k))) d.

(** [len(cols)] of a table block, as [render_table] computes it. *)
Definition col_count (b : dict) : result nat :=
  py_len (py_or (get b "cols") (VList [])).

(** [f"width:{int(w)}%"] *)
Definition width_css (int_of_str : str -> option Z) (w : value)
    : result str :=
  k ← py_int int_of_str w; Ok (u "width:" ++ str_of_Z k ++ u "%").

(** The header cell and the body cell of column [i], with the style
    [st] of the column. *)
Definition th_cell (st h : str) : str :=
  u "<th style='" ++ html_escape st ++ u "'>" ++ h ++ u "</th>".

Definition td_cell (st r : str) : str :=
  u "<td style='" ++ html_escape st ++ u "'>" ++ r ++ u "</td>".

(** A table written out column by column, with the style [styles[i]] on
    every cell of column [i]: a header row when [headers] is not empty and
    as long as [cols], then one row per element of [items], or a single
    row for [None] when [items] is empty. *)
Definition table_with_styles (py_repr : value -> str) (styles : list str)
    (headers cols : list value) (items : value) (ctx : context)
    : result str :=
  let head_html :=
    match headers with
    | [] => []
    | _ :: _ =>
        if (length headers =? length cols)%nat
        then u "<thead><tr>"
             ++ concat (map (fun sh =>
                               th_cell (fst sh) (_esc py_repr (snd sh)))
                          (zip styles headers))
             ++ u "</tr></thead>"
        else []
    end in
  its ← py_iter (py_or items (VList [VNone]));
  rows_html ←
    map_result
      (fun it =>
         tds ← map_result
                 (fun sc =>
                    r ← _render_pattern py_repr (snd sc) ctx it;
                    Ok (td_cell (fst sc) r))
                 (zip styles cols);
         Ok (u "<tr>" ++ concat tds ++ u "</tr>"))
      its;
  Ok (u "<table>" ++ head_html ++ u "<tbody>" ++ concat rows_html
      ++ u "</tbody></table>").

(** A table block over [answers_all] with two columns and the given
    [col_widths_pct]. *)
Definition two_col_table (widths : list Z) : dict :=
  [ (u "kind", VS "table"); (u "source", VS "answers_all");
    (u "cols", VList [VS "{{item}}"; VS "{{item|is_correct}}"]);
    (u "col_widths_pct", VList (map VInt widths)) ].

(** The same block with a header row. *)
Definition headed_table (widths : list Z) : dict :=
  (u "headers", VList [VS "Answer"; VS "Correct"]) :: two_col_table widths.

(** A question with three answers, two of them correct. *)
Definition three_answers : dict :=
  [ (u "answers", VList [VS "2"; VS "3"; VS "4"]);
    (u "correct_answers", VList [VS "2"; VS "3"]) ].

(** The pipe test of [_eval_pipe]: ['|' in expr]. *)
Definition has_pipe (expr : str) : bool := existsb (N.eqb (ch "|")) expr.

(** The stripped, pipe-free expressions that [_eval_pipe] cannot resolve
    in the context [ctx] with the loop element [item] ([VNone] outside a
    list or table loop). *)
Inductive unresolved (ctx : context) (item : value) : str -> Prop :=
  | unknown_base_form (e : str) :
      startswith (u "question.") e = false ->
      startswith (u "metadata.") e = false ->
      e <> u "task.header" ->
      e <> u "item" ->
      startswith (u "item.") e = false ->
      unresolved ctx item e
  | missing_question_field (key : str) :
      dict_get key (ctx_question ctx) = None ->
      unresolved ctx item (u "question." ++ key)
  | missing_metadata_field (key : str) :
      dict_get key (ctx_metadata ctx) = None ->
      unresolved ctx item (u "metadata." ++ key)
  | missing_item_field (key : str) (d : dict) :
      item = VDict d ->
      dict_get key d = None ->
      unresolved ctx item (u "item." ++ key)
  | item_outside_loop :
      item = VNone ->
      unresolved ctx item (u "item")
  | item_field_of_non_dict (key : str) :
      (forall d, item <> VDict d) ->
      unresolved ctx item (u "item." ++ key).

(** A question whose only correct answer is the empty string, as the
    [truefalse] extractor produces for an answer text made of spaces with
    fraction 100. *)
Definition blank_correct_question : dict :=
  [ (u "correct_answers", VList [VStr []]) ].

(** A question whose [correct_answers] holds a list. *)
Definition nested_correct_question : dict :=
  [ (u "correct_answers", VList [VList [VS "a"]]) ].

(** The rule that makes an answer correct: fraction exactly 100 for
    [truefalse], fraction different from 0 for [multichoice]. *)
Definition counts_as_correct (type : str) (f : spec_float) : bool :=
  if str_eqb type (u "truefalse") then float_eq_Z f 100
  else negb (float_eq_Z f 0).

(** An answer element with a non-empty text whose fraction makes it
    correct. *)
Definition credited (py_float : str -> option spec_float) (type : str)
    (answer_elem : ET.element) : Prop :=
  nonempty (text_or_blank (ET.find (u "text") answer_elem)) = true
  /\ exists f, fraction_of py_float answer_elem = Ok f
               /\ counts_as_correct type f = true.

(** An answer element whose fraction is positive. *)
Definition positive_fraction (py_float : str -> option spec_float)
    (answer_elem : ET.element) : Prop :=
  exists f, fraction_of py_float answer_elem = Ok f /\ float_pos f = true.

(** [<text>t</text>] *)
Definition text_elem (t : string) : ET.element :=
  ET.Element (u "text") [] (Some (u t)) [].

(** [<answer fraction="f"><text>t</text></answer>] *)
Definition answer_elem_of (fraction t : string) : ET.element :=
  ET.Element (u "answer") [(u "fraction", u fraction)] None [text_elem t].

(** A [truefalse] question whose answer [true] has fraction 50. *)
Definition half_credit_truefalse : ET.element :=
  ET.Element (u "question") [(u "type", u "truefalse")] None
    [ answer_elem_of "50" "true"; answer_elem_of "0" "false" ].

(** An input in which the text around a CDATA block closes a second one. *)
Definition nested_cdata : str := u "<<![CDATA[![CDATA[]]>x]]>".

(** [s.endswith(p)] *)
Definition endswith (p s : str) : bool := startswith (rev p) (rev s).

(** [needle in s] *)
Definition contains (needle s : str) : bool :=
  match find_sub needle s with
  | Some _ => true
  | None => false
  end.

(** A text that takes no part in a CDATA opening marker, whatever stands
    after it: it holds no [<![] and does not end with the beginning [<] or
    [<!] of one. *)
Definition plain_text (t : str) : bool :=
  negb (contains (u "<![") t) && negb (endswith (u "<") t)
  && negb (endswith (u "<!") t).

(** The CDATA block with the content [content]. *)
Definition cdata_block (content : str) : str :=
  u "<![CDATA[" ++ content ++ u "]]>".

(** The text [t0] followed by CDATA blocks, each of them given by its
    content and the text that follows it:
    [t0 <![CDATA[c1]]> t1 ... <![CDATA[cn]]> tn]. *)
Fixpoint cdata_document (t0 : str) (blocks : list (str * str)) : str :=
  match blocks with
  | [] => t0
  | (content, t) :: rest =>
      t0 ++ cdata_block content ++ cdata_document t rest
  end.

(** The same text with every block replaced by its cleaned content. *)
Fixpoint cleaned_document (t0 : str) (blocks : list (str * str)) : str :=
  match blocks with
  | [] => t0
  | (content, t) :: rest =>
      t0 ++ replace_cdata content ++ cleaned_document t rest
  end.

(** Blocks whose content holds no closing marker, so that each block ends
    where its content ends, and whose following text is plain. *)
Definition separated_blocks (blocks : list (str * str)) : bool :=
  forallb
    (fun ct => negb (contains (u "]]>") (fst ct)) && plain_text (snd ct))
    blocks.

(** A document of two blocks in the layout of a Moodle export: the text
    before the first block, then the blocks.  The content of the second
    block looks like the rest of an opening marker. *)
Definition export_head : str := u "<quiz><!-- 1 --><text>".

Definition export_blocks : list (str * str) :=
  [ (u "<p>1 &lt; 2  &amp;<br/> 3</p>", u "</text><text>");
    (u "![CDATA[x", u "</text></quiz>") ].

(** The pair that a [subquestion] element offers: its prompt text and the
    text of its answer, when it has an answer element. *)
Definition candidate_pair (subquestion_elem : ET.element)
    : option (str * str) :=
  match ET.find (u "answer") subquestion_elem with
  | Some answer_elem =>
      Some (text_or_blank (ET.find (u "text") subquestion_elem),
            text_or_blank (ET.find (u "text") answer_elem))
  | None => None
  end.

(** A pair is kept when neither text is empty. *)
Definition retained (p : str * str) : bool :=
  nonempty (fst p) && nonempty (snd p).

(** The pairs of a [matching] question, the skipped ones left out. *)
Definition retained_pairs (question_element : ET.element)
    : list (str * str) :=
  List.filter retained
    (omap candidate_pair (ET.findall (u "subquestion") question_element)).

(** [<subquestion><text>p</text><answer><text>a</text></answer></subquestion>] *)
Definition subquestion_of (prompt answer : string) : ET.element :=
  ET.Element (u "subquestion") [] None
    [ text_elem prompt;
      ET.Element (u "answer") [] None [text_elem answer] ].

(** A [matching] question with a repeated answer and answers out of
    order. *)
Definition capitals_matching : ET.element :=
  ET.Element (u "question") [(u "type", u "matching")] None
    [ subquestion_of "France" "Paris";
      subquestion_of "Italy" "Rome";
      subquestion_of "Ile-de-France" "Paris";
      subquestion_of "Germany" "Berlin" ].

(** What an element of the stream is for the grouping: a category with a
    course name, a category without one (which the loop passes over), or
    a question. *)
Inductive kind := ValidCategory | IgnoredCategory | AQuestion.

Definition classify (e : ET.element) : kind :=
  if str_eqb (ET.get e (u "type") []) (u "category") then
    match _extract_course_name e with
    | Some (_ :: _) => ValidCategory
    | _ => IgnoredCategory
    end
  else AQuestion.

(** A question occurs before the next valid category. *)
Fixpoint question_before_category (ks : list kind) : bool :=
  match ks with
  | [] => false
  | AQuestion :: _ => true
  | ValidCategory :: _ => false
  | IgnoredCategory :: r => question_before_category r
  end.

(** The number of valid categories followed by at least one question
    before the next valid category or the end of the stream. *)
Fixpoint categories_followed (ks : list kind) : nat :=
  match ks with
  | [] => 0
  | ValidCategory :: r =>
      (if question_before_category r then 1 else 0) + categories_followed r
  | _ :: r => categories_followed r
  end.

(** The number of courses that the specification announces: the followed
    categories, and one more when a question precedes the first valid
    category. *)
Definition expected_courses (ks : list kind) : nat :=
  (categories_followed ks
   + if question_before_category ks then 1 else 0)%nat.

(** The number of courses still to come from [ks] when [seen] tells that
    the current segment already holds a question. *)
Fixpoint courses_from (seen : bool) (ks : list kind) : nat :=
  match ks with
  | [] => if seen then 1 else 0
  | ValidCategory :: r => ((if seen then 1 else 0) + courses_from false r)%nat
  | IgnoredCategory :: r => courses_from seen r
  | AQuestion :: r => courses_from true r
  end.

(** The flat list of the specification: the questions of the courses, in
    course order. *)
Definition flatten_courses (courses : list Course.t) : list Question.t :=
  concat (map Course.questions courses).

(** An XML parser that answers [root]; it stands for [ET.fromstring] on
    the text of [root]. *)
Definition parsed_as (root : ET.element) (xml : str) : option ET.element :=
  Some root.

(** [<question type="category"><category><text>path</text></category></question>] *)
Definition category_of (path : str) : ET.element :=
  ET.Element (u "question") [(u "type", u "category")] None
    [ ET.Element (u "category") [] None
        [ ET.Element (u "text") [] (Some path) [] ] ].

(** A [shortanswer] question named [name] with the answers Paris (100)
    and Lyon (0). *)
Definition capital_question (name : string) : ET.element :=
  ET.Element (u "question") [(u "type", u "shortanswer")] None
    [ ET.Element (u "name") [] None [text_elem name];
      ET.Element (u "questiontext") [] None [text_elem "Capital?"];
      answer_elem_of "100" "Paris"; answer_elem_of "0" "Lyon" ].

(** A bank with a question before any category, a course with two
    questions, a category without a course name, a course without
    questions and a course with one question. *)
Definition sample_bank : ET.element :=
  ET.Element (u "quiz") [] None
    [ capital_question "q0";
      category_of (CATEGORY_PREFIX ++ u "/Course A");
      capital_question "q1";
      capital_question "q2";
      category_of (u "$course$/top");
      category_of (CATEGORY_PREFIX ++ u "/Course B");
      category_of (CATEGORY_PREFIX ++ u "/Год 1/ Course C ");
      category_of (u "$course$/top");
      capital_question "q3" ].

(** The course under construction holds a question. *)
Definition open_course_nonempty (st : walk) : Prop :=
  forall c, current_course st = Some c -> Course.questions c <> [].

(** The current segment already holds a question. *)
Definition seen_question (st : walk) : bool :=
  match current_course st with Some _ => true | None => false end.

(** The shape of every configuration that [migrate_v1_to_v2] returns:
    the preset of the type with some [styles] and, when the legacy layout
    gives widths, these widths on the first table block. *)
Definition migrated_shape (question_type : str) (styles : dict)
    (widths : option (list value)) : dict :=
  [ (u "version", VInt 2); (u "styles", VDict styles);
    (u "blocks",
     match get_default (preset_table_default question_type) "blocks"
             (VList []), widths with
     | VList blocks, Some w => VList (set_first_table (VList w) blocks)
     | b, _ => b
     end) ].

(** The four question types whose default preset has a table. *)
Definition table_types : list str :=
  [u "matching"; u "multichoice"; u "truefalse"; u "shortanswer"].

(** A legacy configuration whose title size is not a number. *)
Definition nan_title_size : dict :=
  [ (u "styles", VDict [ (u "title_size", VFloat S754_nan) ]) ].

(** The questions of the stream, extracted in document order. *)
Definition extract_questions (py_float : str -> option spec_float)
    (py_lower : str -> str) (all_elements : list ET.element)
    : result (list Question.t) :=
  map_result (_parse_question_element py_float py_lower)
    (List.filter
       (fun e => negb (str_eqb (ET.get e (u "type") []) (u "category")))
       all_elements).

(* ================================================================== *)
(** ** src/utils/file_utils.py: [sanitize_filename] *)

(** The backslash. *)
Definition backslash : char := 92%N.

(** The class of [invalid_chars]: the two angle brackets, the colon, the
    double quote, the slash, the backslash, the bar, the question mark
    and the star. *)
Definition invalid_char (c : char) : bool :=
  ((c =? ch "<") || (c =? ch ">") || (c =? ch ":") || (c =? dquote)
   || (c =? ch "/") || (c =? backslash) || (c =? ch "|") || (c =? ch "?")
   || (c =? ch "*"))%N.

(** [re.sub(invalid_chars, '_', filename)] *)
Definition replace_invalid (filename : str) : str :=
  map (fun c => if invalid_char c then ch "_" else c) filename.

(** [re.sub(r'_+', '_', s)]; [in_run] tells that the previous character
    belonged to the run being replaced. *)
Fixpoint collapse_underscores_aux (in_run : bool) (s : str) : str :=
  match s with
  | [] => []
  | c :: r =>
      if (c =? ch "_")%N then
        if in_run then collapse_underscores_aux true r
        else ch "_" :: collapse_underscores_aux true r
      else c :: collapse_underscores_aux false r
  end.

Definition collapse_underscores (s : str) : str :=
  collapse_underscores_aux false s.

(** [sanitize_filename] *)
Definition sanitize_filename (filename : str) : str :=
  let sanitized := replace_invalid filename in
  let sanitized := strip sanitized in
  let sanitized := collapse_underscores sanitized in
  match sanitized with
  | [] => u "Без_названия"
  | _ => sanitized
  end.

(** Two underscores in a row occur in [s]. *)
Fixpoint has_double_underscore (s : str) : bool :=
  match s with
  | [] => false
  | a :: r =>
      match r with
      | [] => false
      | b :: _ =>
          ((a =? ch "_") && (b =? ch "_"))%N || has_double_underscore r
      end
  end.

(** The five characters that [escape_xml_text] and [html.escape]
    replace. *)
Definition markup_char (c : char) : bool :=
  ((c =? ch "&") || (c =? ch "<") || (c =? ch ">") || (c =? dquote)
   || (c =? ch "'"))%N.

(** The four of them that remain forbidden in the escaped text. *)
Definition bracket_or_quote (c : char) : bool :=
  ((c =? ch "<") || (c =? ch ">") || (c =? dquote) || (c =? ch "'"))%N.

(** [s] does not begin, respectively end, with a space. *)
Definition starts_nonspace (s : str) : Prop :=
  match s with
  | c :: _ => isspace c = false
  | [] => True
  end.

Definition ends_nonspace (s : str) : Prop :=
  match last s with
  | Some c => isspace c = false
  | None => True
  end.

(* ================================================================== *)
(** ** Definitions used by the further properties of the parser *)

(** A course with a name and at least one question. *)
Definition good_course (c : Course.t) : Prop :=
  Course.questions c <> [] /\ Course.name c <> [].

(** The state of the grouping loop holds good courses only, and the names
    it keeps for later are not empty. *)
Definition walk_ok (st : walk) : Prop :=
  List.Forall good_course (courses st)
  /\ (forall c, current_course st = Some c -> Course.name c <> [])
  /\ (forall n, last_category_name st = Some n -> n <> []).

(** The text of an answer element when it is not empty. *)
Definition answer_text (answer_elem : ET.element) : option str :=
  let t := text_or_blank (ET.find (u "text") answer_elem) in
  if nonempty t then Some t else None.

(** The text of an answer element when it is not empty and the fraction
    of the element makes it correct for the question type. *)
Definition counted_text (py_float : str -> option spec_float) (type : str)
    (answer_elem : ET.element) : option str :=
  match fraction_of py_float answer_elem with
  | Ok f =>
      if counts_as_correct type f then answer_text answer_elem else None
  | Raise _ => None
  end.

(** A [shortanswer] question with an accepted answer, a rejected one, an
    accepted answer without text and a second accepted answer. *)
Definition city_shortanswer : ET.element :=
  ET.Element (u "question") [(u "type", u "shortanswer")] None
    [ answer_elem_of "100" "Paris"; answer_elem_of "0" "Lyon";
      ET.Element (u "answer") [(u "fraction", u "100")] None [];
      answer_elem_of "50" "Lutetia" ].

(** A [multichoice] question with three answers, two of them credited. *)
Definition primes_multichoice : ET.element :=
  ET.Element (u "question") [(u "type", u "multichoice")] None
    [ answer_elem_of "50" "2"; answer_elem_of "0" "4";
      answer_elem_of "50" "3" ].

(** Whether the extraction of a question of type [type] reads the
    [fraction] of an answer element: always for [shortanswer], only for an
    answer with a non-empty text for [multichoice] and [truefalse], never
    for the other types. *)
Definition reads_fraction (type : str) (answer_elem : ET.element) : bool :=
  if str_eqb type (u "shortanswer") then true
  else if str_eqb type (u "multichoice") || str_eqb type (u "truefalse")
  then nonempty (text_or_blank (ET.find (u "text") answer_elem))
  else false.

(** A question of the given type whose two answers carry fractions that
    are not numbers; the second answer has no text. *)
Definition odd_fractions (type : string) : ET.element :=
  ET.Element (u "question") [(u "type", u type)] None
    [ ET.Element (u "subquestion") [] None
        [ text_elem "France"; answer_elem_of "half" "Paris" ];
      ET.Element (u "answer") [(u "fraction", u "n/a")] None [] ].

(* ================================================================== *)
(** * Properties *)

(** ** Loops *)

Lemma bind_Ok_inv {A B : Type} (m : result A) (f : A -> result B) (b : B) :
  m ≫= f = Ok b -> exists a, m = Ok a /\ f a = Ok b.
Proof. destruct m as [a|e]; simpl; [eauto | discriminate]. Qed.

(** A property that every iteration preserves holds when the loop ends. *)
Lemma for_loop_invariant {S A : Type} (P : S -> Prop)
    (body : S -> A -> result S) (l : list A) :
  (forall s x s', In x l -> P s -> body s x = Ok s' -> P s') ->
  forall s s', P s -> for_loop body l s = Ok s' -> P s'.
Proof.
  induction l as [|x r IH]; intros Hbody s s' Hs Hrun; simpl in Hrun.
  - congruence.
  - apply bind_Ok_inv in Hrun as (s1 & H1 & H2).
    apply (IH (fun s0 y s0' Hy => Hbody s0 y s0' (or_intror Hy)) s1 s'); auto.
    apply (Hbody s x s1); auto. now left.
Qed.

(** A loop whose iterations all succeed returns. *)
Lemma for_loop_total {S A : Type} (body : S -> A -> result S) (l : list A) :
  (forall s x, In x l -> exists s', body s x = Ok s') ->
  forall s, exists s', for_loop body l s = Ok s'.
Proof.
  induction l as [|x r IH]; intros Hbody s; simpl.
  - eauto.
  - destruct (Hbody s x (or_introl eq_refl)) as (s1 & ->). simpl.
    apply IH. intros s0 y Hy. apply Hbody. now right.
Qed.

(* ================================================================== *)
(** ** Presets, migration and validation *)

Lemma forallb_is_int_VInt (ns : list Z) :
  forallb is_int (map VInt ns) = true.
Proof. induction ns; simpl; auto. Qed.

(** Whatever the legacy configuration, the migration returns the preset
    with new styles and, possibly, new integer widths on its table. *)
Lemma migrate_shape (int_of_str : str -> option Z) (v1 : dict) (t : str)
    (cfg : dict) :
  migrate_v1_to_v2 int_of_str v1 t = Ok cfg ->
  exists styles widths,
    cfg = migrated_shape t styles widths
    /\ match widths with
       | Some w => forallb is_int w = true
       | None => True
       end.
Proof.
  unfold migrate_v1_to_v2. intros H.
  apply bind_Ok_inv in H as (styles & _ & H).
  apply bind_Ok_inv in H as (tc & _ & H).
  assert (Hp : exists blocks, preset_table_default t = preset blocks).
  { unfold preset_table_default.
    repeat destruct (str_eqb _ _); simpl; eauto. }
  destruct Hp as (blocks & Hp). rewrite Hp in *.
  destruct tc as [[|n ns]|].
  - injection H as <-. exists styles, None. split; [|exact I].
    unfold migrated_shape. rewrite Hp. vm_compute. reflexivity.
  - exists styles, (Some (map VInt (n :: ns))).
    split; [|apply forallb_is_int_VInt].
    unfold migrated_shape. rewrite Hp.
    change (get_default
              (dict_set (u "styles") (VDict styles) (preset blocks))
              "blocks" (VList []))
      with (VList blocks) in H.
    injection H as <-. reflexivity.
  - injection H as <-. exists styles, None. split; [|exact I].
    unfold migrated_shape. rewrite Hp. vm_compute. reflexivity.
Qed.

(** The validator on a migrated table preset. *)
Lemma validate_migrated_table (py_repr : value -> str) (t : str)
    (styles : dict) (widths : option (list value)) :
  In t table_types ->
  match widths with Some w => forallb is_int w = true | None => True end ->
  validate_template_config_v2 py_repr (VDict (migrated_shape t styles widths))
  = Ok [blank_cols_error].
Proof.
  intros Ht Hw. simpl in Ht.
  destruct Ht as [<-|[<-|[<-|[<-|[]]]]]; destruct widths as [w|];
    try (vm_compute; reflexivity).
  all: cbv beta iota zeta delta -[forallb is_int]; rewrite Hw;
    vm_compute; reflexivity.
Qed.

(** The validator on a migrated [essay] preset. *)
Lemma validate_migrated_essay (py_repr : value -> str)
    (styles : dict) (widths : option (list value)) :
  validate_template_config_v2 py_repr
    (VDict (migrated_shape (u "essay") styles widths))
  = Ok [].
Proof. destruct widths; vm_compute; reflexivity. Qed.

(** C1 (as the code behaves). Whatever the legacy configuration, a
    migration that returns validates for [essay], and for the four types
    whose preset has a table it does not: [validate_template_config_v2]
    rejects the blank column expressions of the preset.  The migration of
    the empty legacy configuration returns for all five types. *)
Theorem migrated_table_presets_fail_validation (py_repr : value -> str)
    (int_of_str : str -> option Z) :
  (forall v1 t cfg, In t table_types ->
     migrate_v1_to_v2 int_of_str v1 t = Ok cfg ->
     validate_template_config_v2 py_repr (VDict cfg) = Ok [blank_cols_error])
  /\ (forall v1 cfg,
        migrate_v1_to_v2 int_of_str v1 (u "essay") = Ok cfg ->
        validate_template_config_v2 py_repr (VDict cfg) = Ok [])
  /\ (forall t, In t (u "essay" :: table_types) ->
        exists cfg, migrate_v1_to_v2 int_of_str [] t = Ok cfg).
Proof.
  split; [|split].
  - intros v1 t cfg Ht Hm.
    apply migrate_shape in Hm as (styles & widths & -> & Hw).
    now apply validate_migrated_table.
  - intros v1 cfg Hm.
    apply migrate_shape in Hm as (styles & widths & -> & Hw).
    apply validate_migrated_essay.
  - intros t Ht. simpl in Ht.
    destruct Ht as [<-|[<-|[<-|[<-|[<-|[]]]]]];
      eexists; vm_compute; reflexivity.
Qed.

(** A size that is not a number makes the migration raise. *)
Example migrate_nan_size_raises (int_of_str : str -> option Z) :
  migrate_v1_to_v2 int_of_str nan_title_size (u "essay") = Raise ValueError.
Proof. reflexivity. Qed.

(** C2 (as the code behaves). For the four types whose default preset
    has a table, rendering the preset gives the single diagnostic node,
    whatever the question and the metadata; against the sample question
    the [essay] preset gives four nodes and no diagnostic. *)
Theorem table_presets_render_diagnostic (py_repr : value -> str)
    (int_of_str : str -> option Z) :
  (forall t question metadata task_number, In t table_types ->
     render_question_html py_repr int_of_str (VDict (preset_table_default t))
       question metadata task_number
     = Ok (u "<div class='muted'>Template error: blocks[3].cols must contain non-empty strings</div>"))
  /\ render_nodes py_repr int_of_str (VDict (preset_table_default (u "essay")))
       (sample_question "essay") sample_metadata 1
     = Ok [ u "<div class='line'>- Задание 1 (ПК-1.3 – ИПК-1.3.3 desc)</div>";
            u "<div class='line'>Q?</div>";
            u "<div style='height:2mm'></div>";
            u "<div class='line'>Эталон: A</div>" ]
  /\ render_question_html py_repr int_of_str (VDict (preset_table_default (u "essay")))
       (sample_question "essay") sample_metadata 1
     = Ok (join newline
             [ u "<div class='line'>- Задание 1 (ПК-1.3 – ИПК-1.3.3 desc)</div>";
               u "<div class='line'>Q?</div>";
               u "<div style='height:2mm'></div>";
               u "<div class='line'>Эталон: A</div>" ]).
Proof.
  split; [|split; vm_compute; reflexivity].
  intros t question metadata task_number Ht. unfold render_question_html.
  replace (validate_template_config_v2 py_repr
             (VDict (preset_table_default t)))
    with (@Ok (list str) [blank_cols_error]).
  - vm_compute. reflexivity.
  - simpl in Ht.
    destruct Ht as [<-|[<-|[<-|[<-|[]]]]]; vm_compute; reflexivity.
Qed.

(* ================================================================== *)
(** ** Column widths *)

Lemma str_eqb_eq (a b : str) : str_eqb a b = true <-> a = b.
Proof. unfold str_eqb. apply bool_decide_eq_true. Qed.

Lemma str_eqb_refl (a : str) : str_eqb a a = true.
Proof. now apply str_eqb_eq. Qed.

Lemma str_eqb_neq (a b : str) : a <> b -> str_eqb a b = false.
Proof. unfold str_eqb. apply bool_decide_eq_false_2. Qed.

Lemma dict_get_filter_ne {V : Type} (k k' : str) (d : list (str * V)) :
  k' <> k ->
  dict_get k' (List.filter (fun kv => negb (str_eqb (fst kv) k)) d)
  = dict_get k' d.
Proof.
  intros Hne. induction d as [|[k0 v] r IH]; simpl; [reflexivity|].
  destruct (str_eqb k0 k) eqn:E; simpl.
  - apply str_eqb_eq in E. subst k0.
    rewrite (str_eqb_neq k k') by congruence. exact IH.
  - now rewrite IH.
Qed.

Lemma dict_get_filter_eq {V : Type} (k : str) (d : list (str * V)) :
  dict_get k (List.filter (fun kv => negb (str_eqb (fst kv) k)) d) = None.
Proof.
  induction d as [|[k0 v] r IH]; simpl; [reflexivity|].
  destruct (str_eqb k0 k) eqn:E; simpl; [exact IH|].
  rewrite E. exact IH.
Qed.

Lemma get_dict_del_ne (k k' : string) (d : dict) :
  u k' <> u k -> get (dict_del k d) k' = get d k'.
Proof.
  intros Hne. unfold get, dict_del. now rewrite dict_get_filter_ne.
Qed.

Lemma get_dict_del_eq (k : string) (d : dict) : get (dict_del k d) k = VNone.
Proof. unfold get, dict_del. now rewrite dict_get_filter_eq. Qed.

(** Without a list of the right length every column has the empty style. *)
Lemma width_style_unweighted (int_of_str : str -> option Z)
    (ws : list value) (n : nat) :
  length ws <> n ->
  width_style_of int_of_str (py_or (VList ws) (VList [])) n
  = Ok (replicate n []).
Proof.
  intros Hlen. destruct ws as [|w ws]; [reflexivity|].
  unfold py_or, width_style_of. simpl truthy. cbn iota. simpl py_len.
  simpl. destruct n as [|n]; [reflexivity|].
  destruct (Nat.eqb_spec (length ws) n) as [E|E]; [|reflexivity].
  simpl in Hlen. congruence.
Qed.

(** With a list of the right length every column has the style of its
    width. *)
Lemma width_style_weighted (int_of_str : str -> option Z)
    (ws : list value) :
  width_style_of int_of_str (py_or (VList ws) (VList [])) (length ws)
  = map_result (width_css int_of_str) ws.
Proof.
  destruct ws as [|w ws]; [reflexivity|].
  unfold py_or, width_style_of. simpl truthy. cbn iota.
  simpl py_len. simpl. rewrite Nat.eqb_refl. reflexivity.
Qed.

Lemma result_bind_Ok {A B : Type} (a : A) (f : A -> result B) :
  Ok a ≫= f = f a.
Proof. reflexivity. Qed.

Lemma map_result_length {A B : Type} (f : A -> result B) (l : list A) :
  forall l', map_result f l = Ok l' -> length l' = length l.
Proof.
  induction l as [|x r IH]; intros l'; cbn [map_result].
  - intros [= <-]. reflexivity.
  - destruct (f x) as [y|e]; [|discriminate]. rewrite result_bind_Ok.
    destruct (map_result f r) as [ys|e]; [|discriminate].
    rewrite result_bind_Ok. intros [= <-]. cbn [length].
    now rewrite (IH ys eq_refl).
Qed.

Lemma map_result_ext {A B : Type} (f g : A -> result B) (l : list A) :
  (forall x, f x = g x) -> map_result f l = map_result g l.
Proof.
  intros E. induction l as [|x r IH]; cbn [map_result]; [reflexivity|].
  now rewrite E, IH.
Qed.

Lemma map_result_pure {A B : Type} (g : A -> B) (l : list A) :
  map_result (fun x => Ok (g x)) l = Ok (map g l).
Proof.
  induction l as [|x r IH]; cbn [map_result map]; [reflexivity|].
  now rewrite result_bind_Ok, IH.
Qed.

Lemma style_at_middle (done_s : list str) (s : str) (ss : list str) :
  style_at (done_s ++ s :: ss) (length done_s) = Ok s.
Proof.
  unfold style_at. now rewrite (list_lookup_middle done_s ss s _ eq_refl).
Qed.

Lemma py_index_middle (done_c : list value) (c : value) (cs : list value) :
  py_index (VList (done_c ++ c :: cs)) (length done_c) = Ok c.
Proof.
  unfold py_index. now rewrite (list_lookup_middle done_c cs c _ eq_refl).
Qed.

(** The loop over [range(col_count)] that reads [width_style[i]] and
    [cols[i]] visits the styles and the columns side by side. *)
Lemma map_result_range_zip {B : Type} (f : str -> value -> result B)
    (styles : list str) :
  forall (cols : list value) (done_s : list str) (done_c : list value),
  length done_s = length done_c ->
  length styles = length cols ->
  map_result
    (fun i => st ← style_at (done_s ++ styles) i;
              c ← py_index (VList (done_c ++ cols)) i;
              f st c)
    (seq (length done_s) (length cols))
  = map_result (fun sc => f (fst sc) (snd sc)) (zip styles cols).
Proof.
  induction styles as [|s ss IH]; intros [|c cs] done_s done_c Hd Hl;
    try discriminate; [reflexivity|].
  cbn [length seq map_result zip zip_with fst snd].
  rewrite style_at_middle, result_bind_Ok.
  rewrite Hd, py_index_middle, result_bind_Ok.
  destruct (f s c) as [y|e]; [|reflexivity]. rewrite !result_bind_Ok.
  rewrite (cons_middle s done_s ss), (cons_middle c done_c cs), !app_assoc.
  rewrite <- Hd.
  replace (S (length done_s)) with (length (done_s ++ [s]))
    by (rewrite length_app; cbn [length]; lia).
  rewrite (IH cs (done_s ++ [s]) (done_c ++ [c])); [reflexivity| |].
  - rewrite !length_app. cbn [length]. lia.
  - now injection Hl.
Qed.

Lemma map_result_range_zip0 {B : Type} (f : str -> value -> result B)
    (styles : list str) (cols : list value) :
  length styles = length cols ->
  map_result
    (fun i => st ← style_at styles i; c ← py_index (VList cols) i; f st c)
    (seq 0 (length cols))
  = map_result (fun sc => f (fst sc) (snd sc)) (zip styles cols).
Proof.
  intros Hl.
  exact (map_result_range_zip f styles cols [] [] eq_refl Hl).
Qed.

(** The table of a block whose widths are as many as its columns. *)
Lemma render_table_weighted (py_repr : value -> str)
    (int_of_str : str -> option Z) (b : dict) (ctx : context)
    (question : dict) (ws cols headers : list value) :
  get b "col_widths_pct" = VList ws ->
  py_or (get b "cols") (VList []) = VList cols ->
  py_or (get b "headers") (VList []) = VList headers ->
  length cols = length ws ->
  render_table py_repr int_of_str b ctx question
  = styles ← map_result (width_css int_of_str) ws;
    table_with_styles py_repr styles headers cols
      (items_of question (get b "source")) ctx.
Proof.
  intros Hws Hcols Hheaders Hlen.
  unfold render_table. rewrite Hws, Hcols, Hheaders.
  cbn [py_len]. rewrite result_bind_Ok, Hlen, width_style_weighted.
  destruct (map_result (width_css int_of_str) ws) as [styles|e] eqn:Est;
    [|reflexivity].
  rewrite !result_bind_Ok. apply map_result_length in Est.
  assert (Hsc : length styles = length cols) by congruence.
  rewrite <- Hlen. unfold table_with_styles.
  assert (Hhead :
    (if truthy (VList headers) then
       if (length headers =? length cols)%nat then
         ths ← map_result
                 (fun i =>
                    st ← style_at styles i;
                    h ← py_index (VList headers) i;
                    Ok (u "<th style='" ++ _esc py_repr (VStr st) ++ u "'>"
                        ++ _esc py_repr h ++ u "</th>"))
                 (seq 0 (length cols));
         Ok (u "<thead><tr>" ++ concat ths ++ u "</tr></thead>")
       else Ok []
     else Ok [])
    = Ok match headers with
         | [] => []
         | _ :: _ =>
             if (length headers =? length cols)%nat
             then u "<thead><tr>"
                  ++ concat (map (fun sh => th_cell (fst sh)
                                              (_esc py_repr (snd sh)))
                               (zip styles headers))
                  ++ u "</tr></thead>"
             else []
         end).
  { destruct headers as [|h0 hs]; [reflexivity|].
    cbn [truthy].
    destruct (Nat.eqb_spec (length (h0 :: hs)) (length cols)) as [E|E];
      [|reflexivity].
    rewrite <- E.
    rewrite (map_result_range_zip0
               (fun st h => Ok (u "<th style='" ++ _esc py_repr (VStr st)
                                ++ u "'>" ++ _esc py_repr h ++ u "</th>"))
               styles (h0 :: hs)) by congruence.
    rewrite map_result_pure, result_bind_Ok. reflexivity. }
  rewrite Hhead, result_bind_Ok.
  destruct (py_iter (py_or (items_of question (get b "source"))
                       (VList [VNone]))) as [its|e]; [|reflexivity].
  rewrite !result_bind_Ok.
  rewrite (map_result_ext _
             (fun it =>
                tds ← map_result
                        (fun sc =>
                           r ← _render_pattern py_repr (snd sc) ctx it;
                           Ok (td_cell (fst sc) r))
                        (zip styles cols);
                Ok (u "<tr>" ++ concat tds ++ u "</tr>"))); [reflexivity|].
  intros it.
  now rewrite (map_result_range_zip0
                 (fun st c => r ← _render_pattern py_repr c ctx it;
                              Ok (u "<td style='" ++ _esc py_repr (VStr st)
                                  ++ u "'>" ++ r ++ u "</td>"))
                 styles cols Hsc).
Qed.

(** The styles of a list of integers. *)
Lemma width_css_ints (int_of_str : str -> option Z) (ks : list Z) :
  map_result (width_css int_of_str) (map VInt ks)
  = Ok (map (fun k => u "width:" ++ str_of_Z k ++ u "%") ks).
Proof.
  induction ks as [|k r IH]; cbn [map map_result]; [reflexivity|].
  rewrite IH. reflexivity.
Qed.

(** C4 (amended). A [col_widths_pct] list whose length differs from the
    number of columns is ignored: the table is rendered exactly as the same
    block without the key.  A list with as many widths as the block has
    columns is applied as given, whatever its sum: in the rendered table
    every cell of column [i], in the header row and in the body rows,
    carries the style [width:int(w_i)%], and rendering raises what [int]
    raises on a width.  For integer widths the styles are [width:k_i%]. *)
Theorem widths_apply_by_length_alone (py_repr : value -> str)
    (int_of_str : str -> option Z)
    (b : dict) (ctx : context) (question : dict) (ws : list value) :
  get b "col_widths_pct" = VList ws ->
  (col_count b <> Ok (length ws) ->
     render_table py_repr int_of_str b ctx question
     = render_table py_repr int_of_str (dict_del "col_widths_pct" b) ctx
         question)
  /\ (forall cols headers : list value,
        py_or (get b "cols") (VList []) = VList cols ->
        py_or (get b "headers") (VList []) = VList headers ->
        length cols = length ws ->
        render_table py_repr int_of_str b ctx question
        = styles ← map_result (width_css int_of_str) ws;
          table_with_styles py_repr styles headers cols
            (items_of question (get b "source")) ctx)
  /\ (forall (cols headers : list value) (ks : list Z),
        py_or (get b "cols") (VList []) = VList cols ->
        py_or (get b "headers") (VList []) = VList headers ->
        length cols = length ws ->
        ws = map VInt ks ->
        render_table py_repr int_of_str b ctx question
        = table_with_styles py_repr
            (map (fun k => u "width:" ++ str_of_Z k ++ u "%") ks)
            headers cols (items_of question (get b "source")) ctx).
Proof.
  intros Hws. split; [|split].
  - intros Hlen. unfold render_table, col_count in *.
    rewrite !get_dict_del_ne by (vm_compute; congruence).
    rewrite get_dict_del_eq, Hws.
    destruct (py_len (py_or (get b "cols") (VList []))) as [n|e];
      [|reflexivity].
    simpl. rewrite width_style_unweighted by congruence. reflexivity.
  - intros cols headers Hcols Hheaders Hlen.
    now apply render_table_weighted.
  - intros cols headers ks Hcols Hheaders Hlen ->.
    rewrite (render_table_weighted py_repr int_of_str b ctx question
               (map VInt ks) cols headers Hws Hcols Hheaders Hlen).
    now rewrite width_css_ints.
Qed.

Lemma widths_apply_by_length_alone_witness :
  render_table repr_unused int_of_decimal_literal
    (two_col_table [10; 20; 70]) (mk_context three_answers [] [])
    three_answers
  = render_table repr_unused int_of_decimal_literal
      (dict_del "col_widths_pct" (two_col_table [10; 20; 70]))
      (mk_context three_answers [] []) three_answers
  /\ render_table repr_unused int_of_decimal_literal
       (headed_table [30; 70]) (mk_context three_answers [] [])
       three_answers
     = Ok (u "<table><thead><tr><th style='width:30%'>Answer</th><th style='width:70%'>Correct</th></tr></thead><tbody><tr><td style='width:30%'>2</td><td style='width:70%'>+</td></tr><tr><td style='width:30%'>3</td><td style='width:70%'>+</td></tr><tr><td style='width:30%'>4</td><td style='width:70%'></td></tr></tbody></table>").
Proof.
  split.
  - assert (Hws : get (two_col_table [10; 20; 70]) "col_widths_pct"
                  = VList [VInt 10; VInt 20; VInt 70])
      by (vm_compute; reflexivity).
    destruct (widths_apply_by_length_alone repr_unused
                int_of_decimal_literal (two_col_table [10; 20; 70])
                (mk_context three_answers [] []) three_answers
                [VInt 10; VInt 20; VInt 70] Hws) as (H & _).
    apply H. vm_compute. congruence.
  - assert (Hws : get (headed_table [30; 70]) "col_widths_pct"
                  = VList [VInt 30; VInt 70]) by (vm_compute; reflexivity).
    destruct (widths_apply_by_length_alone repr_unused
                int_of_decimal_literal (headed_table [30; 70])
                (mk_context three_answers [] []) three_answers
                [VInt 30; VInt 70] Hws) as (_ & _ & H).
    rewrite (H [VS "{{item}}"; VS "{{item|is_correct}}"]
               [VS "Answer"; VS "Correct"] [30; 70]);
      vm_compute; reflexivity.
Defined.

(** C4 (counterexample). A list of the right length whose sum is zero is
    not ignored: both columns get [width:0%]. *)
Lemma zero_sum_widths_are_applied :
  let b := two_col_table [0; 0] in
  let ctx := mk_context three_answers [] [] in
  get b "col_widths_pct" = VList [VInt 0; VInt 0]
  /\ 0 + 0 = 0
  /\ render_table repr_unused int_of_decimal_literal b ctx three_answers
     = Ok (u "<table><tbody><tr><td style='width:0%'>2</td><td style='width:0%'>+</td></tr><tr><td style='width:0%'>3</td><td style='width:0%'>+</td></tr><tr><td style='width:0%'>4</td><td style='width:0%'></td></tr></tbody></table>")
  /\ render_table repr_unused int_of_decimal_literal (dict_del "col_widths_pct" b) ctx three_answers
     = Ok (u "<table><tbody><tr><td style=''>2</td><td style=''>+</td></tr><tr><td style=''>3</td><td style=''>+</td></tr><tr><td style=''>4</td><td style=''></td></tr></tbody></table>")
  /\ render_table repr_unused int_of_decimal_literal b ctx three_answers
     <> render_table repr_unused int_of_decimal_literal (dict_del "col_widths_pct" b) ctx
          three_answers.
Proof.
  cbv zeta. repeat split; try (vm_compute; reflexivity).
  vm_compute. discriminate.
Qed.

(* ================================================================== *)
(** ** Stripping *)

Lemma lstrip_app_nonspace (a b : str) (c : char) :
  isspace c = false -> lstrip (a ++ c :: b) = lstrip a ++ c :: b.
Proof.
  intros Hc. induction a as [|x a IH]; simpl.
  - now rewrite Hc.
  - destruct (isspace x); [exact IH | reflexivity].
Qed.

Lemma rstrip_app_nonspace (a b : str) (c : char) :
  isspace c = false -> rstrip (a ++ c :: b) = a ++ c :: rstrip b.
Proof.
  intros Hc. unfold rstrip.
  rewrite rev_app_distr. simpl. rewrite <- app_assoc. simpl.
  rewrite lstrip_app_nonspace by assumption.
  rewrite rev_app_distr. simpl. rewrite rev_involutive, <- app_assoc.
  reflexivity.
Qed.

Lemma lstrip_idem (s : str) : lstrip (lstrip s) = lstrip s.
Proof.
  induction s as [|c r IH]; simpl; [reflexivity|].
  destruct (isspace c) eqn:E; [exact IH|]. simpl. now rewrite E.
Qed.

Lemma rstrip_idem (s : str) : rstrip (rstrip s) = rstrip s.
Proof. unfold rstrip. now rewrite rev_involutive, lstrip_idem. Qed.

Lemma lstrip_snoc (s : str) (c : char) :
  lstrip (s ++ [c]) =
  match lstrip s with
  | [] => if isspace c then [] else [c]
  | t => t ++ [c]
  end.
Proof.
  induction s as [|x s IH]; simpl; [reflexivity|].
  destruct (isspace x); [exact IH | reflexivity].
Qed.

(** [rstrip] by recursion from the left. *)
Lemma rstrip_cons (c : char) (r : str) :
  rstrip (c :: r) =
  match rstrip r with
  | [] => if isspace c then [] else [c]
  | t => c :: t
  end.
Proof.
  unfold rstrip. simpl. rewrite lstrip_snoc.
  destruct (lstrip (rev r)) as [|y t] eqn:E; simpl.
  - destruct (isspace c); reflexivity.
  - rewrite rev_app_distr. simpl.
    destruct (rev t ++ [y]) eqn:E2; [|reflexivity].
    destruct (rev t); discriminate.
Qed.

Lemma lstrip_rstrip (s : str) : lstrip (rstrip s) = rstrip (lstrip s).
Proof.
  induction s as [|c r IH]; [reflexivity|].
  rewrite rstrip_cons. simpl lstrip at 2.
  destruct (isspace c) eqn:Ec.
  - destruct (rstrip r) as [|y t] eqn:Er.
    + simpl. rewrite <- IH. reflexivity.
    + simpl. rewrite Ec. rewrite <- IH. reflexivity.
  - rewrite rstrip_cons.
    destruct (rstrip r) as [|y t]; simpl; now rewrite Ec.
Qed.

Lemma strip_idem (s : str) : strip (strip s) = strip s.
Proof.
  unfold strip.
  now rewrite lstrip_rstrip, rstrip_idem, lstrip_idem.
Qed.

Lemma strip_lstrip (s : str) : strip (lstrip s) = strip s.
Proof. unfold strip. now rewrite lstrip_idem. Qed.

Lemma strip_rstrip (s : str) : strip (rstrip s) = strip s.
Proof. unfold strip. now rewrite lstrip_rstrip, rstrip_idem. Qed.

Lemma existsb_lstrip (p : char -> bool) (s : str) :
  existsb p s = false -> existsb p (lstrip s) = false.
Proof.
  induction s as [|c r IH]; simpl; [auto|].
  intros H. apply orb_false_iff in H as [H1 H2].
  destruct (isspace c); [auto|]. simpl. now rewrite H1, H2.
Qed.

Lemma existsb_rev_false (p : char -> bool) (s : str) :
  existsb p s = false -> existsb p (rev s) = false.
Proof.
  intros H. apply not_true_is_false. intros Ht.
  apply existsb_exists in Ht as (x & Hx & Hp).
  apply in_rev in Hx.
  assert (existsb p s = true) by (apply existsb_exists; eauto).
  congruence.
Qed.

Lemma has_pipe_strip (s : str) : has_pipe s = false -> has_pipe (strip s) = false.
Proof.
  unfold has_pipe, strip, rstrip. intros H.
  apply existsb_rev_false, existsb_lstrip, existsb_rev_false.
  now apply existsb_lstrip.
Qed.

Lemma split_first_app (c : char) (a b : str) :
  existsb (N.eqb c) a = false -> split_first c (a ++ c :: b) = (a, b).
Proof.
  induction a as [|x a IH]; simpl; intros H.
  - now rewrite N.eqb_refl.
  - apply orb_false_iff in H as [H1 H2].
    rewrite N.eqb_sym, H1. now rewrite IH.
Qed.

(* ================================================================== *)
(** ** The expression evaluator *)

Section Evaluator.

Variable py_repr : value -> str.

(** One unfolding of the recursion. *)
Lemma eval_pipe_fuel_S (fuel : nat) (expr : str) ctx item :
  eval_pipe_fuel py_repr (S fuel) expr ctx item
  = let expr := strip expr in
    if existsb (N.eqb (ch "|")) expr then
      let '(base, op) := split_first (ch "|") expr in
      let base := strip base in
      let op := strip op in
      if str_eqb op (u "is_correct") then
        val ← eval_pipe_fuel py_repr fuel base ctx item;
        correct ← correct_set ctx;
        Ok (if str_in val correct then u "+" else [])
      else if str_eqb op (u "if_correct") then
        val ← eval_pipe_fuel py_repr fuel base ctx item;
        correct ← correct_set ctx;
        Ok (if str_in val correct then val else [])
      else eval_pipe_fuel py_repr fuel base ctx item
    else Ok (eval_base py_repr expr ctx item).
Proof. reflexivity. Qed.

(** A pipe-free expression is resolved at once, with any fuel. *)
Lemma eval_pipe_fuel_base (fuel : nat) (expr : str) ctx item :
  has_pipe expr = false ->
  eval_pipe_fuel py_repr (S fuel) expr ctx item
  = Ok (eval_base py_repr (strip expr) ctx item).
Proof.
  intros H. rewrite eval_pipe_fuel_S. cbv zeta.
  fold (has_pipe (strip expr)). now rewrite has_pipe_strip.
Qed.

Lemma strip_piped (base op : str) :
  strip (base ++ ch "|" :: op) = lstrip base ++ ch "|" :: rstrip op.
Proof.
  unfold strip.
  rewrite lstrip_app_nonspace by reflexivity.
  now rewrite rstrip_app_nonspace by reflexivity.
Qed.

(** What [_eval_pipe] computes for [base|op]. *)
Lemma eval_pipe_piped (base op : str) ctx item :
  has_pipe base = false ->
  _eval_pipe py_repr (base ++ ch "|" :: op) ctx item
  = let val := eval_base py_repr (strip base) ctx item in
    if str_eqb (strip op) (u "is_correct") then
      correct ← correct_set ctx;
      Ok (if str_in val correct then u "+" else [])
    else if str_eqb (strip op) (u "if_correct") then
      correct ← correct_set ctx;
      Ok (if str_in val correct then val else [])
    else Ok val.
Proof.
  intros Hb. unfold _eval_pipe.
  rewrite length_app. simpl length. rewrite Nat.add_succ_r.
  remember (length base + length op)%nat as k.
  rewrite eval_pipe_fuel_S. cbv zeta. rewrite !strip_piped.
  assert (Hl : has_pipe (lstrip base) = false)
    by (now apply existsb_lstrip).
  replace (existsb (N.eqb (ch "|")) (lstrip base ++ ch "|" :: rstrip op))
    with true.
  2:{ symmetry. rewrite existsb_app. simpl. now rewrite orb_true_r. }
  rewrite split_first_app by exact Hl.
  rewrite strip_lstrip, strip_rstrip.
  rewrite (eval_pipe_fuel_base k (strip base)) by (now apply has_pipe_strip).
  rewrite strip_idem. cbv zeta.
  destruct (str_eqb (strip op) (u "is_correct")); [reflexivity|].
  destruct (str_eqb (strip op) (u "if_correct")); reflexivity.
Qed.

Lemma eval_pipe_base (expr : str) ctx item :
  has_pipe expr = false ->
  _eval_pipe py_repr expr ctx item
  = Ok (eval_base py_repr (strip expr) ctx item).
Proof. intros H. unfold _eval_pipe. now apply eval_pipe_fuel_base. Qed.

Lemma lookup_missing (d : dict) (key : str) :
  dict_get key d = None -> lookup py_repr d key = [].
Proof. unfold lookup. now intros ->. Qed.

Lemma startswith_app (p s : str) : startswith p (p ++ s) = true.
Proof.
  induction p as [|c p IH]; simpl; [reflexivity|].
  now rewrite N.eqb_refl.
Qed.

(** An unresolved lookup gives the empty string. *)
Lemma eval_base_unresolved ctx item (e : str) :
  unresolved ctx item e -> eval_base py_repr e ctx item = [].
Proof.
  intros H. unfold eval_base.
  destruct H as [e H1 H2 H3 H4 H5|key Hk|key Hk|key d -> Hk| -> |key Hd].
  - rewrite H1, H2, (str_eqb_neq _ _ H3), (str_eqb_neq _ _ H4), H5.
    now destruct item.
  - rewrite startswith_app, drop_app_length. now apply lookup_missing.
  - replace (startswith (u "question.") (u "metadata." ++ key)) with false
      by reflexivity.
    rewrite startswith_app, drop_app_length. now apply lookup_missing.
  - replace (startswith (u "question.") (u "item." ++ key)) with false
      by reflexivity.
    replace (startswith (u "metadata.") (u "item." ++ key)) with false
      by reflexivity.
    replace (str_eqb (u "item." ++ key) (u "task.header")) with false
      by (symmetry; apply str_eqb_neq; discriminate).
    replace (str_eqb (u "item." ++ key) (u "item")) with false
      by (symmetry; apply str_eqb_neq; discriminate).
    rewrite startswith_app, drop_app_length.
    unfold get_default_str. now rewrite Hk.
  - reflexivity.
  - replace (startswith (u "question.") (u "item." ++ key)) with false
      by reflexivity.
    replace (startswith (u "metadata.") (u "item." ++ key)) with false
      by reflexivity.
    replace (str_eqb (u "item." ++ key) (u "task.header")) with false
      by (symmetry; apply str_eqb_neq; discriminate).
    replace (str_eqb (u "item." ++ key) (u "item")) with false
      by (symmetry; apply str_eqb_neq; discriminate).
    destruct item; try reflexivity. now destruct (Hd d).
Qed.

Lemma split_first_no_sep (c : char) (s : str) :
  existsb (N.eqb c) (fst (split_first c s)) = false.
Proof.
  induction s as [|x r IH]; simpl; [reflexivity|].
  destruct (N.eqb_spec x c) as [->|Hne]; [reflexivity|].
  destruct (split_first c r) as [a b]. simpl in *.
  rewrite IH. rewrite orb_false_r. now apply N.eqb_neq.
Qed.

(** Two units of fuel are enough for every expression: the base of a
    piped expression has no pipe. *)
Lemma eval_pipe_fuel_two (fuel : nat) (expr : str) ctx item :
  eval_pipe_fuel py_repr (S (S fuel)) expr ctx item
  = eval_pipe_fuel py_repr 2 expr ctx item.
Proof.
  rewrite !eval_pipe_fuel_S. cbv zeta.
  destruct (existsb (N.eqb (ch "|")) (strip expr)); [|reflexivity].
  pose proof (split_first_no_sep (ch "|") (strip expr)) as Hb.
  destruct (split_first (ch "|") (strip expr)) as [base op]. simpl in Hb.
  apply has_pipe_strip in Hb.
  now rewrite (eval_pipe_fuel_base fuel), (eval_pipe_fuel_base 0).
Qed.

(** [_eval_pipe] never runs out of fuel. *)
Lemma eval_pipe_fuel_enough (expr : str) ctx item :
  _eval_pipe py_repr expr ctx item = eval_pipe_fuel py_repr 2 expr ctx item.
Proof.
  unfold _eval_pipe. destruct expr as [|c r].
  - reflexivity.
  - simpl length. apply eval_pipe_fuel_two.
Qed.

Lemma correct_set_raises ctx (e : exn) :
  correct_set ctx = Raise e -> e = TypeError.
Proof.
  unfold correct_set, py_set, py_iter.
  destruct (py_or _ _); simpl; try congruence;
    destruct (forallb hashable _); congruence.
Qed.

Lemma eval_pipe_no_recursion_error (expr : str) ctx item :
  _eval_pipe py_repr expr ctx item <> Raise RecursionError.
Proof.
  rewrite eval_pipe_fuel_enough, eval_pipe_fuel_S. cbv zeta.
  destruct (existsb (N.eqb (ch "|")) (strip expr)); [|discriminate].
  pose proof (split_first_no_sep (ch "|") (strip expr)) as Hb.
  destruct (split_first (ch "|") (strip expr)) as [base op]. simpl in Hb.
  apply has_pipe_strip in Hb. rewrite (eval_pipe_fuel_base 0) by exact Hb.
  destruct (str_eqb (strip op) (u "is_correct")),
           (str_eqb (strip op) (u "if_correct"));
    try discriminate;
    (destruct (correct_set ctx) as [c|e] eqn:Hc; simpl;
     [discriminate|apply correct_set_raises in Hc; subst e; discriminate]).
Qed.

End Evaluator.

(** A placeholder match consumes at least its opening braces. *)
Lemma expr_match_shrinks (s group rest : str) :
  expr_match s = Some (group, rest) -> (length rest < length s)%nat.
Proof.
  unfold expr_match.
  destruct (startswith (u "{{") s) eqn:Hs; [|discriminate].
  destruct (nonempty _ && startswith (u "}}") _); [|discriminate].
  intros [= <- <-]. rewrite !length_drop.
  assert (2 <= length s)%nat
    by (destruct s as [|a [|b r]]; simpl in Hs;
        rewrite ?andb_false_r in Hs; try discriminate; simpl; lia).
  lia.
Qed.

(** The fuel of [_render_pattern] is enough. *)
Lemma expr_sub_fuel_enough (repl : str -> result str) :
  forall f1 f2 s, (length s < f1)%nat -> (length s < f2)%nat ->
    expr_sub_fuel repl f1 s = expr_sub_fuel repl f2 s.
Proof.
  induction f1 as [|f1 IH]; intros f2 s H1 H2; [lia|].
  destruct f2 as [|f2]; [lia|]. simpl.
  destruct (expr_match s) as [[group rest]|] eqn:E.
  - apply expr_match_shrinks in E.
    destruct (repl group); simpl; [|reflexivity].
    rewrite (IH f2 rest) by lia. reflexivity.
  - destruct s as [|c r]; [reflexivity|]. simpl in *.
    rewrite (IH f2 r) by lia. reflexivity.
Qed.

(** C10. For an expression [base|op] whose operator is neither
    [is_correct] nor [if_correct], the evaluator returns the value of
    [base]: the same result as evaluating [base] alone, which is a string
    and not an exception. *)
Theorem unknown_pipe_is_identity (py_repr : value -> str)
    (base op : str) (ctx : context) (item : value) :
  has_pipe base = false ->
  strip op <> u "is_correct" ->
  strip op <> u "if_correct" ->
  _eval_pipe py_repr (base ++ ch "|" :: op) ctx item
  = _eval_pipe py_repr base ctx item
  /\ _eval_pipe py_repr base ctx item
     = Ok (eval_base py_repr (strip base) ctx item).
Proof.
  intros Hb H1 H2. rewrite eval_pipe_piped by assumption.
  rewrite eval_pipe_base by assumption. cbv zeta.
  rewrite (str_eqb_neq _ _ H1), (str_eqb_neq _ _ H2). auto.
Qed.

Lemma unknown_pipe_is_identity_witness :
  _eval_pipe repr_unused (u " question.name " ++ ch "|" :: u " upper | x")
    (mk_context [(u "name", VS "Task 1")] [] []) VNone
  = _eval_pipe repr_unused (u " question.name ")
      (mk_context [(u "name", VS "Task 1")] [] []) VNone
  /\ _eval_pipe repr_unused (u " question.name ")
       (mk_context [(u "name", VS "Task 1")] [] []) VNone
     = Ok (u "Task 1").
Proof.
  apply (unknown_pipe_is_identity repr_unused (u " question.name ")
           (u " upper | x") (mk_context [(u "name", VS "Task 1")] [] [])
           VNone).
  - reflexivity.
  - vm_compute. discriminate.
  - vm_compute. discriminate.
Defined.

(** C8 (amended). An unresolved lookup evaluates to the empty string: a
    pipe-free expression whose base form is unknown, whose question,
    metadata or item field is missing, or that refers to [item] outside a
    loop, gives [''].  Under a pipe the operator is applied to that empty
    string: an unknown operator gives ['']; when the question's
    [correct_answers] can be made a set, [if_correct] gives [''] and
    [is_correct] gives ['+'] exactly when the empty string is one of the
    correct answers. *)
Theorem unresolved_lookup_is_empty (py_repr : value -> str)
    (base : str) (ctx : context) (item : value) :
  has_pipe base = false ->
  unresolved ctx item (strip base) ->
  _eval_pipe py_repr base ctx item = Ok []
  /\ (forall op, strip op <> u "is_correct" -> strip op <> u "if_correct" ->
        _eval_pipe py_repr (base ++ ch "|" :: op) ctx item = Ok [])
  /\ (forall op correct, correct_set ctx = Ok correct ->
        strip op = u "if_correct" ->
        _eval_pipe py_repr (base ++ ch "|" :: op) ctx item = Ok [])
  /\ (forall op correct, correct_set ctx = Ok correct ->
        strip op = u "is_correct" ->
        _eval_pipe py_repr (base ++ ch "|" :: op) ctx item
        = Ok (if str_in [] correct then u "+" else [])).
Proof.
  intros Hb Hu.
  pose proof (eval_base_unresolved py_repr ctx item _ Hu) as Hv.
  repeat split.
  - rewrite eval_pipe_base by assumption. now rewrite Hv.
  - intros op H1 H2. rewrite eval_pipe_piped by assumption. cbv zeta.
    rewrite (str_eqb_neq _ _ H1), (str_eqb_neq _ _ H2). now rewrite Hv.
  - intros op correct Hc Hop. rewrite eval_pipe_piped by assumption.
    cbv zeta. rewrite Hop, Hc, Hv. simpl.
    now destruct (str_in [] correct).
  - intros op correct Hc Hop. rewrite eval_pipe_piped by assumption.
    cbv zeta. rewrite Hop, Hc, Hv. reflexivity.
Qed.

Lemma unresolved_lookup_is_empty_witness :
  _eval_pipe repr_unused (u " question.score ")
    (mk_context three_answers [] []) VNone = Ok []
  /\ (forall op, strip op <> u "is_correct" -> strip op <> u "if_correct" ->
        _eval_pipe repr_unused (u " question.score " ++ ch "|" :: op)
          (mk_context three_answers [] []) VNone = Ok []).
Proof.
  destruct (unresolved_lookup_is_empty repr_unused (u " question.score ")
              (mk_context three_answers [] []) VNone) as (H1 & H2 & _).
  - reflexivity.
  - apply (missing_question_field _ _ (u "score")). reflexivity.
  - split; assumption.
Defined.

(** C8 (counterexample). The base form [foo] is unknown, yet
    [foo|is_correct] evaluates to ['+'] for a question whose correct
    answers contain the empty string, in [_eval_pipe] and in a rendered
    line; and [foo|if_correct] raises [TypeError] when [correct_answers]
    holds an unhashable element. *)
Lemma unknown_base_under_is_correct :
  unresolved (mk_context blank_correct_question [] []) VNone (u "foo")
  /\ _eval_pipe repr_unused (u "foo|is_correct")
       (mk_context blank_correct_question [] []) VNone = Ok (u "+")
  /\ render_question_html repr_unused int_of_decimal_literal
       (VDict (preset [line_block "{{foo|is_correct}}"]))
       blank_correct_question [] 1
     = Ok (u "<div class='line'>+</div>")
  /\ _eval_pipe repr_unused (u "foo|if_correct")
       (mk_context nested_correct_question [] []) VNone = Raise TypeError.
Proof.
  split; [|repeat split; vm_compute; reflexivity].
  apply unknown_base_form; try reflexivity; discriminate.
Qed.

(* ================================================================== *)
(** ** The sanitizer *)

Lemma find_sub_length (needle s a b : str) :
  find_sub needle s = Some (a, b) -> (length b <= length s)%nat.
Proof.
  revert a b. induction s as [|c r IH]; intros a b; simpl.
  - destruct (startswith needle []); [|discriminate].
    intros [= <- <-]. rewrite length_drop. simpl. lia.
  - destruct (startswith needle (c :: r)).
    + intros [= <- <-]. rewrite length_drop. simpl. lia.
    + destruct (find_sub needle r) as [[a' b']|] eqn:E; [|discriminate].
      intros [= <- <-]. specialize (IH _ _ eq_refl). lia.
Qed.

(** A CDATA match consumes at least its opening marker. *)
Lemma cdata_match_shrinks (s repl rest : str) :
  cdata_match s = Some (repl, rest) -> (length rest < length s)%nat.
Proof.
  unfold cdata_match.
  destruct (startswith (u "<![CDATA[") s) eqn:Hs; [|discriminate].
  destruct (find_sub (u "]]>") (drop 9 s)) as [[a b]|] eqn:E; [|discriminate].
  intros [= <- <-]. apply find_sub_length in E.
  rewrite length_drop in E. destruct s; [discriminate|]. simpl in *. lia.
Qed.

(** With a pattern that consumes characters the scan ends before the fuel
    does: more fuel gives the same result. *)
Lemma re_sub_fuel_enough (match_at : str -> option (str * str)) :
  (forall s repl rest,
     match_at s = Some (repl, rest) -> (length rest < length s)%nat) ->
  forall f1 f2 s, (length s < f1)%nat -> (length s < f2)%nat ->
    re_sub_fuel match_at f1 s = re_sub_fuel match_at f2 s.
Proof.
  intros Hshrink. induction f1 as [|f1 IH]; intros f2 s H1 H2; [lia|].
  destruct f2 as [|f2]; [lia|]. simpl.
  destruct (match_at s) as [[repl rest]|] eqn:E.
  - apply Hshrink in E. f_equal. apply IH; lia.
  - destruct s as [|c r]; [reflexivity|]. simpl in *. f_equal. apply IH; lia.
Qed.

(** Where the pattern matches nowhere, the substitution changes nothing. *)
Lemma re_sub_fuel_no_match (match_at : str -> option (str * str))
    (fuel : nat) (s : str) :
  re_search match_at s = false -> re_sub_fuel match_at fuel s = s.
Proof.
  revert fuel. induction s as [|c r IH]; intros fuel H;
    destruct fuel as [|f]; try reflexivity; simpl in *;
    destruct (match_at _); try discriminate; try reflexivity.
  now rewrite IH.
Qed.

(** C7 (counterexample). The first pass joins the text around a CDATA
    block into a new CDATA block, which the second pass replaces. *)
Lemma clean_not_idempotent :
  clean_xml_file nested_cdata = u "<![CDATA[x]]>"
  /\ clean_xml_file (clean_xml_file nested_cdata) = u "x"
  /\ clean_xml_file (clean_xml_file nested_cdata)
     <> clean_xml_file nested_cdata.
Proof. repeat split; vm_compute; (reflexivity || discriminate). Qed.

(** The fuel of [clean_xml_file] is enough. *)
Corollary clean_xml_file_fuel (fuel : nat) (s : str) :
  (length s < fuel)%nat ->
  re_sub_fuel cdata_match fuel s = re_sub cdata_match s.
Proof.
  intros H. unfold re_sub.
  apply (re_sub_fuel_enough cdata_match cdata_match_shrinks); lia.
Qed.

Lemma startswith_ci_nonempty (p s : str) :
  p <> [] -> startswith_ci p s = true -> s <> [].
Proof. destruct p, s; simpl; congruence. Qed.

(** A tag match consumes at least the opening bracket. *)
Lemma tag_match_shrinks (p : tag_pattern) (s repl rest : str) :
  tag_match p s = Some (repl, rest) -> (length rest < length s)%nat.
Proof.
  assert (Hopen : forall name,
            open_tag_match name s = Some (repl, rest) ->
            (length rest < length s)%nat).
  { intros name. unfold open_tag_match.
    destruct (startswith_ci (ch "<" :: name) s) eqn:Hs; [|discriminate].
    destruct (find_sub [ch ">"] (drop (S (length name)) s))
      as [[a b]|] eqn:E; [|discriminate].
    intros [= <- <-]. apply find_sub_length in E.
    rewrite length_drop in E.
    apply startswith_ci_nonempty in Hs; [|discriminate].
    destruct s; [congruence|]. simpl in *. lia. }
  destruct p as [name|name|name]; unfold tag_match; cbv zeta;
    [apply Hopen | apply Hopen |].
  destruct (startswith_ci (u "</" ++ name ++ u ">") s) eqn:Hs;
    [|discriminate].
  intros [= <- <-]. rewrite length_drop.
  apply startswith_ci_nonempty in Hs; [|simpl; discriminate].
  destruct s; [congruence|]. rewrite !length_app. simpl. lia.
Qed.

(** The fuel of the tag substitutions of [replace_cdata] is enough. *)
Corollary tag_sub_fuel (p : tag_pattern) (fuel : nat) (s : str) :
  (length s < fuel)%nat ->
  re_sub_fuel (tag_match p) fuel s = re_sub (tag_match p) s.
Proof.
  intros H. unfold re_sub.
  apply (re_sub_fuel_enough (tag_match p) (tag_match_shrinks p)); lia.
Qed.

(* ================================================================== *)
(** ** The type extractors *)

Lemma dict_mem_set_same {V : Type} (k : str) (v : V) (d : list (str * V)) :
  dict_mem k (dict_set k v d) = true.
Proof.
  unfold dict_mem. induction d as [|[k0 v0] r IH]; simpl.
  - now rewrite str_eqb_refl.
  - destruct (str_eqb k0 k) eqn:E; simpl.
    + now rewrite str_eqb_refl.
    + now rewrite E.
Qed.

Lemma dict_mem_set_other {V : Type} (k x : str) (v : V)
    (d : list (str * V)) :
  dict_mem x d = true -> dict_mem x (dict_set k v d) = true.
Proof.
  unfold dict_mem. induction d as [|[k0 v0] r IH]; simpl; [discriminate|].
  destruct (str_eqb k0 x) eqn:Ex.
  - intros _. destruct (str_eqb k0 k) eqn:Ek; simpl.
    + apply str_eqb_eq in Ex, Ek. subst. now rewrite str_eqb_refl.
    + now rewrite Ex.
  - intros H. destruct (str_eqb k0 k) eqn:Ek; simpl.
    + apply str_eqb_eq in Ek. subst k0. now rewrite Ex.
    + rewrite Ex. now apply IH.
Qed.

Lemma dict_mem_In {V : Type} (x : str) (d : list (str * V)) :
  dict_mem x d = true <-> In x (map fst d).
Proof.
  unfold dict_mem. induction d as [|[k0 v0] r IH]; simpl.
  - split; [discriminate | tauto].
  - destruct (str_eqb k0 x) eqn:E.
    + apply str_eqb_eq in E. tauto.
    + split.
      * intros H. right. now apply IH.
      * intros [H|H]; [|now apply IH].
        subst. now rewrite str_eqb_refl in E.
Qed.

(** Every key of [answer_dict] is one of the [truefalse] answers. *)
Lemma truefalse_answers_complete (answer_dict : list (str * bool)) (x : str) :
  dict_mem x answer_dict = true -> In x (truefalse_answers answer_dict).
Proof.
  intros H. unfold truefalse_answers.
  destruct (str_eqb x Verno) eqn:E1.
  { apply str_eqb_eq in E1. subst. rewrite H. now left. }
  apply in_or_app. right.
  destruct (str_eqb x Neverno) eqn:E2.
  { apply str_eqb_eq in E2. subst. rewrite H. now left. }
  apply in_or_app. right.
  apply filter_In. split; [now apply dict_mem_In|].
  now rewrite E1, E2.
Qed.

Section Extractors.

Variable py_float : str -> option spec_float.
Variable py_lower : str -> str.


(** In the [multichoice] loop every correct answer is an answer. *)
Lemma multichoice_loop_subset (els : list ET.element) st st' :
  for_loop (multichoice_body py_float) els st = Ok st' ->
  incl (snd st) (fst st) -> incl (snd st') (fst st').
Proof.
  intros Hrun Hst.
  apply (for_loop_invariant (fun s => incl (snd s) (fst s))
           (multichoice_body py_float) els) with (s := st); auto.
  clear. intros [a c] x [a' c'] _ Hinv. unfold multichoice_body. simpl in *.
  destruct (nonempty _); [|now intros [= <- <-]].
  destruct (fraction_of py_float x) as [f|e]; simpl; [|discriminate].
  destruct (negb (float_eq_Z f 0)); intros [= <- <-]; simpl.
  - apply incl_app; [now apply incl_appl|apply incl_appr, incl_refl].
  - now apply incl_appl.
Qed.

(** The [multichoice] loop leaves a correct answer exactly when the state
    had one or an element is credited. *)
Lemma multichoice_loop_nonempty (els : list ET.element) :
  forall a c a' c',
  for_loop (multichoice_body py_float) els (a, c) = Ok (a', c') ->
  (c' <> [] <-> c <> [] \/ Exists (credited py_float (u "multichoice")) els).
Proof.
  induction els as [|x r IH]; intros a c a' c'; simpl.
  - intros [= <- <-]. rewrite Exists_nil. tauto.
  - intros Hrun. apply bind_Ok_inv in Hrun as ([a1 c1] & Hx & Hr).
    apply IH in Hr. rewrite Hr, Exists_cons. clear Hr IH.
    unfold multichoice_body, credited in *.
    destruct (nonempty _) eqn:En.
    + destruct (fraction_of py_float x) as [f|e]; simpl in Hx;
        [|discriminate].
      destruct (negb (float_eq_Z f 0)) eqn:Ef;
        injection Hx as <- <-.
      * split; [|intros _; left; now destruct c].
        intros _. right. left. split; [reflexivity|].
        exists f. split; [reflexivity|exact Ef].
      * split; [tauto|].
        intros [H|[(_ & f' & Hfe & Hf)|H]]; [now left| |now right].
        injection Hfe as <-. unfold counts_as_correct in Hf.
        simpl in Hf. congruence.
    + injection Hx as <- <-. split; [tauto|].
      intros [H|[(Hn & _)|H]]; [now left|discriminate|now right].
Qed.

(** In the [truefalse] loop every correct answer is a key of
    [answer_dict]. *)
Lemma truefalse_loop_subset (els : list ET.element) st st' :
  for_loop (truefalse_body py_float py_lower) els st = Ok st' ->
  (forall x, In x (snd st) -> dict_mem x (fst st) = true) ->
  forall x, In x (snd st') -> dict_mem x (fst st') = true.
Proof.
  intros Hrun Hst.
  apply (for_loop_invariant
           (fun s => forall x, In x (snd s) -> dict_mem x (fst s) = true)
           (truefalse_body py_float py_lower) els) with (s := st); auto.
  clear. intros [d c] e [d' c'] _ Hinv. unfold truefalse_body. simpl in *.
  destruct (nonempty _); [|now intros [= <- <-]].
  destruct (fraction_of py_float e) as [f|ex]; simpl; [|discriminate].
  destruct (float_eq_Z f 100); intros [= <- <-] x Hx.
  - apply in_app_or in Hx as [Hx|[<-|[]]].
    + now apply dict_mem_set_other, Hinv.
    + apply dict_mem_set_same.
  - now apply dict_mem_set_other, Hinv.
Qed.

Lemma truefalse_loop_nonempty (els : list ET.element) :
  forall d c d' c',
  for_loop (truefalse_body py_float py_lower) els (d, c) = Ok (d', c') ->
  (c' <> [] <-> c <> [] \/ Exists (credited py_float (u "truefalse")) els).
Proof.
  induction els as [|x r IH]; intros d c d' c'; simpl.
  - intros [= <- <-]. rewrite Exists_nil. tauto.
  - intros Hrun. apply bind_Ok_inv in Hrun as ([d1 c1] & Hx & Hr).
    apply IH in Hr. rewrite Hr, Exists_cons. clear Hr IH.
    unfold truefalse_body, credited in *.
    destruct (nonempty _) eqn:En.
    + destruct (fraction_of py_float x) as [f|e]; simpl in Hx;
        [|discriminate].
      destruct (float_eq_Z f 100) eqn:Ef; injection Hx as <- <-.
      * split; [|intros _; left; now destruct c].
        intros _. right. left. split; [reflexivity|].
        exists f. split; [reflexivity|exact Ef].
      * split; [tauto|].
        intros [H|[(_ & f' & Hfe & Hf)|H]]; [now left| |now right].
        injection Hfe as <-. unfold counts_as_correct in Hf.
        simpl in Hf. congruence.
    + injection Hx as <- <-. split; [tauto|].
      intros [H|[(Hn & _)|H]]; [now left|discriminate|now right].
Qed.

End Extractors.

(** C3 (amended). For an extracted [multichoice] or [truefalse] question
    every correct answer is one of the answers, and [correct_answers] is
    non-empty exactly when some answer element with a non-empty text is
    credited: fraction different from 0 for [multichoice], fraction equal
    to 100 for [truefalse]. *)
Theorem correct_answers_within_answers
    (py_float : str -> option spec_float) (py_lower : str -> str)
    (question_element : ET.element) (q : Question.t) :
  ET.get question_element (u "type") [] = u "multichoice"
  \/ ET.get question_element (u "type") [] = u "truefalse" ->
  _parse_question_element py_float py_lower question_element = Ok q ->
  incl (Question.correct_answers q) (Question.answers q)
  /\ (Question.correct_answers q <> [] <->
      Exists (credited py_float (ET.get question_element (u "type") []))
             (ET.findall (u "answer") question_element)).
Proof.
  intros Htype Hq. unfold _parse_question_element in Hq.
  destruct Htype as [Ht|Ht]; rewrite Ht in *.
  - change (str_eqb (u "multichoice") (u "multichoice")) with true in Hq.
    cbv iota in Hq.
    apply bind_Ok_inv in Hq as ([a c] & Hloop & Hq). injection Hq as <-.
    simpl. split.
    + apply (multichoice_loop_subset py_float _ _ _ Hloop).
      simpl. apply incl_refl.
    + rewrite (multichoice_loop_nonempty py_float _ _ _ _ _ Hloop). tauto.
  - change (str_eqb (u "truefalse") (u "multichoice")) with false in Hq.
    change (str_eqb (u "truefalse") (u "matching")) with false in Hq.
    change (str_eqb (u "truefalse") (u "shortanswer")) with false in Hq.
    change (str_eqb (u "truefalse") (u "truefalse")) with true in Hq.
    cbv iota in Hq.
    apply bind_Ok_inv in Hq as ([d c] & Hloop & Hq). injection Hq as <-.
    simpl. split.
    + intros x Hx. apply truefalse_answers_complete.
      apply (truefalse_loop_subset py_float py_lower _ _ _ Hloop);
        [intros ? []|exact Hx].
    + rewrite (truefalse_loop_nonempty py_float py_lower _ _ _ _ _ Hloop).
      tauto.
Qed.

Lemma correct_answers_within_answers_witness :
  incl [Verno] [Verno; Neverno]
  /\ ([Verno] <> [] <->
      Exists (credited float_of_int_literal (u "truefalse"))
        [answer_elem_of "100" "true"; answer_elem_of "0" "false"]).
Proof.
  apply (correct_answers_within_answers float_of_int_literal ascii_lower
           (ET.Element (u "question") [(u "type", u "truefalse")] None
              [answer_elem_of "100" "true"; answer_elem_of "0" "false"])
           (Question.mk (u "truefalse") (Some []) (Some []) (Some [])
              [Verno; Neverno] [Verno] [] [])).
  - right. reflexivity.
  - vm_compute. reflexivity.
Defined.

(** C3 (counterexample). A [truefalse] question whose answer [true] has
    the positive fraction 50 is extracted with no correct answer. *)
Lemma positive_fraction_without_correct_answer :
  ET.get half_credit_truefalse (u "type") [] = u "truefalse"
  /\ Exists (positive_fraction float_of_int_literal)
       (ET.findall (u "answer") half_credit_truefalse)
  /\ _parse_question_element float_of_int_literal ascii_lower
       half_credit_truefalse
     = Ok (Question.mk (u "truefalse") (Some []) (Some []) (Some [])
             [Verno; Neverno] [] [] []).
Proof.
  split; [reflexivity|]. split; [|vm_compute; reflexivity].
  apply Exists_cons_hd. eexists. split; reflexivity.
Qed.

(* ================================================================== *)
(** ** The order of strings *)

Lemma str_ltb_irrefl (a : str) : str_ltb a a = false.
Proof.
  induction a as [|x a IH]; simpl; [reflexivity|].
  rewrite N.ltb_irrefl, N.eqb_refl. exact IH.
Qed.

Lemma str_ltb_trichotomy (a b : str) :
  str_ltb a b = true \/ a = b \/ str_ltb b a = true.
Proof.
  revert b. induction a as [|x a IH]; intros [|y b]; simpl; auto.
  destruct (N.lt_trichotomy x y) as [H|[->|H]].
  - left. apply N.ltb_lt in H. now rewrite H.
  - rewrite N.ltb_irrefl, N.eqb_refl. simpl.
    destruct (IH b) as [H|[->|H]]; auto.
  - right. right. apply N.ltb_lt in H. now rewrite H.
Qed.

Lemma str_ltb_trans (a b c : str) :
  str_ltb a b = true -> str_ltb b c = true -> str_ltb a c = true.
Proof.
  revert b c. induction a as [|x a IH]; intros [|y b] [|z c]; simpl;
    try discriminate; auto.
  intros H1 H2.
  apply orb_true_iff in H1 as [H1|H1]; apply orb_true_iff in H2 as [H2|H2].
  - apply N.ltb_lt in H1, H2.
    assert (H : (x <? z)%N = true) by (apply N.ltb_lt; lia). now rewrite H.
  - apply andb_true_iff in H2 as [H2 _]. apply N.eqb_eq in H2. subst.
    now rewrite H1.
  - apply andb_true_iff in H1 as [H1 _]. apply N.eqb_eq in H1. subst.
    now rewrite H2.
  - apply andb_true_iff in H1 as [E1 H1]. apply andb_true_iff in H2 as [E2 H2].
    apply N.eqb_eq in E1, E2. subst. rewrite N.eqb_refl. simpl.
    rewrite (IH b c H1 H2). apply orb_true_r.
Qed.

Lemma str_ltb_asym (a b : str) :
  str_ltb a b = true -> str_ltb b a = false.
Proof.
  intros H. destruct (str_ltb b a) eqn:E; [|reflexivity].
  pose proof (str_ltb_trans _ _ _ H E) as Hc.
  now rewrite str_ltb_irrefl in Hc.
Qed.

Lemma str_le_lt_eq (a b : str) : str_le a b <-> str_lt a b \/ a = b.
Proof.
  unfold str_le, str_lt. split.
  - intros H. destruct (str_ltb_trichotomy a b) as [?|[?|?]]; auto.
    congruence.
  - intros [H| ->]; [now apply str_ltb_asym | apply str_ltb_irrefl].
Qed.

Global Instance str_le_total : Total str_le.
Proof.
  intros a b. unfold str_le.
  destruct (str_ltb b a) eqn:E; [right; now apply str_ltb_asym | now left].
Qed.

Global Instance str_le_trans : Transitive str_le.
Proof.
  intros a b c H1 H2. apply str_le_lt_eq in H1, H2. apply str_le_lt_eq.
  destruct H1 as [H1| ->], H2 as [H2| ->]; auto.
  left. exact (str_ltb_trans _ _ _ H1 H2).
Qed.

(** A duplicate-free list sorted by [<=] is sorted by [<]. *)
Lemma StronglySorted_le_NoDup_lt (l : list str) :
  StronglySorted str_le l -> NoDup l -> StronglySorted str_lt l.
Proof.
  induction 1 as [|x l Hs IH Hx]; intros Hnd; constructor.
  - apply IH. now apply NoDup_cons_1_2 in Hnd.
  - apply NoDup_cons in Hnd as [Hnx _].
    rewrite Forall_forall in *. intros y Hy.
    destruct (proj1 (str_le_lt_eq x y) (Hx y Hy)) as [?| ->]; [assumption|].
    now destruct Hnx.
Qed.

(** [sorted(list(s))] is strictly ascending and holds the elements of
    [s]. *)
Lemma sorted_list_spec (answer_set : gset str) :
  StronglySorted str_lt (sorted_list answer_set)
  /\ NoDup (sorted_list answer_set)
  /\ forall a, In a (sorted_list answer_set) <-> a ∈ answer_set.
Proof.
  unfold sorted_list.
  assert (Hnd : NoDup (merge_sort str_le (elements answer_set))).
  { rewrite merge_sort_Permutation. apply NoDup_elements. }
  split; [|split].
  - apply StronglySorted_le_NoDup_lt; [|exact Hnd].
    apply StronglySorted_merge_sort; apply _.
  - exact Hnd.
  - intros a. rewrite <- list_elem_of_In, merge_sort_Permutation.
    apply elem_of_elements.
Qed.

(** One iteration of the [matching] loop. *)
Lemma matching_body_step (items : list (str * str))
    (answer_set : gset str) (e : ET.element) :
  matching_body (items, answer_set) e
  = match candidate_pair e with
    | Some p =>
        if retained p then (items ++ [p], {[ snd p ]} ∪ answer_set)
        else (items, answer_set)
    | None => (items, answer_set)
    end.
Proof.
  unfold matching_body, candidate_pair.
  destruct (ET.find (u "answer") e); reflexivity.
Qed.

(** The [matching] loop appends the retained pairs and collects their
    answers. *)
Lemma matching_loop_spec (els : list ET.element) :
  forall (items : list (str * str)) (answer_set : gset str),
  fold_left matching_body els (items, answer_set)
  = (items ++ List.filter retained (omap candidate_pair els),
     answer_set
       ∪ list_to_set (map snd (List.filter retained
                                 (omap candidate_pair els)))).
Proof.
  induction els as [|e r IH]; intros items answer_set.
  - simpl. rewrite app_nil_r. f_equal. set_solver.
  - cbn [fold_left omap list_omap]. rewrite matching_body_step.
    destruct (candidate_pair e) as [p|]; [|apply IH].
    cbn [List.filter]. destruct (retained p); rewrite IH.
    + rewrite <- app_assoc. simpl. f_equal. set_solver.
    + reflexivity.
Qed.

(** C6. For an extracted [matching] question the pairs with an empty
    prompt or an empty answer are skipped, and [matching_answers] is
    strictly ascending, free of duplicates, and holds exactly the answer
    texts of the retained pairs. *)
Theorem matching_answers_sorted_unique
    (py_float : str -> option spec_float) (py_lower : str -> str)
    (question_element : ET.element) (q : Question.t) :
  ET.get question_element (u "type") [] = u "matching" ->
  _parse_question_element py_float py_lower question_element = Ok q ->
  Question.matching_items q = retained_pairs question_element
  /\ Forall (fun p => fst p <> [] /\ snd p <> [])
       (Question.matching_items q)
  /\ StronglySorted str_lt (Question.matching_answers q)
  /\ NoDup (Question.matching_answers q)
  /\ forall a, In a (Question.matching_answers q)
               <-> In a (map snd (Question.matching_items q)).
Proof.
  intros Ht Hq. unfold _parse_question_element in Hq. rewrite Ht in Hq.
  change (str_eqb (u "matching") (u "multichoice")) with false in Hq.
  change (str_eqb (u "matching") (u "matching")) with true in Hq.
  cbv iota in Hq. rewrite matching_loop_spec in Hq.
  injection Hq as <-. simpl.
  fold (retained_pairs question_element).
  destruct (sorted_list_spec
              (∅ ∪ list_to_set (map snd (retained_pairs question_element))))
    as (Hs & Hnd & Hin).
  repeat split; try assumption.
  - apply List.Forall_forall. intros [p a] Hp. unfold retained_pairs in Hp.
    apply filter_In in Hp as [_ Hp]. unfold retained in Hp. simpl in *.
    apply andb_true_iff in Hp as [H1 H2].
    split; intros ->; discriminate.
  - intros H. apply Hin in H. apply list_elem_of_In. set_solver.
  - intros H. apply Hin. apply list_elem_of_In in H. set_solver.
Qed.

Lemma matching_answers_sorted_unique_witness :
  [ (u "France", u "Paris"); (u "Italy", u "Rome");
    (u "Ile-de-France", u "Paris"); (u "Germany", u "Berlin") ]
  = retained_pairs capitals_matching
  /\ StronglySorted str_lt [u "Berlin"; u "Paris"; u "Rome"].
Proof.
  destruct (matching_answers_sorted_unique float_of_int_literal ascii_lower
              capitals_matching
              (Question.mk (u "matching") (Some []) (Some []) (Some [])
                 [] []
                 [ (u "France", u "Paris"); (u "Italy", u "Rome");
                   (u "Ile-de-France", u "Paris");
                   (u "Germany", u "Berlin") ]
                 [u "Berlin"; u "Paris"; u "Rome"]))
    as (H1 & _ & H2 & _).
  - reflexivity.
  - vm_compute. reflexivity.
  - split; [exact H1 | exact H2].
Defined.

(* ================================================================== *)
(** ** Grouping into courses *)

Lemma courses_from_spec (seen : bool) (ks : list kind) :
  courses_from seen ks
  = (categories_followed ks
     + if seen || question_before_category ks then 1 else 0)%nat.
Proof.
  revert seen. induction ks as [|k r IH]; intros seen; simpl.
  - now rewrite orb_false_r.
  - destruct k; rewrite IH; simpl.
    + rewrite orb_false_r. destruct seen, (question_before_category r); lia.
    + reflexivity.
    + now rewrite orb_true_r.
Qed.

Section Grouping.

Variable py_float : str -> option spec_float.
Variable py_lower : str -> str.

Lemma flush_length (st : walk) :
  open_course_nonempty st ->
  length (flush st)
  = (length (courses st) + if seen_question st then 1 else 0)%nat.
Proof.
  unfold open_course_nonempty, flush, seen_question, Course.len.
  intros H. destruct (current_course st) as [c|]; [|lia].
  specialize (H c eq_refl).
  destruct (Course.questions c); [congruence|].
  simpl. rewrite length_app. simpl. lia.
Qed.

(** One iteration of the loop, by the kind of the element. *)
Lemma walk_body_step (st st' : walk) (e : ET.element) :
  open_course_nonempty st ->
  walk_body py_float py_lower st e = Ok st' ->
  open_course_nonempty st'
  /\ match classify e with
     | ValidCategory =>
         courses st' = flush st /\ seen_question st' = false
     | IgnoredCategory => st' = st
     | AQuestion =>
         courses st' = courses st /\ seen_question st' = true
     end.
Proof.
  intros Hinv. unfold walk_body, classify.
  destruct (str_eqb (ET.get e (u "type") []) (u "category")).
  - destruct (_extract_course_name e) as [[|c r]|];
      intros [= <-]; auto.
    split; [intros c0; discriminate | split; reflexivity].
  - set (st1 := match last_category_name st, current_course st with
                | Some last, None =>
                    mk_walk (courses st) (Some (Course.mk last [])) None
                | _, _ => st
                end).
    assert (Hc : courses st1 = courses st).
    { unfold st1. destruct (last_category_name st), (current_course st);
        reflexivity. }
    destruct (current_course st1) as [course|];
      (destruct (_parse_question_element py_float py_lower e) as [q|ex];
       simpl; [|discriminate]); intros [= <-]; simpl;
      (split; [|split; [exact Hc|reflexivity]]);
      intros c0 [= <-]; unfold Course.add_question; cbn [Course.questions];
      intros Hnil; apply (f_equal (@length _)) in Hnil;
      rewrite length_app in Hnil; simpl in Hnil; lia.
Qed.

(** What the loop and the final flush produce from a state. *)
Lemma walk_count (els : list ET.element) :
  forall st st',
  open_course_nonempty st ->
  for_loop (walk_body py_float py_lower) els st = Ok st' ->
  length (flush st')
  = (length (courses st)
     + courses_from (seen_question st) (map classify els))%nat.
Proof.
  induction els as [|e r IH]; intros st st' Hinv Hrun; simpl in *.
  - injection Hrun as <-. now apply flush_length.
  - apply bind_Ok_inv in Hrun as (st1 & Hstep & Hrun).
    destruct (walk_body_step _ _ _ Hinv Hstep) as (Hinv1 & Hk).
    rewrite (IH st1 st' Hinv1 Hrun).
    destruct (classify e).
    + destruct Hk as (-> & ->). rewrite flush_length by assumption. lia.
    + now subst st1.
    + destruct Hk as (-> & ->). reflexivity.
Qed.

(** The loop returns when every question of the stream is extracted. *)
Lemma walk_total (els : list ET.element) :
  Forall (fun e => classify e = AQuestion ->
            exists q, _parse_question_element py_float py_lower e = Ok q)
         els ->
  forall st, exists st',
    for_loop (walk_body py_float py_lower) els st = Ok st'.
Proof.
  intros Hall. apply for_loop_total. intros st e He.
  rewrite List.Forall_forall in Hall. specialize (Hall e He).
  unfold walk_body, classify in *.
  destruct (str_eqb (ET.get e (u "type") []) (u "category")).
  - destruct (_extract_course_name e) as [[|c r]|]; eauto.
  - destruct (Hall eq_refl) as (q & ->).
    destruct (current_course _); simpl; eauto.
Qed.

End Grouping.

(** C5. For an input that parses and whose questions are all extracted,
    [parse_courses] returns as many courses as there are valid categories
    followed by at least one question before the next valid category or
    the end of the stream, plus one when a question precedes the first
    valid category; a valid category without such a question adds no
    course. *)
Theorem parse_courses_count
    (py_float : str -> option spec_float) (py_lower : str -> str)
    (fromstring : str -> option ET.element)
    (xml_content : str) (root : ET.element) :
  fromstring (clean_xml_file xml_content) = Some root ->
  Forall (fun e => classify e = AQuestion ->
            exists q, _parse_question_element py_float py_lower e = Ok q)
         (ET.findall (u "question") root) ->
  exists courses,
    parse_courses py_float py_lower fromstring (Content xml_content)
      = Ok courses
    /\ length courses
       = expected_courses (map classify (ET.findall (u "question") root)).
Proof.
  intros Hroot Hall. unfold parse_courses, group_elements. rewrite Hroot.
  destruct (walk_total py_float py_lower _ Hall (mk_walk [] None None))
    as (st' & Hrun).
  rewrite Hrun. simpl. eexists. split; [reflexivity|].
  assert (Hinit : open_course_nonempty (mk_walk [] None None))
    by (intros c; discriminate).
  rewrite (walk_count py_float py_lower _ _ _ Hinit Hrun).
  simpl. now rewrite courses_from_spec.
Qed.

Lemma parse_courses_count_witness :
  exists courses,
    parse_courses float_of_int_literal ascii_lower (parsed_as sample_bank)
      (Content (u "<quiz/>")) = Ok courses
    /\ length courses = 3%nat.
Proof.
  apply (parse_courses_count float_of_int_literal ascii_lower
           (parsed_as sample_bank) (u "<quiz/>") sample_bank).
  - reflexivity.
  - repeat constructor; intros _; eexists; vm_compute; reflexivity.
Defined.

(* ================================================================== *)
(** ** The flat list of questions *)

Lemma extend_loop_concat (courses : list Course.t) :
  forall all_questions,
  fold_left (fun all_questions course =>
               all_questions ++ Course.questions course)
            courses all_questions
  = all_questions ++ flatten_courses courses.
Proof.
  unfold flatten_courses.
  induction courses as [|c r IH]; intros acc; simpl.
  - now rewrite app_nil_r.
  - rewrite IH. now rewrite <- app_assoc.
Qed.

Lemma flatten_courses_app (a b : list Course.t) :
  flatten_courses (a ++ b) = flatten_courses a ++ flatten_courses b.
Proof. unfold flatten_courses. now rewrite map_app, concat_app. Qed.

(** One iteration of the loop adds the question it extracts, and nothing
    else, to the questions of the courses. *)
Lemma walk_body_questions py_float py_lower (st st' : walk)
    (e : ET.element) :
  open_course_nonempty st ->
  walk_body py_float py_lower st e = Ok st' ->
  if str_eqb (ET.get e (u "type") []) (u "category")
  then flatten_courses (flush st') = flatten_courses (flush st)
  else exists q, _parse_question_element py_float py_lower e = Ok q
       /\ flatten_courses (flush st') = flatten_courses (flush st) ++ [q].
Proof.
  intros Hinv. unfold walk_body.
  destruct (str_eqb (ET.get e (u "type") []) (u "category")).
  - destruct (_extract_course_name e) as [[|c r]|]; intros [= <-]; auto.
  - unfold open_course_nonempty in Hinv. cbv zeta.
    destruct (_parse_question_element py_float py_lower e) as [q|ex].
    2:{ destruct (last_category_name st), (current_course st) as [c|] eqn:Ec;
          cbn [current_course]; rewrite ?Ec; discriminate. }
    assert (Hopen : forall c, current_course st = Some c ->
              flatten_courses (flush st)
              = flatten_courses (courses st) ++ Course.questions c).
    { intros c Ec. specialize (Hinv c Ec). unfold flush, Course.len.
      rewrite Ec. destruct (Course.questions c) eqn:Eq; [congruence|].
      simpl. rewrite flatten_courses_app. unfold flatten_courses. simpl.
      now rewrite Eq, app_nil_r. }
    assert (Hclosed : current_course st = None ->
              flatten_courses (flush st) = flatten_courses (courses st)).
    { intros Ec. unfold flush. now rewrite Ec. }
    assert (Hnew : forall cs c,
              flatten_courses
                (flush (mk_walk cs (Some (Course.add_question c q)) None))
              = flatten_courses cs ++ Course.questions c ++ [q]
              /\ forall l,
                flatten_courses
                  (flush (mk_walk cs (Some (Course.add_question c q))
                            (Some l)))
                = flatten_courses cs ++ Course.questions c ++ [q]).
    { intros cs c. unfold flush, Course.len. cbn [current_course courses].
      unfold Course.add_question. cbn [Course.questions].
      rewrite length_app. simpl.
      replace (0 <? length (Course.questions c) + 1)%nat with true
        by (symmetry; apply Nat.ltb_lt; lia).
      rewrite flatten_courses_app. unfold flatten_courses. simpl.
      rewrite app_nil_r. auto. }
    destruct (last_category_name st) as [last|] eqn:El,
             (current_course st) as [c|] eqn:Ec;
      cbn [current_course courses last_category_name]; rewrite ?Ec;
      simpl; intros [= <-]; exists q; (split; [reflexivity|]).
    + rewrite (Hopen c eq_refl), <- app_assoc. rewrite El.
      apply (proj2 (Hnew _ _)).
    + rewrite (Hclosed eq_refl). apply (proj1 (Hnew _ (Course.mk last []))).
    + rewrite (Hopen c eq_refl), <- app_assoc. rewrite El.
      apply (proj1 (Hnew _ _)).
    + rewrite (Hclosed eq_refl).
      apply (proj1 (Hnew _ (Course.mk uncategorized []))).
Qed.

(** The courses hold the questions of the stream, each once, in document
    order. *)
Lemma group_elements_questions py_float py_lower
    (all_elements : list ET.element) (courses : list Course.t) :
  group_elements py_float py_lower all_elements = Ok courses ->
  extract_questions py_float py_lower all_elements
  = Ok (flatten_courses courses).
Proof.
  unfold group_elements. intros H.
  apply bind_Ok_inv in H as (st' & Hrun & [= <-]).
  assert (Hgen : forall els st,
            open_course_nonempty st ->
            for_loop (walk_body py_float py_lower) els st = Ok st' ->
            exists qs, extract_questions py_float py_lower els = Ok qs
              /\ flatten_courses (flush st')
                 = flatten_courses (flush st) ++ qs).
  { clear. induction els as [|e r IH]; intros st Hinv Hrun; simpl in Hrun.
    - injection Hrun as <-. exists []. split; [reflexivity|].
      now rewrite app_nil_r.
    - apply bind_Ok_inv in Hrun as (st1 & Hstep & Hrun).
      destruct (walk_body_step py_float py_lower _ _ _ Hinv Hstep)
        as (Hinv1 & _).
      destruct (IH st1 Hinv1 Hrun) as (qs & Hqs & Hflat).
      pose proof (walk_body_questions py_float py_lower _ _ _ Hinv Hstep)
        as Hq.
      unfold extract_questions in *. cbn [List.filter].
      destruct (str_eqb (ET.get e (u "type") []) (u "category"));
        cbn [negb].
      + exists qs. split; [exact Hqs|]. now rewrite Hflat, Hq.
      + destruct Hq as (q & Hpq & Hfq). cbn [map_result].
        rewrite Hpq, Hqs. exists (q :: qs). split; [reflexivity|].
        rewrite Hflat, Hfq, <- app_assoc. reflexivity. }
  destruct (Hgen all_elements (mk_walk [] None None)) as (qs & Hqs & Hflat);
    [intros c; discriminate | exact Hrun |].
  rewrite Hqs. f_equal. now rewrite Hflat.
Qed.

(** C9. [parse] returns the concatenation, in course order, of the
    question lists of the courses that [parse_courses] returns, and fails
    with the same exception when [parse_courses] fails. *)
Theorem parse_is_flattened_parse_courses
    (py_float : str -> option spec_float) (py_lower : str -> str)
    (fromstring : str -> option ET.element) (file : file_state) :
  parse py_float py_lower fromstring file
  = match parse_courses py_float py_lower fromstring file with
    | Ok courses => Ok (flatten_courses courses)
    | Raise e => Raise e
    end.
Proof.
  unfold parse.
  destruct (parse_courses py_float py_lower fromstring file) as [cs|e];
    simpl; [|reflexivity].
  now rewrite extend_loop_concat.
Qed.

(* ================================================================== *)
(** ** The scenarios of the specification *)

(** A category [<root>/Course A] followed by two [shortanswer] questions
    gives one course of two questions; each question has the correct
    answer Paris, which is also its reference answer. *)
Example course_scenario :
  parse_courses float_of_int_literal ascii_lower
    (parsed_as
       (ET.Element (u "quiz") [] None
          [ category_of (CATEGORY_PREFIX ++ u "/Course A");
            capital_question "q1"; capital_question "q2" ]))
    (Content (u "<quiz/>"))
  = Ok [ Course.mk (u "Course A")
           [ Question.mk (u "shortanswer") (Some (u "Capital?"))
               (Some (u "Paris")) (Some (u "q1")) [] [u "Paris"] [] [];
             Question.mk (u "shortanswer") (Some (u "Capital?"))
               (Some (u "Paris")) (Some (u "q2")) [] [u "Paris"] [] [] ] ].
Proof. vm_compute. reflexivity. Qed.

(** A [truefalse] question with the answers true (100) and false (0). *)
Example truefalse_scenario :
  _parse_question_element float_of_int_literal ascii_lower
    (ET.Element (u "question") [(u "type", u "truefalse")] None
       [ answer_elem_of "100" "true"; answer_elem_of "0" "false" ])
  = Ok (Question.mk (u "truefalse") (Some []) (Some []) (Some [])
          [Verno; Neverno] [Verno] [] []).
Proof. vm_compute. reflexivity. Qed.

(** A table over three answers, two of them correct: three rows, the
    marker in the second column of the first two. *)
Example table_scenario :
  render_question_html repr_unused int_of_decimal_literal
    (VDict (preset
       [ VDict [ (u "kind", VS "table"); (u "source", VS "answers_all");
                 (u "cols", VList [VS "{{item}}"; VS "{{item|is_correct}}"])
               ] ]))
    three_answers [] 1
  = Ok (u "<table><tbody><tr><td style=''>2</td><td style=''>+</td></tr><tr><td style=''>3</td><td style=''>+</td></tr><tr><td style=''>4</td><td style=''></td></tr></tbody></table>").
Proof. vm_compute. reflexivity. Qed.

(** The dash preset of [tests/test_template_v2.py]. *)
Example dash_preset_renders :
  render_question_html repr_unused int_of_decimal_literal
    (VDict (preset_dash_answer (u "essay_gigachat")))
    (sample_question "essay_gigachat") sample_metadata 1
  = Ok (join newline
          [ u "<div class='line'>- Задание 1 (ПК-1.3 – ИПК-1.3.3 desc)</div>";
            u "<div class='line'>Q? — A</div>" ]).
Proof. vm_compute. reflexivity. Qed.

(* ================================================================== *)
(** * Further properties of the code *)

(** ** [sanitize_filename] *)

Lemma lstrip_suffix (s : str) : exists w, s = w ++ lstrip s.
Proof.
  induction s as [|c r [w IH]]; simpl.
  - now exists [].
  - destruct (isspace c); [|now exists []].
    exists (c :: w). simpl. now rewrite <- IH.
Qed.

Lemma Forall_lstrip (P : char -> Prop) (s : str) :
  List.Forall P s -> List.Forall P (lstrip s).
Proof.
  intros H. destruct (lstrip_suffix s) as [w Hw]. rewrite Hw in H.
  now apply Forall_app in H as [_ H].
Qed.

Lemma Forall_strip (P : char -> Prop) (s : str) :
  List.Forall P s -> List.Forall P (strip s).
Proof.
  intros H. unfold strip, rstrip.
  apply List.Forall_rev, Forall_lstrip, List.Forall_rev.
  now apply Forall_lstrip.
Qed.

Lemma Forall_collapse_underscores (P : char -> Prop) (b : bool) (s : str) :
  List.Forall P s -> List.Forall P (collapse_underscores_aux b s).
Proof.
  intros H. revert b. induction H as [|c r Hc Hr IH]; intros b; simpl.
  - constructor.
  - destruct (N.eqb_spec c (ch "_")) as [->|Hne].
    + destruct b; [apply IH|]. constructor; [exact Hc|apply IH].
    + constructor; [exact Hc|apply IH].
Qed.

(** After [collapse_underscores_aux true] no underscore comes first. *)
Lemma collapse_true_head (s : str) :
  head (collapse_underscores_aux true s) <> Some (ch "_").
Proof.
  induction s as [|c r IH]; simpl; [discriminate|].
  destruct (N.eqb_spec c (ch "_")) as [->|Hne]; [exact IH|].
  simpl. congruence.
Qed.

Lemma collapse_true_false (t : str) :
  head t <> Some (ch "_") ->
  collapse_underscores_aux true t = collapse_underscores_aux false t.
Proof.
  destruct t as [|c r]; simpl; [reflexivity|].
  intros H. destruct (N.eqb_spec c (ch "_")) as [->|Hne]; [|reflexivity].
  now destruct H.
Qed.

Lemma collapse_underscores_idem (b : bool) (s : str) :
  collapse_underscores_aux false (collapse_underscores_aux b s)
  = collapse_underscores_aux b s.
Proof.
  revert b. induction s as [|c r IH]; intros b; simpl; [reflexivity|].
  destruct (N.eqb_spec c (ch "_")) as [->|Hne].
  - destruct b; [apply IH|]. simpl.
    rewrite (collapse_true_false _ (collapse_true_head r)).
    now rewrite IH.
  - simpl. destruct (N.eqb_spec c (ch "_")) as [E|_]; [contradiction|].
    now rewrite IH.
Qed.

(** No two underscores in a row after the collapse. *)
Lemma collapse_no_double (b : bool) (s : str) :
  has_double_underscore (collapse_underscores_aux b s) = false.
Proof.
  revert b. induction s as [|c r IH]; intros b; [reflexivity|].
  simpl collapse_underscores_aux.
  destruct (N.eqb_spec c (ch "_")) as [->|Hne].
  - destruct b; [apply IH|].
    pose proof (collapse_true_head r) as Hh. specialize (IH true).
    destruct (collapse_underscores_aux true r) as [|d t]; [reflexivity|].
    cbn [has_double_underscore] in *. rewrite IH.
    destruct (N.eqb_spec d (ch "_")) as [->|Hd]; [now destruct Hh|].
    now rewrite andb_false_r.
  - specialize (IH false).
    destruct (collapse_underscores_aux false r) as [|d t]; [reflexivity|].
    cbn [has_double_underscore] in *. rewrite IH.
    destruct (N.eqb_spec c (ch "_")) as [E|_]; [contradiction|reflexivity].
Qed.

Lemma lstrip_starts_nonspace (s : str) : starts_nonspace (lstrip s).
Proof.
  induction s as [|c r IH]; simpl; [exact I|].
  destruct (isspace c) eqn:E; [exact IH | exact E].
Qed.

Lemma lstrip_fix (s : str) : starts_nonspace s -> lstrip s = s.
Proof. destruct s as [|c r]; simpl; [reflexivity|]. now intros ->. Qed.

Lemma last_cons_nonempty {A : Type} (x : A) (l : list A) :
  l <> [] -> last (x :: l) = last l.
Proof. destruct l; [congruence | reflexivity]. Qed.

Lemma rstrip_ends_nonspace (s : str) : ends_nonspace (rstrip s).
Proof.
  unfold ends_nonspace. induction s as [|c r IH]; [exact I|].
  rewrite rstrip_cons. destruct (rstrip r) as [|y t] eqn:E.
  - destruct (isspace c) eqn:Ec; simpl; auto.
  - rewrite last_cons_nonempty by discriminate. exact IH.
Qed.

Lemma rstrip_fix (s : str) : ends_nonspace s -> rstrip s = s.
Proof.
  unfold ends_nonspace. induction s as [|c r IH]; [reflexivity|].
  rewrite rstrip_cons. destruct r as [|y t].
  - simpl. now intros ->.
  - rewrite last_cons_nonempty by discriminate.
    intros H. now rewrite (IH H).
Qed.

Lemma strip_starts_nonspace (s : str) : starts_nonspace (strip s).
Proof.
  unfold strip. rewrite <- lstrip_rstrip. apply lstrip_starts_nonspace.
Qed.

Lemma strip_ends_nonspace (s : str) : ends_nonspace (strip s).
Proof. apply rstrip_ends_nonspace. Qed.

(** A string that neither begins nor ends with a space is its own
    [strip]. *)
Lemma strip_fix (s : str) :
  starts_nonspace s -> ends_nonspace s -> strip s = s.
Proof.
  intros H1 H2. unfold strip. rewrite (lstrip_fix _ H1).
  now apply rstrip_fix.
Qed.

Lemma collapse_false_nil (s : str) :
  collapse_underscores_aux false s = [] -> s = [].
Proof.
  destruct s as [|c r]; simpl; [reflexivity|].
  destruct (c =? ch "_")%N; discriminate.
Qed.

Lemma collapse_true_nil (s : str) :
  collapse_underscores_aux true s = [] ->
  s = [] \/ last s = Some (ch "_").
Proof.
  induction s as [|c r IH]; simpl; [now left|].
  destruct (N.eqb_spec c (ch "_")) as [->|Hne]; [|discriminate].
  intros H. right. destruct (IH H) as [->|Hl]; [reflexivity|].
  destruct r; [discriminate|exact Hl].
Qed.

(** The collapse keeps the last character. *)
Lemma collapse_last (b : bool) (s : str) :
  collapse_underscores_aux b s <> [] ->
  last (collapse_underscores_aux b s) = last s.
Proof.
  revert b. induction s as [|c r IH]; intros b; simpl; [congruence|].
  destruct (N.eqb_spec c (ch "_")) as [->|Hne].
  - destruct b.
    + intros H. rewrite (IH true H).
      destruct r; [now destruct H | reflexivity].
    + intros _.
      destruct (collapse_underscores_aux true r) as [|d t] eqn:E.
      * destruct (collapse_true_nil r E) as [->|Hl]; [reflexivity|].
        destruct r; [discriminate|]. simpl. now rewrite Hl.
      * rewrite last_cons_nonempty by discriminate.
        rewrite <- E, IH by (rewrite E; discriminate).
        destruct r; [discriminate | reflexivity].
  - intros _.
    destruct (collapse_underscores_aux false r) as [|d t] eqn:E.
    + now rewrite (collapse_false_nil r E).
    + rewrite last_cons_nonempty by discriminate.
      rewrite <- E, IH by (rewrite E; discriminate).
      destruct r; [discriminate | reflexivity].
Qed.

Lemma replace_invalid_valid (s : str) :
  List.Forall (fun c => invalid_char c = false) (replace_invalid s).
Proof.
  unfold replace_invalid. apply List.Forall_forall. intros c Hc.
  apply in_map_iff in Hc as (x & <- & _).
  destruct (invalid_char x) eqn:E; [reflexivity | exact E].
Qed.

Lemma replace_invalid_fix (s : str) :
  List.Forall (fun c => invalid_char c = false) s -> replace_invalid s = s.
Proof.
  unfold replace_invalid. induction 1 as [|c r Hc _ IH]; simpl;
    [reflexivity|].
  now rewrite Hc, IH.
Qed.

(** The collapsed, stripped name before the default is applied. *)
Lemma sanitized_core (filename : str) :
  let core := collapse_underscores (strip (replace_invalid filename)) in
  List.Forall (fun c => invalid_char c = false) core
  /\ has_double_underscore core = false
  /\ starts_nonspace core /\ ends_nonspace core.
Proof.
  cbv zeta. unfold collapse_underscores.
  set (t := strip (replace_invalid filename)).
  split; [|split; [|split]].
  - apply Forall_collapse_underscores, Forall_strip, replace_invalid_valid.
  - apply collapse_no_double.
  - pose proof (strip_starts_nonspace (replace_invalid filename)) as H.
    fold t in H. destruct t as [|c r]; simpl; [exact I|].
    simpl in H. destruct (N.eqb_spec c (ch "_")) as [->|_]; exact H.
  - pose proof (strip_ends_nonspace (replace_invalid filename)) as H.
    fold t in H. unfold ends_nonspace in *.
    destruct (collapse_underscores_aux false t) eqn:E; [exact I|].
    rewrite <- E, collapse_last by (rewrite E; discriminate). exact H.
Qed.

(** X1. A sanitized file name is never empty, holds none of the
    characters that Windows forbids, and has no two underscores in a
    row. *)
Theorem sanitize_filename_safe (filename : str) :
  sanitize_filename filename <> []
  /\ List.Forall (fun c => invalid_char c = false)
       (sanitize_filename filename)
  /\ has_double_underscore (sanitize_filename filename) = false.
Proof.
  destruct (sanitized_core filename) as (H1 & H2 & _). cbv zeta in *.
  unfold sanitize_filename.
  destruct (collapse_underscores (strip (replace_invalid filename))).
  - split; [discriminate|]. split; [|reflexivity].
    vm_compute. repeat constructor.
  - split; [discriminate|]. split; assumption.
Qed.

(** X2. Sanitizing a file name twice gives the same name as sanitizing
    it once. *)
Theorem sanitize_filename_idempotent (filename : str) :
  sanitize_filename (sanitize_filename filename)
  = sanitize_filename filename.
Proof.
  destruct (sanitized_core filename) as (H1 & H2 & H3 & H4). cbv zeta in *.
  assert (Hs : sanitize_filename filename
               = match collapse_underscores (strip (replace_invalid filename))
                 with
                 | [] => u "Без_названия"
                 | core => core
                 end).
  { unfold sanitize_filename. cbv zeta.
    now destruct (collapse_underscores (strip (replace_invalid filename))). }
  remember (collapse_underscores (strip (replace_invalid filename)))
    as core eqn:Hcore.
  rewrite Hs. destruct core as [|c r]; [vm_compute; reflexivity|].
  unfold sanitize_filename.
  rewrite (replace_invalid_fix _ H1), (strip_fix _ H3 H4).
  assert (Hc : collapse_underscores (c :: r) = c :: r).
  { rewrite Hcore. unfold collapse_underscores.
    apply collapse_underscores_idem. }
  now rewrite Hc.
Qed.

(* ================================================================== *)
(** ** Escaping *)

Lemma in_replace_char (c d : char) (rep s : str) :
  In d (replace_char c rep s) -> In d rep \/ (In d s /\ d <> c).
Proof.
  unfold replace_char. intros H. apply in_flat_map in H as (x & Hx & Hd).
  destruct (N.eqb_spec x c) as [->|Hne]; [now left|].
  right. destruct Hd as [<-|[]]. auto.
Qed.

Lemma replace_char_absent (c : char) (rep s : str) :
  ~ In c s -> replace_char c rep s = s.
Proof.
  unfold replace_char. induction s as [|x r IH]; simpl; [reflexivity|].
  intros H. destruct (N.eqb_spec x c) as [->|Hne]; [tauto|].
  simpl. rewrite IH; tauto.
Qed.

Lemma bracket_or_quote_cases (c : char) :
  bracket_or_quote c = true ->
  c = ch "<" \/ c = ch ">" \/ c = dquote \/ c = ch "'".
Proof.
  unfold bracket_or_quote. rewrite !orb_true_iff, !N.eqb_eq. tauto.
Qed.

Lemma markup_char_false (c : char) :
  markup_char c = false ->
  c <> ch "&" /\ c <> ch "<" /\ c <> ch ">" /\ c <> dquote /\ c <> ch "'".
Proof.
  unfold markup_char. rewrite !orb_false_iff, !N.eqb_neq. tauto.
Qed.

(** Five replacements in the order of [escape_xml_text] and of
    [html.escape] remove the brackets and the quotes, when the entity
    texts hold none of them. *)
Lemma five_replacements_no_markup (amp lt gt quot apos s : str) :
  List.Forall (fun c => bracket_or_quote c = false)
    (amp ++ lt ++ gt ++ quot ++ apos) ->
  List.Forall (fun c => bracket_or_quote c = false)
    (replace_char (ch "'") apos
       (replace_char dquote quot
          (replace_char (ch ">") gt
             (replace_char (ch "<") lt
                (replace_char (ch "&") amp s))))).
Proof.
  intros Hrep. rewrite !Forall_app in Hrep.
  destruct Hrep as (Ha & Hl & Hg & Hq & Hp).
  rewrite List.Forall_forall in *.
  intros c Hc. destruct (bracket_or_quote c) eqn:E; [|reflexivity].
  exfalso.
  apply in_replace_char in Hc as [Hc|[Hc N5]];
    [specialize (Hp c Hc); congruence|].
  apply in_replace_char in Hc as [Hc|[Hc N4]];
    [specialize (Hq c Hc); congruence|].
  apply in_replace_char in Hc as [Hc|[Hc N3]];
    [specialize (Hg c Hc); congruence|].
  apply in_replace_char in Hc as [Hc|[Hc N2]];
    [specialize (Hl c Hc); congruence|].
  apply bracket_or_quote_cases in E. tauto.
Qed.

Lemma five_replacements_fix (amp lt gt quot apos s : str) :
  List.Forall (fun c => markup_char c = false) s ->
  replace_char (ch "'") apos
    (replace_char dquote quot
       (replace_char (ch ">") gt
          (replace_char (ch "<") lt
             (replace_char (ch "&") amp s)))) = s.
Proof.
  intros H. rewrite List.Forall_forall in H.
  assert (Hn : forall c, markup_char c = true -> ~ In c s).
  { intros c Hc Hin. specialize (H c Hin). congruence. }
  rewrite (replace_char_absent (ch "&")) by (now apply Hn).
  rewrite (replace_char_absent (ch "<")) by (now apply Hn).
  rewrite (replace_char_absent (ch ">")) by (now apply Hn).
  rewrite (replace_char_absent dquote) by (now apply Hn).
  now rewrite (replace_char_absent (ch "'")) by (now apply Hn).
Qed.

Lemma escape_xml_text_brackets (text : str) :
  List.Forall (fun c => bracket_or_quote c = false) (escape_xml_text text).
Proof.
  unfold escape_xml_text. destruct text as [|c r]; [constructor|].
  apply five_replacements_no_markup. vm_compute. repeat constructor.
Qed.

(** X3. The text that [escape_xml_text] returns holds no angle bracket
    and no quote, and a text without any of the five special characters
    is returned unchanged. *)
Theorem escape_xml_text_no_markup (text : str) :
  List.Forall (fun c => bracket_or_quote c = false) (escape_xml_text text)
  /\ (List.Forall (fun c => markup_char c = false) text ->
      escape_xml_text text = text).
Proof.
  split; [apply escape_xml_text_brackets|].
  unfold escape_xml_text. destruct text as [|c r]; [auto|].
  apply five_replacements_fix.
Qed.

Lemma escape_xml_text_no_markup_witness :
  escape_xml_text (u "Excel: A1 + B2") = u "Excel: A1 + B2".
Proof.
  apply (escape_xml_text_no_markup (u "Excel: A1 + B2")).
  vm_compute. repeat constructor.
Defined.

(* ================================================================== *)
(** ** CDATA blocks *)

Lemma startswith3 (a b d : char) (s : str) :
  startswith [a; b; d] s
  = match s with
    | x :: y :: z :: _ => (a =? x)%N && ((b =? y)%N && (d =? z)%N)
    | _ => false
    end.
Proof.
  destruct s as [|x [|y [|z r]]]; simpl; rewrite ?andb_false_r, ?andb_true_r;
    reflexivity.
Qed.

(** The closing marker appended to a text without one is the first
    closing marker. *)
Lemma find_sub_close_append (c rest : str) :
  find_sub (u "]]>") c = None ->
  find_sub (u "]]>") (c ++ u "]]>" ++ rest) = Some (c, rest).
Proof.
  induction c as [|x c IH]; [reflexivity|].
  intros H. cbn [find_sub] in H.
  destruct (startswith (u "]]>") (x :: c)) eqn:Hs; [discriminate|].
  destruct (find_sub (u "]]>") c) as [[a b]|] eqn:Hf; [discriminate|].
  specialize (IH eq_refl).
  change ((x :: c) ++ u "]]>" ++ rest) with (x :: (c ++ u "]]>" ++ rest)).
  cbn [find_sub]. rewrite IH.
  replace (startswith (u "]]>") (x :: c ++ u "]]>" ++ rest)) with false;
    [reflexivity|].
  symmetry. change (u "]]>") with [ch "]"; ch "]"; ch ">"] in *.
  rewrite startswith3 in *. destruct c as [|y [|z c]].
  - simpl app. destruct (ch "]" =? x)%N; reflexivity.
  - simpl app. destruct (ch "]" =? x)%N, (ch "]" =? y)%N; reflexivity.
  - exact Hs.
Qed.

Lemma re_sub_fuel_nil (match_at : str -> option (str * str)) (fuel : nat) :
  match_at [] = None -> re_sub_fuel match_at fuel [] = [].
Proof. intros H. destruct fuel; simpl; [reflexivity|]. now rewrite H. Qed.

(** A text without an opening bracket holds no CDATA block. *)
Lemma no_bracket_no_cdata (t : str) :
  ~ In (ch "<") t -> re_search cdata_match t = false.
Proof.
  induction t as [|c r IH]; [reflexivity|].
  intros H. cbn [re_search]. unfold cdata_match at 1.
  replace (startswith (u "<![CDATA[") (c :: r)) with false.
  - apply IH. intros Hin. apply H. now right.
  - symmetry. change (u "<![CDATA[") with (ch "<" :: u "![CDATA[").
    cbn [startswith].
    destruct (N.eqb_spec (ch "<") c) as [<-|_]; [|reflexivity].
    destruct H. now left.
Qed.

(** A text without the opening marker holds no CDATA block. *)
Lemma no_opener_no_cdata (s : str) :
  find_sub (u "<![CDATA[") s = None -> re_search cdata_match s = false.
Proof.
  induction s as [|c r IH]; [reflexivity|].
  intros H. cbn [find_sub] in H. cbn [re_search]. unfold cdata_match at 1.
  destruct (startswith (u "<![CDATA[") (c :: r)); [discriminate|].
  destruct (find_sub (u "<![CDATA[") r) as [[a b]|]; [discriminate|].
  now apply IH.
Qed.

Lemma clean_no_cdata (s : str) :
  re_search cdata_match s = false -> clean_xml_file s = s.
Proof.
  intros H. unfold clean_xml_file. destruct s as [|c r]; [reflexivity|].
  unfold re_sub. now apply re_sub_fuel_no_match.
Qed.

Lemma re_sub_fuel_S (match_at : str -> option (str * str)) (fuel : nat)
    (s : str) :
  re_sub_fuel match_at (S fuel) s
  = match match_at s with
    | Some (repl, rest) => repl ++ re_sub_fuel match_at fuel rest
    | None =>
        match s with
        | [] => []
        | c :: r => c :: re_sub_fuel match_at fuel r
        end
    end.
Proof. reflexivity. Qed.

Lemma clean_xml_file_nonempty (s : str) :
  s <> [] -> clean_xml_file s = re_sub cdata_match s.
Proof. destruct s; [congruence | reflexivity]. Qed.

(** The match of the pattern on a text that is one CDATA block. *)
Lemma cdata_match_wrapped (content : str) :
  find_sub (u "]]>") content = None ->
  cdata_match (u "<![CDATA[" ++ content ++ u "]]>")
  = Some (replace_cdata content, []).
Proof.
  intros Hc. unfold cdata_match. rewrite startswith_app.
  assert (Hd : drop 9 (u "<![CDATA[" ++ content ++ u "]]>")
               = content ++ u "]]>" ++ []).
  { rewrite app_nil_r. apply (drop_app_length (u "<![CDATA[")). }
  rewrite Hd, (find_sub_close_append content [] Hc). reflexivity.
Qed.

Lemma replace_cdata_brackets (content : str) :
  List.Forall (fun c => bracket_or_quote c = false) (replace_cdata content).
Proof. unfold replace_cdata. apply escape_xml_text_brackets. Qed.

(** X4. [clean_xml_file] replaces an input that is one CDATA block by the
    cleaned content of the block; the result holds no angle bracket and no
    quote, and cleaning it again changes nothing. *)
Theorem clean_single_cdata (content : str) :
  find_sub (u "]]>") content = None ->
  clean_xml_file (u "<![CDATA[" ++ content ++ u "]]>")
    = replace_cdata content
  /\ List.Forall (fun c => bracket_or_quote c = false)
       (replace_cdata content)
  /\ clean_xml_file (replace_cdata content) = replace_cdata content.
Proof.
  intros Hc. split; [|split].
  - assert (Hne : u "<![CDATA[" ++ content ++ u "]]>" <> []).
    { intros E. apply app_eq_nil in E as [E _]. vm_compute in E.
      discriminate. }
    rewrite (clean_xml_file_nonempty _ Hne).
    unfold re_sub. rewrite re_sub_fuel_S, (cdata_match_wrapped _ Hc).
    rewrite re_sub_fuel_nil by reflexivity. apply app_nil_r.
  - apply replace_cdata_brackets.
  - apply clean_no_cdata, no_bracket_no_cdata. intros Hin.
    pose proof (replace_cdata_brackets content) as H.
    rewrite List.Forall_forall in H. specialize (H (ch "<") Hin).
    vm_compute in H. discriminate.
Qed.

Lemma clean_single_cdata_witness :
  clean_xml_file (u "<![CDATA[" ++ u "<p>a &amp;  <b>b</b></p>" ++ u "]]>")
    = replace_cdata (u "<p>a &amp;  <b>b</b></p>")
  /\ replace_cdata (u "<p>a &amp;  <b>b</b></p>") = u "a &amp;amp; b".
Proof.
  split; [|vm_compute; reflexivity].
  apply (clean_single_cdata (u "<p>a &amp;  <b>b</b></p>")).
  vm_compute. reflexivity.
Defined.

(** X5. A text without the CDATA opening marker passes through
    [clean_xml_file] unchanged: nothing is stripped and nothing is
    escaped. *)
Theorem clean_without_cdata_is_identity (xml_content : str) :
  find_sub (u "<![CDATA[") xml_content = None ->
  clean_xml_file xml_content = xml_content.
Proof. intros H. now apply clean_no_cdata, no_opener_no_cdata. Qed.

Lemma clean_without_cdata_is_identity_witness :
  clean_xml_file (u "<quiz><p>1 < 2 & 3</p></quiz>")
  = u "<quiz><p>1 < 2 & 3</p></quiz>".
Proof.
  apply (clean_without_cdata_is_identity (u "<quiz><p>1 < 2 & 3</p></quiz>")).
  vm_compute. reflexivity.
Defined.

(** ** Documents whose blocks are set apart *)

Lemma startswith_prefix (p q s : str) :
  startswith (p ++ q) s = true -> startswith p s = true.
Proof.
  revert s. induction p as [|a p IH]; intros [|b s]; cbn [app startswith];
    try reflexivity; try discriminate.
  intros H. apply andb_true_iff in H as [-> H]. now apply IH.
Qed.

Lemma startswith_more (p s r : str) :
  startswith p s = true -> startswith p (s ++ r) = true.
Proof.
  revert s. induction p as [|a p IH]; intros [|b s]; cbn [app startswith];
    try reflexivity; try discriminate.
  intros H. apply andb_true_iff in H as [-> H]. now apply IH.
Qed.

Lemma endswith_cons (p : str) (x : char) (t : str) :
  endswith p (x :: t) = false -> endswith p t = false.
Proof.
  unfold endswith. cbn [rev]. intros H.
  destruct (startswith (rev p) (rev t)) eqn:E; [|reflexivity].
  now rewrite (startswith_more _ _ [x] E) in H.
Qed.

Lemma contains_cons (needle : str) (x : char) (t : str) :
  contains needle (x :: t) = false -> contains needle t = false.
Proof.
  unfold contains. cbn [find_sub].
  destruct (startswith needle (x :: t)); [discriminate|].
  now destruct (find_sub needle t) as [[a b]|].
Qed.

Lemma plain_text_parts (t : str) :
  plain_text t = true ->
  contains (u "<![") t = false /\ endswith (u "<") t = false
  /\ endswith (u "<!") t = false.
Proof.
  unfold plain_text. rewrite !andb_true_iff, !negb_true_iff. tauto.
Qed.

Lemma plain_text_tail (x : char) (t : str) :
  plain_text (x :: t) = true -> plain_text t = true.
Proof.
  intros H. apply plain_text_parts in H as (H1 & H2 & H3).
  unfold plain_text.
  rewrite (contains_cons _ _ _ H1), (endswith_cons _ _ _ H2),
    (endswith_cons _ _ _ H3).
  reflexivity.
Qed.

(** A plain text followed by anything does not begin with [<![]. *)
Lemma plain_text_head (t rest : str) :
  plain_text t = true -> t <> [] ->
  startswith (u "<![") (t ++ rest) = false.
Proof.
  intros H Hne. apply plain_text_parts in H as (H1 & H2 & H3).
  change (u "<![") with [ch "<"; ch "!"; ch "["] in *.
  change (u "<") with [ch "<"] in *. change (u "<!") with [ch "<"; ch "!"] in *.
  destruct t as [|a [|b [|c t]]]; [congruence| | |].
  - unfold endswith in H2. cbn [rev app startswith] in H2.
    rewrite andb_true_r in H2. cbn [app startswith]. now rewrite H2.
  - unfold endswith in H3. cbn [rev app startswith] in H3.
    rewrite andb_true_r in H3. cbn [app startswith].
    destruct (ch "<" =? a)%N; [|reflexivity].
    rewrite andb_true_r in H3. rewrite andb_true_l. now rewrite H3.
  - unfold contains in H1. cbn [find_sub] in H1.
    destruct (startswith [ch "<"; ch "!"; ch "["] (a :: b :: c :: t)) eqn:E;
      [discriminate|].
    rewrite startswith3 in E. cbn [app]. now rewrite startswith3.
Qed.

Lemma opener_head : u "<![CDATA[" = u "<![" ++ u "CDATA[".
Proof. vm_compute. reflexivity. Qed.

Lemma no_marker_head_no_match (s : str) :
  startswith (u "<![") s = false -> cdata_match s = None.
Proof.
  intros H. unfold cdata_match.
  destruct (startswith (u "<![CDATA[") s) eqn:E; [|reflexivity].
  rewrite opener_head in E. apply startswith_prefix in E. congruence.
Qed.

(** A text without [<![] holds no CDATA block. *)
Lemma no_marker_no_cdata (s : str) :
  find_sub (u "<![") s = None -> re_search cdata_match s = false.
Proof.
  induction s as [|c r IH]; [reflexivity|].
  intros H. cbn [find_sub] in H. cbn [re_search].
  destruct (startswith (u "<![") (c :: r)) eqn:E; [discriminate|].
  rewrite (no_marker_head_no_match _ E).
  destruct (find_sub (u "<![") r) as [[a b]|]; [discriminate|].
  now apply IH.
Qed.

Lemma find_sub_None_cons (needle : str) (x : char) (s : str) :
  startswith needle (x :: s) = false -> find_sub needle s = None ->
  find_sub needle (x :: s) = None.
Proof. intros H1 H2. cbn [find_sub]. now rewrite H1, H2. Qed.

(** A plain text in front of a text without [<![] adds none. *)
Lemma no_marker_after_plain (t rest : str) :
  plain_text t = true -> find_sub (u "<![") rest = None ->
  find_sub (u "<![") (t ++ rest) = None.
Proof.
  intros Ht Hr. induction t as [|x t IH]; [exact Hr|].
  change ((x :: t) ++ rest) with (x :: (t ++ rest)).
  apply find_sub_None_cons.
  - exact (plain_text_head (x :: t) rest Ht ltac:(discriminate)).
  - apply IH. exact (plain_text_tail _ _ Ht).
Qed.

(** So does a text without an opening bracket. *)
Lemma no_marker_after_cleaned (r rest : str) :
  ~ In (ch "<") r -> find_sub (u "<![") rest = None ->
  find_sub (u "<![") (r ++ rest) = None.
Proof.
  intros Hr Hrest. induction r as [|x r IH]; [exact Hrest|].
  change ((x :: r) ++ rest) with (x :: (r ++ rest)).
  apply find_sub_None_cons.
  - change (u "<![") with (ch "<" :: u "![" ). cbn [startswith].
    destruct (N.eqb_spec (ch "<") x) as [<-|_]; [|reflexivity].
    destruct Hr. now left.
  - apply IH. intros Hin. apply Hr. now right.
Qed.

Lemma replace_cdata_no_bracket (content : str) :
  ~ In (ch "<") (replace_cdata content).
Proof.
  intros Hin. pose proof (replace_cdata_brackets content) as H.
  rewrite List.Forall_forall in H. specialize (H (ch "<") Hin).
  vm_compute in H. discriminate.
Qed.

Lemma separated_blocks_cons (c t : str) (rest : list (str * str)) :
  separated_blocks ((c, t) :: rest) = true ->
  find_sub (u "]]>") c = None /\ plain_text t = true
  /\ separated_blocks rest = true.
Proof.
  unfold separated_blocks. cbn [forallb fst snd].
  rewrite !andb_true_iff, negb_true_iff. unfold contains.
  intros [[H1 H2] H3]. repeat split; try assumption.
  now destruct (find_sub (u "]]>") c).
Qed.

(** The cleaned document holds no [<![]. *)
Lemma cleaned_document_no_marker (blocks : list (str * str)) :
  forall t0, plain_text t0 = true -> separated_blocks blocks = true ->
  find_sub (u "<![") (cleaned_document t0 blocks) = None.
Proof.
  induction blocks as [|[c t] rest IH]; intros t0 H0 Hb;
    cbn [cleaned_document].
  - apply plain_text_parts in H0 as (H1 & _). unfold contains in H1.
    now destruct (find_sub (u "<![") t0).
  - apply separated_blocks_cons in Hb as (_ & Ht & Hrest).
    apply no_marker_after_plain; [exact H0|].
    apply no_marker_after_cleaned; [apply replace_cdata_no_bracket|].
    now apply IH.
Qed.

(** The scan copies a plain text and resumes after it. *)
Lemma re_sub_fuel_plain (t rest : str) :
  plain_text t = true -> rest <> [] ->
  forall fuel,
  re_sub_fuel cdata_match (length t + fuel) (t ++ rest)
  = t ++ re_sub_fuel cdata_match fuel rest.
Proof.
  intros Ht Hrest fuel. induction t as [|x t IH]; [reflexivity|].
  change (length (x :: t) + fuel)%nat with (S (length t + fuel)).
  rewrite re_sub_fuel_S.
  rewrite (no_marker_head_no_match _
             (plain_text_head (x :: t) rest Ht ltac:(discriminate))).
  change ((x :: t) ++ rest) with (x :: (t ++ rest)). cbv iota.
  now rewrite (IH (plain_text_tail _ _ Ht)).
Qed.

(** The pattern matches a block up to the end of its content. *)
Lemma cdata_match_block (content rest : str) :
  find_sub (u "]]>") content = None ->
  cdata_match (cdata_block content ++ rest)
  = Some (replace_cdata content, rest).
Proof.
  intros Hc. unfold cdata_match, cdata_block.
  rewrite <- !app_assoc.
  assert (Hs : startswith (u "<![CDATA[")
                 (u "<![CDATA[" ++ content ++ u "]]>" ++ rest) = true)
    by apply startswith_app.
  rewrite Hs.
  assert (Hd : drop 9 (u "<![CDATA[" ++ content ++ u "]]>" ++ rest)
               = content ++ u "]]>" ++ rest)
    by apply (drop_app_length (u "<![CDATA[")).
  rewrite Hd, (find_sub_close_append content rest Hc). reflexivity.
Qed.

Lemma cdata_block_nonempty (content rest : str) :
  cdata_block content ++ rest <> [].
Proof.
  unfold cdata_block. intros E. apply app_eq_nil in E as [E _].
  apply app_eq_nil in E as [E _]. vm_compute in E. discriminate.
Qed.

(** The first pass: every block is replaced by its cleaned content, the
    text around the blocks is copied. *)
Lemma re_sub_fuel_document (blocks : list (str * str)) :
  forall t0 fuel,
  plain_text t0 = true -> separated_blocks blocks = true ->
  (length (cdata_document t0 blocks) < fuel)%nat ->
  re_sub_fuel cdata_match fuel (cdata_document t0 blocks)
  = cleaned_document t0 blocks.
Proof.
  induction blocks as [|[c t] rest IH]; intros t0 fuel H0 Hb Hfuel;
    cbn [cdata_document cleaned_document] in *.
  - apply re_sub_fuel_no_match, no_marker_no_cdata.
    apply plain_text_parts in H0 as (H1 & _). unfold contains in H1.
    now destruct (find_sub (u "<![") t0).
  - apply separated_blocks_cons in Hb as (Hc & Ht & Hrest).
    rewrite !length_app in Hfuel.
    replace fuel
      with (length t0 + S (fuel - length t0 - 1))%nat by lia.
    rewrite (re_sub_fuel_plain t0 _ H0 (cdata_block_nonempty _ _)).
    rewrite re_sub_fuel_S, (cdata_match_block c _ Hc).
    rewrite (IH t (fuel - length t0 - 1)%nat Ht Hrest); [reflexivity|].
    assert (0 < length (cdata_block c))%nat; [|lia].
    unfold cdata_block. rewrite length_app. vm_compute. lia.
Qed.

Lemma clean_xml_file_re_sub (s : str) :
  clean_xml_file s = re_sub cdata_match s.
Proof. destruct s; reflexivity. Qed.

(** C7 (amended). The sanitizer is idempotent on the documents whose
    CDATA blocks are set apart by plain text: texts that hold no [<![] and
    do not end with [<] or [<!].  The first pass replaces every block by
    its cleaned content and copies the text around the blocks; the second
    pass changes nothing. *)
Theorem clean_idempotent_on_separated_blocks (t0 : str)
    (blocks : list (str * str)) :
  plain_text t0 = true ->
  separated_blocks blocks = true ->
  clean_xml_file (cdata_document t0 blocks) = cleaned_document t0 blocks
  /\ clean_xml_file (clean_xml_file (cdata_document t0 blocks))
     = clean_xml_file (cdata_document t0 blocks).
Proof.
  intros H0 Hb.
  assert (H1 : clean_xml_file (cdata_document t0 blocks)
               = cleaned_document t0 blocks).
  { rewrite clean_xml_file_re_sub. unfold re_sub.
    apply re_sub_fuel_document; [assumption..|lia]. }
  split; [exact H1|]. rewrite H1.
  apply clean_no_cdata, no_marker_no_cdata.
  now apply cleaned_document_no_marker.
Qed.

Lemma clean_idempotent_on_separated_blocks_witness :
  cdata_document export_head export_blocks
  = u "<quiz><!-- 1 --><text><![CDATA[<p>1 &lt; 2  &amp;<br/> 3</p>]]></text><text><![CDATA[![CDATA[x]]></text></quiz>"
  /\ clean_xml_file (cdata_document export_head export_blocks)
     = u "<quiz><!-- 1 --><text>1 &amp;lt; 2 &amp;amp; 3</text><text>![CDATA[x</text></quiz>"
  /\ clean_xml_file
       (clean_xml_file (cdata_document export_head export_blocks))
     = clean_xml_file (cdata_document export_head export_blocks).
Proof.
  assert (H0 : plain_text export_head = true) by (vm_compute; reflexivity).
  assert (Hb : separated_blocks export_blocks = true)
    by (vm_compute; reflexivity).
  destruct (clean_idempotent_on_separated_blocks export_head export_blocks
              H0 Hb) as [H1 H2].
  split; [vm_compute; reflexivity|]. split; [|exact H2].
  rewrite H1. vm_compute. reflexivity.
Defined.

(** The input that is not idempotent is outside this class: the text
    before its block ends with an opening bracket. *)
Example nested_cdata_is_not_separated :
  nested_cdata = cdata_document (u "<") [ (u "![CDATA[", u "x]]>") ]
  /\ plain_text (u "<") = false.
Proof. split; vm_compute; reflexivity. Qed.

(* ================================================================== *)
(** ** Course names *)

Lemma last_In {A : Type} (l : list A) (x : A) : last l = Some x -> In x l.
Proof.
  induction l as [|y [|z r] IH]; simpl; [discriminate| |].
  - intros [= ->]. now left.
  - intros H. right. now apply IH.
Qed.

(** No part of [s.split(c)] contains [c]. *)
Lemma split_char_no_sep (c : char) (s p : str) :
  In p (split_char c s) -> ~ In c p.
Proof.
  revert p. induction s as [|x r IH]; intros p; simpl.
  - intros [<-|[]] [].
  - destruct (N.eqb_spec x c) as [->|Hne].
    + intros [<-|H]; [intros []|now apply IH].
    + destruct (split_char c r) as [|h t] eqn:E.
      * intros [<-|[]] [Hx|[]]. congruence.
      * intros [<-|H].
        -- intros [Hx|Hin]; [congruence|].
           apply (IH h); [now left|exact Hin].
        -- apply IH. now right.
Qed.

Lemma In_strip (c : char) (s : str) : In c (strip s) -> In c s.
Proof.
  intros H. destruct (in_dec N.eq_dec c s) as [Hin|Hnot]; [exact Hin|].
  assert (HF : List.Forall (fun x => x <> c) s).
  { apply List.Forall_forall. intros x Hx ->. contradiction. }
  apply (Forall_strip _ _) in HF. rewrite List.Forall_forall in HF.
  now destruct (HF c H).
Qed.

(** X6. A course name that [_extract_course_name] returns is not empty,
    has no space at either end and no slash, and comes from a category
    text that starts with the root prefix. *)
Theorem extract_course_name_shape (category_element : ET.element)
    (name : str) :
  _extract_course_name category_element = Some name ->
  name <> []
  /\ strip name = name
  /\ ~ In (ch "/") name
  /\ exists t txt,
       ET.find_path (u "category") (u "text") category_element = Some t
       /\ ET.text t = Some txt
       /\ startswith CATEGORY_PREFIX (strip txt) = true.
Proof.
  unfold _extract_course_name.
  destruct (ET.find_path (u "category") (u "text") category_element)
    as [t|] eqn:Ht; [|discriminate].
  destruct (ET.text t) as [txt|] eqn:Htxt; [|discriminate].
  destruct (startswith CATEGORY_PREFIX (strip txt)) eqn:Hp;
    [|discriminate].
  cbn [negb].
  destruct (negb _ || negb _); [discriminate|].
  destruct (negb _); [discriminate|].
  intros Hl. apply last_In in Hl. apply filter_In in Hl as [Hin Hne].
  apply in_map_iff in Hin as (p & <- & Hp').
  split; [|split; [|split]].
  - intros E. rewrite E in Hne. discriminate.
  - apply strip_idem.
  - intros Hs. apply In_strip in Hs.
    exact (split_char_no_sep _ _ _ Hp' Hs).
  - exists t, txt. split; [reflexivity|]. split; [exact Htxt|exact Hp].
Qed.

Lemma extract_course_name_shape_witness :
  u "Course C" <> [] /\ strip (u "Course C") = u "Course C".
Proof.
  destruct (extract_course_name_shape
              (category_of (CATEGORY_PREFIX ++ u "/Год 1/ Course C "))
              (u "Course C")) as (H1 & H2 & _).
  - vm_compute. reflexivity.
  - split; assumption.
Defined.

(* ================================================================== *)
(** ** What [parse_courses] returns and raises *)

Lemma uncategorized_nonempty : uncategorized <> [].
Proof. intros E. vm_compute in E. discriminate. Qed.

Lemma flush_good (st : walk) :
  walk_ok st -> List.Forall good_course (flush st).
Proof.
  intros (Hc & Hcur & _). unfold flush, Course.len.
  destruct (current_course st) as [c|] eqn:E; [|exact Hc].
  destruct (Course.questions c) as [|q qs] eqn:Eq; [exact Hc|].
  simpl. apply Forall_app. split; [exact Hc|].
  constructor; [|constructor]. split; [|now apply Hcur].
  rewrite Eq. discriminate.
Qed.

(** An exception of a loop is an exception of its body. *)
Lemma for_loop_raises {S A : Type} (P : exn -> Prop)
    (body : S -> A -> result S) (l : list A) :
  (forall s x e, body s x = Raise e -> P e) ->
  forall s e, for_loop body l s = Raise e -> P e.
Proof.
  intros Hbody. induction l as [|x r IH]; intros s e; simpl;
    [discriminate|].
  destruct (body s x) as [s1|e1] eqn:E; simpl.
  - apply IH.
  - intros [= <-]. now apply (Hbody s x).
Qed.

Section ParseCourses.

Variable py_float : str -> option spec_float.
Variable py_lower : str -> str.

Lemma fraction_of_raises (a : ET.element) (e : exn) :
  fraction_of py_float a = Raise e -> e = ValueError.
Proof.
  unfold fraction_of. destruct (py_float _); [discriminate|].
  now intros [= <-].
Qed.

(** The extraction of a question raises nothing but [ValueError]. *)
Lemma parse_question_raises (el : ET.element) (e : exn) :
  _parse_question_element py_float py_lower el = Raise e -> e = ValueError.
Proof.
  unfold _parse_question_element.
  destruct (str_eqb _ (u "multichoice")).
  { destruct (for_loop _ _ _) as [[a c]|e1] eqn:E; simpl; [discriminate|].
    intros [= <-].
    apply (for_loop_raises (fun e => e = ValueError) _ _) in E; [exact E|].
    intros [a c] x e0. unfold multichoice_body.
    destruct (nonempty _); [|discriminate].
    destruct (fraction_of py_float x) as [f|e2] eqn:Ef; simpl.
    - destruct (negb _); discriminate.
    - intros [= <-]. now apply fraction_of_raises in Ef. }
  destruct (str_eqb _ (u "matching")).
  { destruct (fold_left _ _ _). discriminate. }
  destruct (str_eqb _ (u "shortanswer")).
  { destruct (for_loop _ _ _) as [c|e1] eqn:E; simpl; [discriminate|].
    intros [= <-].
    apply (for_loop_raises (fun e => e = ValueError) _ _) in E; [exact E|].
    intros c x e0. unfold shortanswer_body.
    destruct (fraction_of py_float x) as [f|e2] eqn:Ef; simpl.
    - destruct (negb _); [destruct (nonempty _)|]; discriminate.
    - intros [= <-]. now apply fraction_of_raises in Ef. }
  destruct (str_eqb _ (u "truefalse")); [|discriminate].
  destruct (for_loop _ _ _) as [[d c]|e1] eqn:E; simpl; [discriminate|].
  intros [= <-].
  apply (for_loop_raises (fun e => e = ValueError) _ _) in E; [exact E|].
  intros [d c] x e0. unfold truefalse_body.
  destruct (nonempty _); [|discriminate].
  destruct (fraction_of py_float x) as [f|e2] eqn:Ef; simpl.
  - destruct (float_eq_Z f 100); discriminate.
  - intros [= <-]. now apply fraction_of_raises in Ef.
Qed.

Lemma walk_body_raises (st : walk) (el : ET.element) (e : exn) :
  walk_body py_float py_lower st el = Raise e -> e = ValueError.
Proof.
  unfold walk_body. destruct (str_eqb _ _).
  - destruct (_extract_course_name el) as [[|c r]|]; discriminate.
  - cbv zeta.
    destruct (_parse_question_element py_float py_lower el) as [q|e1] eqn:E.
    + destruct (current_course _); discriminate.
    + apply parse_question_raises in E. subst e1.
      destruct (current_course _); simpl; now intros [= <-].
Qed.

(** One iteration keeps the state good. *)
Lemma walk_body_ok (st st' : walk) (el : ET.element) :
  walk_ok st ->
  walk_body py_float py_lower st el = Ok st' -> walk_ok st'.
Proof.
  intros Hok. pose proof (flush_good st Hok) as Hflush.
  destruct Hok as (Hc & Hcur & Hlast). unfold walk_body.
  destruct (str_eqb _ _).
  - destruct (_extract_course_name el) as [[|c r]|]; intros [= <-];
      try (split; [|split]; assumption).
    split; [exact Hflush|]. split; [discriminate|].
    intros n [= <-]. discriminate.
  - cbv zeta.
    destruct (last_category_name st) as [l|] eqn:El,
             (current_course st) as [c|] eqn:Ec;
      cbn [current_course courses last_category_name]; rewrite ?Ec;
      (destruct (_parse_question_element py_float py_lower el) as [q|e1];
       simpl; [|discriminate]);
      intros [= <-]; (split; [exact Hc|]); split;
      cbn [current_course last_category_name];
      try (intros n [= <-]); try discriminate;
      simpl; eauto using uncategorized_nonempty;
      intros n Hn; rewrite El in Hn; now apply Hlast.
Qed.

End ParseCourses.

(** X7. Every course that [parse_courses] returns has a non-empty name
    and at least one question. *)
Theorem parse_courses_good
    (py_float : str -> option spec_float) (py_lower : str -> str)
    (fromstring : str -> option ET.element)
    (file : file_state) (courses : list Course.t) :
  parse_courses py_float py_lower fromstring file = Ok courses ->
  List.Forall good_course courses.
Proof.
  unfold parse_courses, group_elements.
  destruct file as [|e|xml_content]; [discriminate..|].
  destruct (fromstring _) as [root|]; [|discriminate].
  intros H. apply bind_Ok_inv in H as (st & Hrun & [= <-]).
  apply flush_good.
  apply (for_loop_invariant walk_ok (walk_body py_float py_lower)
           (ET.findall (u "question") root)) with (s := mk_walk [] None None).
  - intros s x s' _ Hs Hb. exact (walk_body_ok _ _ _ _ _ Hs Hb).
  - split; [constructor|]. split; intros ?; discriminate.
  - exact Hrun.
Qed.

Lemma parse_courses_good_witness :
  List.Forall good_course
    [ Course.mk (u "Course B")
        [ Question.mk (u "shortanswer") (Some (u "Capital?"))
            (Some (u "Paris")) (Some (u "q1")) [] [u "Paris"] [] [] ] ].
Proof.
  apply (parse_courses_good float_of_int_literal ascii_lower
           (parsed_as
              (ET.Element (u "quiz") [] None
                 [ category_of (CATEGORY_PREFIX ++ u "/Course A");
                   category_of (CATEGORY_PREFIX ++ u "/Course B");
                   capital_question "q1" ]))
           (Content (u "<quiz/>"))).
  vm_compute. reflexivity.
Defined.

(** X8. [parse] returns the questions of the file in document order, each
    of them once: the extraction of every [question] element whose type is
    not [category]. *)
Theorem parse_in_document_order
    (py_float : str -> option spec_float) (py_lower : str -> str)
    (fromstring : str -> option ET.element)
    (xml_content : str) (root : ET.element) (questions : list Question.t) :
  fromstring (clean_xml_file xml_content) = Some root ->
  parse py_float py_lower fromstring (Content xml_content) = Ok questions ->
  extract_questions py_float py_lower (ET.findall (u "question") root)
  = Ok questions.
Proof.
  intros Hroot. unfold parse, parse_courses. rewrite Hroot.
  intros H. apply bind_Ok_inv in H as (courses & Hg & [= <-]).
  rewrite extend_loop_concat. simpl.
  now apply group_elements_questions.
Qed.

Lemma parse_in_document_order_witness :
  extract_questions float_of_int_literal ascii_lower
    (ET.findall (u "question") sample_bank)
  = Ok (map (fun n =>
               Question.mk (u "shortanswer") (Some (u "Capital?"))
                 (Some (u "Paris")) (Some n) [] [u "Paris"] [] [])
            [u "q0"; u "q1"; u "q2"; u "q3"]).
Proof.
  apply (parse_in_document_order float_of_int_literal ascii_lower
           (parsed_as sample_bank) (u "<quiz/>") sample_bank).
  - reflexivity.
  - vm_compute. reflexivity.
Defined.

(** X9. Once the file has been read, [parse_courses] and [parse] raise
    nothing but [ValueError]: the cleaned text does not parse, or a
    fraction is not a number.  A missing file gives [FileNotFoundError],
    and what [open()] or [read()] raises on an existing path comes out
    unchanged. *)
Theorem parse_courses_exceptions
    (py_float : str -> option spec_float) (py_lower : str -> str)
    (fromstring : str -> option ET.element) :
  (forall xml_content e,
     parse_courses py_float py_lower fromstring (Content xml_content)
       = Raise e ->
     e = ValueError)
  /\ (forall xml_content e,
        parse py_float py_lower fromstring (Content xml_content) = Raise e ->
        e = ValueError)
  /\ parse_courses py_float py_lower fromstring Missing
     = Raise FileNotFoundError
  /\ parse py_float py_lower fromstring Missing = Raise FileNotFoundError
  /\ (forall e,
        parse_courses py_float py_lower fromstring (Unreadable e) = Raise e
        /\ parse py_float py_lower fromstring (Unreadable e) = Raise e).
Proof.
  assert (Hc : forall xml_content e,
            parse_courses py_float py_lower fromstring (Content xml_content)
              = Raise e ->
            e = ValueError).
  { intros xml_content e. unfold parse_courses, group_elements.
    destruct (fromstring _) as [root|]; [|now intros [= <-]].
    destruct (for_loop _ _ _) as [st|e1] eqn:E; simpl; [discriminate|].
    intros [= <-].
    apply (for_loop_raises (fun e => e = ValueError) _ _) in E; [exact E|].
    intros s x e0. apply walk_body_raises. }
  split; [exact Hc|]. split; [|repeat split].
  intros xml_content e. unfold parse.
  destruct (parse_courses py_float py_lower fromstring
              (Content xml_content)) as [cs|e1] eqn:E; simpl; [discriminate|].
  intros [= <-]. exact (Hc _ _ E).
Qed.

Lemma parse_courses_exceptions_witness :
  exists e,
    parse_courses float_of_int_literal ascii_lower
      (parsed_as (ET.Element (u "quiz") [] None
                    [capital_question "q0"; odd_fractions "shortanswer"]))
      (Content (u "<quiz/>")) = Raise e
    /\ e = ValueError.
Proof.
  destruct (parse_courses_exceptions float_of_int_literal ascii_lower
              (parsed_as (ET.Element (u "quiz") [] None
                            [capital_question "q0";
                             odd_fractions "shortanswer"])))
    as (H & _).
  destruct (parse_courses float_of_int_literal ascii_lower
              (parsed_as (ET.Element (u "quiz") [] None
                            [capital_question "q0";
                             odd_fractions "shortanswer"]))
              (Content (u "<quiz/>"))) as [cs|e] eqn:E.
  - vm_compute in E. discriminate.
  - exists e. split; [reflexivity|]. exact (H _ _ E).
Defined.

(** A loop returns exactly when each of its iterations does, for a body
    whose success depends on the element only. *)
Lemma for_loop_returns_iff {S A : Type} (body : S -> A -> result S)
    (P : A -> Prop) (l : list A) :
  (forall s x, (exists s', body s x = Ok s') <-> P x) ->
  forall s, (exists s', for_loop body l s = Ok s') <-> List.Forall P l.
Proof.
  intros Hbody. induction l as [|x r IH]; intros s; cbn [for_loop].
  - split; [constructor | eauto].
  - split.
    + intros (s' & H). destruct (body s x) as [s1|e] eqn:E; [|discriminate].
      constructor.
      * apply (Hbody s x). eauto.
      * apply (IH s1). eauto.
    + intros H. apply List.Forall_cons_iff in H as [Hx Hr].
      apply (Hbody s x) in Hx as (s1 & ->). apply (IH s1). exact Hr.
Qed.

Section Fractions.

Variable py_float : str -> option spec_float.
Variable py_lower : str -> str.

Lemma multichoice_body_returns (st : list str * list str)
    (x : ET.element) :
  (exists st', multichoice_body py_float st x = Ok st')
  <-> (nonempty (text_or_blank (ET.find (u "text") x)) = true ->
       exists f, fraction_of py_float x = Ok f).
Proof.
  destruct st as [a c]. unfold multichoice_body. cbv zeta.
  destruct (nonempty _); [|split; [discriminate | eauto]].
  destruct (fraction_of py_float x) as [f|e]; simpl.
  - split; [eauto|]. intros _. destruct (negb _); eauto.
  - split; [intros (? & [=]) | intros H].
    destruct (H eq_refl) as (f & [=]).
Qed.

Lemma truefalse_body_returns (st : list (str * bool) * list str)
    (x : ET.element) :
  (exists st', truefalse_body py_float py_lower st x = Ok st')
  <-> (nonempty (text_or_blank (ET.find (u "text") x)) = true ->
       exists f, fraction_of py_float x = Ok f).
Proof.
  destruct st as [d c]. unfold truefalse_body. cbv zeta.
  destruct (nonempty _); [|split; [discriminate | eauto]].
  destruct (fraction_of py_float x) as [f|e]; simpl.
  - split; [eauto|]. intros _. destruct (float_eq_Z f 100); eauto.
  - split; [intros (? & [=]) | intros H].
    destruct (H eq_refl) as (f & [=]).
Qed.

Lemma shortanswer_body_returns (st : list str) (x : ET.element) :
  (exists st', shortanswer_body py_float st x = Ok st')
  <-> (true = true -> exists f, fraction_of py_float x = Ok f).
Proof.
  unfold shortanswer_body.
  destruct (fraction_of py_float x) as [f|e]; simpl.
  - split; [eauto|]. intros _.
    destruct (negb _); [destruct (nonempty _)|]; eauto.
  - split; [intros (? & [=]) | intros H].
    destruct (H eq_refl) as (f & [=]).
Qed.

Lemma bind_returns {A B : Type} (m : result A) (k : A -> B) :
  (exists b, (a ← m; Ok (k a)) = Ok b) <-> (exists a, m = Ok a).
Proof.
  destruct m as [a|e]; simpl; split; eauto; intros (? & [=]).
Qed.

(** The extraction returns exactly when every fraction that it reads is a
    number. *)
Lemma parse_question_returns_iff (el : ET.element) :
  (exists q, _parse_question_element py_float py_lower el = Ok q)
  <-> List.Forall
        (fun a => reads_fraction (ET.get el (u "type") []) a = true ->
                  exists f, fraction_of py_float a = Ok f)
        (ET.findall (u "answer") el).
Proof.
  unfold _parse_question_element, reads_fraction. cbv zeta.
  destruct (str_eqb (ET.get el (u "type") []) (u "multichoice")) eqn:E1.
  { apply str_eqb_eq in E1. rewrite E1.
    change (str_eqb (u "multichoice") (u "shortanswer")) with false.
    change (str_eqb (u "multichoice") (u "multichoice")) with true.
    cbv iota. cbn [orb].
    rewrite <- (for_loop_returns_iff (multichoice_body py_float) _ _
                  multichoice_body_returns ([], [])).
    split.
    - intros (q & H).
      destruct (for_loop _ _ _) as [[a c]|e]; [eauto | discriminate].
    - intros ([a c] & ->). simpl. eauto. }
  destruct (str_eqb (ET.get el (u "type") []) (u "matching")) eqn:E2.
  { apply str_eqb_eq in E2. rewrite E2.
    change (str_eqb (u "matching") (u "shortanswer")) with false.
    change (str_eqb (u "matching") (u "multichoice")) with false.
    change (str_eqb (u "matching") (u "truefalse")) with false.
    cbv iota. cbn [orb]. destruct (fold_left _ _ _).
    split; [|eauto]. intros _. apply List.Forall_forall. discriminate. }
  destruct (str_eqb (ET.get el (u "type") []) (u "shortanswer")) eqn:E3.
  { rewrite <- (for_loop_returns_iff (shortanswer_body py_float) _ _
                  shortanswer_body_returns []).
    split.
    - intros (q & H).
      destruct (for_loop _ _ _) as [c|e]; [eauto | discriminate].
    - intros (c & ->). simpl. eauto. }
  cbn [orb].
  destruct (str_eqb (ET.get el (u "type") []) (u "truefalse")) eqn:E4.
  { rewrite <- (for_loop_returns_iff (truefalse_body py_float py_lower) _ _
                  truefalse_body_returns ([], [])).
    split.
    - intros (q & H).
      destruct (for_loop _ _ _) as [[d c]|e]; [eauto | discriminate].
    - intros ([d c] & ->). simpl. eauto. }
  split; [|eauto]. intros _. apply List.Forall_forall. discriminate.
Qed.

Lemma reads_no_fraction (type : str) (a : ET.element) :
  type <> u "multichoice" -> type <> u "shortanswer" ->
  type <> u "truefalse" ->
  reads_fraction type a = false.
Proof.
  intros H1 H2 H3. unfold reads_fraction.
  now rewrite (str_eqb_neq _ _ H1), (str_eqb_neq _ _ H2),
    (str_eqb_neq _ _ H3).
Qed.

End Fractions.

(** X10. The extraction of a question returns exactly when [float()]
    accepts every fraction that the extraction reads: the fraction of
    every answer element of a [shortanswer] question, and of the answer
    elements with a non-empty text of a [multichoice] or [truefalse]
    question.  A question of another type ([matching], [essay], any
    unknown type) is always extracted, whatever its fractions.  When the
    extraction raises, it raises [ValueError]. *)
Theorem parse_question_total
    (py_float : str -> option spec_float) (py_lower : str -> str)
    (question_element : ET.element) :
  ((exists q,
      _parse_question_element py_float py_lower question_element = Ok q)
   <-> List.Forall
         (fun a =>
            reads_fraction (ET.get question_element (u "type") []) a = true ->
            exists f, fraction_of py_float a = Ok f)
         (ET.findall (u "answer") question_element))
  /\ (ET.get question_element (u "type") [] <> u "multichoice" ->
      ET.get question_element (u "type") [] <> u "shortanswer" ->
      ET.get question_element (u "type") [] <> u "truefalse" ->
      exists q,
        _parse_question_element py_float py_lower question_element = Ok q)
  /\ (forall e,
        _parse_question_element py_float py_lower question_element
          = Raise e ->
        e = ValueError).
Proof.
  split; [apply parse_question_returns_iff|]. split.
  - intros H1 H2 H3. apply parse_question_returns_iff.
    apply List.Forall_forall. intros a _.
    now rewrite (reads_no_fraction _ a H1 H2 H3).
  - intros e. apply parse_question_raises.
Qed.

Lemma parse_question_total_witness :
  (exists q,
     _parse_question_element float_of_int_literal ascii_lower
       (capital_question "q1") = Ok q)
  /\ (exists q,
        _parse_question_element float_of_int_literal ascii_lower
          (odd_fractions "matching") = Ok q)
  /\ ~ (exists q,
          _parse_question_element float_of_int_literal ascii_lower
            (odd_fractions "shortanswer") = Ok q).
Proof.
  split; [|split].
  - destruct (parse_question_total float_of_int_literal ascii_lower
                (capital_question "q1")) as (H & _ & _).
    apply H. apply List.Forall_forall. intros a Ha _. vm_compute in Ha.
    destruct Ha as [<-|[<-|[]]]; eexists; vm_compute; reflexivity.
  - destruct (parse_question_total float_of_int_literal ascii_lower
                (odd_fractions "matching")) as (_ & H & _).
    apply H; vm_compute; discriminate.
  - intros Hq.
    destruct (parse_question_total float_of_int_literal ascii_lower
                (odd_fractions "shortanswer")) as (H & _ & _).
    apply H in Hq. rewrite List.Forall_forall in Hq.
    destruct (Hq (answer_elem_of "half" "Paris")) as (f & Hf).
    + vm_compute. now left.
    + vm_compute. reflexivity.
    + vm_compute in Hf. discriminate.
Defined.

(* ================================================================== *)
(** ** The answers that the extractors keep *)

Section AnswerLists.

Variable py_float : str -> option spec_float.
Variable py_lower : str -> str.

Lemma omap_cons {A B : Type} (f : A -> option B) (x : A) (l : list A) :
  omap f (x :: l)
  = match f x with Some y => y :: omap f l | None => omap f l end.
Proof. reflexivity. Qed.

Lemma bind_Ok {A B : Type} (a : A) (f : A -> result B) : Ok a ≫= f = f a.
Proof. reflexivity. Qed.

Lemma bind_Raise {A B : Type} (e : exn) (f : A -> result B) :
  Raise e ≫= f = Raise e.
Proof. reflexivity. Qed.

Lemma shortanswer_body_step (acc acc1 : list str) (x : ET.element) :
  shortanswer_body py_float acc x = Ok acc1 ->
  acc1 = acc ++ match counted_text py_float (u "shortanswer") x with
                | Some t => [t]
                | None => []
                end.
Proof.
  unfold shortanswer_body, counted_text, answer_text.
  destruct (fraction_of py_float x) as [f|e];
    rewrite ?bind_Ok, ?bind_Raise; [|discriminate].
  change (counts_as_correct (u "shortanswer") f)
    with (negb (float_eq_Z f 0)).
  destruct (negb (float_eq_Z f 0)).
  - destruct (nonempty _); intros [= <-];
      [reflexivity | now rewrite app_nil_r].
  - intros [= <-]. now rewrite app_nil_r.
Qed.

Lemma shortanswer_loop_spec (els : list ET.element) :
  forall acc acc',
  for_loop (shortanswer_body py_float) els acc = Ok acc' ->
  acc' = acc ++ omap (counted_text py_float (u "shortanswer")) els.
Proof.
  induction els as [|x r IH]; intros acc acc'; cbn [for_loop].
  - intros [= <-]. now rewrite app_nil_r.
  - intros H. apply bind_Ok_inv in H as (acc1 & Hx & Hr).
    apply IH in Hr. apply shortanswer_body_step in Hx. subst.
    rewrite omap_cons, <- app_assoc.
    now destruct (counted_text py_float (u "shortanswer") x).
Qed.

Lemma multichoice_body_step (a c a1 c1 : list str) (x : ET.element) :
  multichoice_body py_float (a, c) x = Ok (a1, c1) ->
  match answer_text x with
  | Some t => a1 = a ++ [t] /\ (c1 = c ++ [t] \/ c1 = c)
  | None => a1 = a /\ c1 = c
  end.
Proof.
  unfold multichoice_body, answer_text. cbv zeta.
  destruct (nonempty _); [|intros [= <- <-]; auto].
  destruct (fraction_of py_float x) as [f|e];
    rewrite ?bind_Ok, ?bind_Raise; [|discriminate].
  destruct (negb (float_eq_Z f 0)); intros [= <- <-]; auto.
Qed.

Lemma multichoice_loop_spec (els : list ET.element) :
  forall a c a' c',
  for_loop (multichoice_body py_float) els (a, c) = Ok (a', c') ->
  a' = a ++ omap answer_text els
  /\ exists c2, c' = c ++ c2 /\ sublist c2 (omap answer_text els).
Proof.
  induction els as [|x r IH]; intros a c a' c'; cbn [for_loop].
  - intros [= <- <-]. rewrite app_nil_r. split; [reflexivity|].
    exists []. now rewrite app_nil_r.
  - intros H. apply bind_Ok_inv in H as ([a1 c1] & Hx & Hr).
    apply IH in Hr as (-> & c2 & -> & Hsub).
    apply multichoice_body_step in Hx. rewrite omap_cons.
    destruct (answer_text x) as [t|].
    + destruct Hx as (-> & [-> | ->]); rewrite <- ?app_assoc;
        (split; [reflexivity|]).
      * exists (t :: c2). split; [reflexivity|]. now apply sublist_skip.
      * exists c2. split; [reflexivity|]. now apply sublist_cons.
    + destruct Hx as (-> & ->). split; [reflexivity|]. now exists c2.
Qed.

Lemma answer_text_nonempty (x : ET.element) (t : str) :
  answer_text x = Some t -> t <> [].
Proof.
  unfold answer_text. cbv zeta.
  destruct (text_or_blank _) as [|c r]; cbn [nonempty]; [discriminate|].
  intros [= <-]. discriminate.
Qed.

Lemma omap_answer_text_nonempty (els : list ET.element) :
  List.Forall (fun t => t <> []) (omap answer_text els).
Proof.
  apply List.Forall_forall. intros t Ht.
  apply list_elem_of_In, list_elem_of_omap in Ht as (x & _ & Hx).
  exact (answer_text_nonempty _ _ Hx).
Qed.

End AnswerLists.

(** X11. For an extracted [shortanswer] question, [correct_answers] holds
    the non-empty texts of the answers whose fraction differs from 0, in
    document order; [reference_answer] is the first of them, or the empty
    string when there is none; [answers] stays empty. *)
Theorem shortanswer_fields
    (py_float : str -> option spec_float) (py_lower : str -> str)
    (question_element : ET.element) (q : Question.t) :
  ET.get question_element (u "type") [] = u "shortanswer" ->
  _parse_question_element py_float py_lower question_element = Ok q ->
  Question.correct_answers q
  = omap (counted_text py_float (u "shortanswer"))
         (ET.findall (u "answer") question_element)
  /\ List.Forall (fun t => t <> []) (Question.correct_answers q)
  /\ Question.reference_answer q
     = Some (List.hd [] (Question.correct_answers q))
  /\ Question.answers q = [].
Proof.
  intros Ht Hq. unfold _parse_question_element in Hq. rewrite Ht in Hq.
  change (str_eqb (u "shortanswer") (u "multichoice")) with false in Hq.
  change (str_eqb (u "shortanswer") (u "matching")) with false in Hq.
  change (str_eqb (u "shortanswer") (u "shortanswer")) with true in Hq.
  cbv iota in Hq.
  apply bind_Ok_inv in Hq as (c & Hloop & Hq). injection Hq as <-.
  apply shortanswer_loop_spec in Hloop. simpl in Hloop. subst c.
  cbn [Question.correct_answers Question.reference_answer Question.answers].
  split; [reflexivity|]. split; [|split; [|reflexivity]].
  - apply List.Forall_forall. intros t Hin.
    apply list_elem_of_In, list_elem_of_omap in Hin as (x & _ & Hx).
    unfold counted_text in Hx.
    destruct (fraction_of py_float x); [|discriminate].
    destruct (counts_as_correct _ _); [|discriminate].
    exact (answer_text_nonempty _ _ Hx).
  - now destruct (omap _ _).
Qed.

Lemma shortanswer_fields_witness :
  [u "Paris"; u "Lutetia"]
  = omap (counted_text float_of_int_literal (u "shortanswer"))
         (ET.findall (u "answer") city_shortanswer)
  /\ Some (u "Paris") = Some (List.hd [] [u "Paris"; u "Lutetia"]).
Proof.
  destruct (shortanswer_fields float_of_int_literal ascii_lower
              city_shortanswer
              (Question.mk (u "shortanswer") (Some []) (Some (u "Paris"))
                 (Some []) [] [u "Paris"; u "Lutetia"] [] []))
    as (H1 & _ & H2 & _).
  - reflexivity.
  - vm_compute. reflexivity.
  - split; [exact H1 | exact H2].
Defined.

(** X12. For an extracted [multichoice] question, [answers] holds the
    non-empty answer texts in document order, none of them empty, and
    [correct_answers] is a subsequence of [answers]: the correct answers
    keep the order of the answers. *)
Theorem multichoice_fields
    (py_float : str -> option spec_float) (py_lower : str -> str)
    (question_element : ET.element) (q : Question.t) :
  ET.get question_element (u "type") [] = u "multichoice" ->
  _parse_question_element py_float py_lower question_element = Ok q ->
  Question.answers q
  = omap answer_text (ET.findall (u "answer") question_element)
  /\ List.Forall (fun t => t <> []) (Question.answers q)
  /\ sublist (Question.correct_answers q) (Question.answers q).
Proof.
  intros Ht Hq. unfold _parse_question_element in Hq. rewrite Ht in Hq.
  change (str_eqb (u "multichoice") (u "multichoice")) with true in Hq.
  cbv iota in Hq.
  apply bind_Ok_inv in Hq as ([a c] & Hloop & Hq). injection Hq as <-.
  apply multichoice_loop_spec in Hloop as (-> & c2 & -> & Hsub).
  cbn [Question.correct_answers Question.answers app].
  split; [reflexivity|]. split; [|exact Hsub].
  apply omap_answer_text_nonempty.
Qed.

Lemma multichoice_fields_witness :
  [u "2"; u "4"; u "3"]
  = omap answer_text (ET.findall (u "answer") primes_multichoice)
  /\ sublist [u "2"; u "3"] [u "2"; u "4"; u "3"].
Proof.
  destruct (multichoice_fields float_of_int_literal ascii_lower
              primes_multichoice
              (Question.mk (u "multichoice") (Some []) (Some []) (Some [])
                 [u "2"; u "4"; u "3"] [u "2"; u "3"] [] []))
    as (H1 & _ & H2).
  - reflexivity.
  - vm_compute. reflexivity.
  - split; [exact H1 | exact H2].
Defined.
